(** * eBPF for Windows: command dispatch and hook-attachment life cycles

    A shallow embedding of

    - [ebpfcore/ebpf_drv.c]: the privileged security descriptor, the
      IOCTL dispatcher [_ebpf_driver_io_device_control], its completion
      callback and its cancel callback;
    - [netebpfext/net_ebpf_ext.h]: the WFP filter context, the reference
      macros [REFERENCE_FILTER_CONTEXT] / [DEREFERENCE_FILTER_CONTEXT], the
      finalizer [CLEAN_UP_FILTER_CONTEXT] and the cleanup state.

    Values of the Windows headers that the sources use but do not define
    (NTSTATUS codes, [NT_SUCCESS], device-type constants) are written out
    with their documented values.  Kernel services and the execution
    context (buffer retrieval, the protocol handler table, the access
    check) are taken as an environment of functions, so that every theorem
    holds whatever they answer. *)

From Stdlib Require Import ZArith List Bool Lia.
From stdpp Require Import base option list gmap.
Import ListNotations.

#[local] Open Scope Z_scope.

(** ** NTSTATUS *)

Module Status.

(** NTSTATUS is a signed 32-bit value; the headers give the codes as
    unsigned hexadecimal constants. *)
Definition NTSTATUS := Z.

Definition of_code (code : Z) : NTSTATUS :=
  if code <? 2 ^ 31 then code else code - 2 ^ 32.

Definition STATUS_SUCCESS : NTSTATUS := 0.
Definition STATUS_PENDING : NTSTATUS := of_code 0x00000103.
Definition STATUS_INVALID_PARAMETER : NTSTATUS := of_code 0xC000000D.
Definition STATUS_INVALID_DEVICE_REQUEST : NTSTATUS := of_code 0xC0000010.
Definition STATUS_ACCESS_DENIED : NTSTATUS := of_code 0xC0000022.
Definition STATUS_BUFFER_TOO_SMALL : NTSTATUS := of_code 0xC0000023.
Definition STATUS_INSUFFICIENT_RESOURCES : NTSTATUS := of_code 0xC000009A.
Definition STATUS_CANCELLED : NTSTATUS := of_code 0xC0000120.

(** [#define NT_SUCCESS(Status) (((NTSTATUS)(Status)) >= 0)] *)
Definition NT_SUCCESS (status : NTSTATUS) : bool := 0 <=? status.

End Status.
Export Status.

(** ** ebpf_drv.c: the IOCTL surface *)

Module Drv.

(** [CTL_CODE] as the source defines it. *)
Definition CTL_CODE (DeviceType Function Method Access : Z) : Z :=
  Z.lor (Z.lor (Z.lor (Z.shiftl DeviceType 16) (Z.shiftl Access 14))
               (Z.shiftl Function 2)) Method.

Definition FILE_DEVICE_NETWORK : Z := 0x12.
Definition METHOD_BUFFERED : Z := 0.
Definition FILE_ANY_ACCESS : Z := 0.
Definition EBPF_IOCTL_TYPE : Z := FILE_DEVICE_NETWORK.
Definition IOCTL_EBPF_CTL_METHOD_BUFFERED : Z :=
  CTL_CODE EBPF_IOCTL_TYPE 0x900 METHOD_BUFFERED FILE_ANY_ACCESS.

(** The WDF request object, as far as the driver acts on it: the object
    references taken with [WdfObjectReference], whether a cancel routine
    is registered, and the completions delivered to the caller. *)
Record wdf_request := mk_request {
  reference_count : Z;
  cancelable : bool;
  completions : list (NTSTATUS * Z)
}.

(** What the driver calls, in call order. *)
Inductive call {operation_id : Type} :=
| RetrieveInputBuffer (minimum : Z)
| GetHandlerProperties (id : operation_id)
| IsCallerPrivileged
| RetrieveOutputBuffer (minimum : Z)
| ObjectReference
| MarkCancelable
| InvokeHandler (id : operation_id) (input_length output_length : Z)
                (has_reply : bool) (has_async_context : bool)
| UnmarkCancelable
| ObjectDereference
| CompleteWithInformation (status : NTSTATUS) (information : Z)
| CancelProtocolHandler.
Arguments call : clear implicits.

Section Dispatch.

Context {ebpf_result_t operation_id buffer core_state : Type}.

(** The result of a buffer retrieval: status, pointer (NULL is
    [None]) and actual length. *)
Definition retrieved : Type := NTSTATUS * option buffer * Z.

(** The minimum request size, minimum reply size, async flag and
    privilege flag of a protocol handler. *)
Record handler_properties := mk_properties {
  minimum_request_size : Z;
  minimum_reply_size : Z;
  async : bool;
  privileged : bool
}.

(** The services the dispatcher calls and the sources do not define. *)
Record environment := mk_environment {
  ebpf_result_to_ntstatus : ebpf_result_t -> NTSTATUS;
  (** [sizeof(struct _ebpf_operation_header)] *)
  sizeof_ebpf_operation_header : Z;
  (** [user_request->id] *)
  header_id : buffer -> operation_id;
  WdfRequestRetrieveInputBuffer : Z -> retrieved;
  WdfRequestRetrieveOutputBuffer : Z -> retrieved;
  ebpf_core_get_protocol_handler_properties :
    operation_id -> ebpf_result_t * handler_properties;
  (** The answer of [_ebpf_driver_is_caller_privileged] for the
      calling thread. *)
  is_caller_privileged : bool;
  (** [ebpf_core_invoke_protocol_handler]: operation, request, its
      length, reply (NULL is [None]), its length, whether an
      async context is passed. *)
  ebpf_core_invoke_protocol_handler :
    operation_id -> buffer -> Z -> option buffer -> Z -> bool ->
    core_state -> ebpf_result_t * core_state
}.

Record world := mk_world {
  request : wdf_request;
  core : core_state;
  trace : list (call operation_id)
}.

(** Executions either return or stop at a violated [ebpf_assert]. *)
Inductive outcome (A : Type) :=
| Returned (a : A) (w : world)
| AssertionFailed (w : world).
Arguments Returned {A} a w.
Arguments AssertionFailed {A} w.

Definition M (A : Type) : Type := world -> outcome A.

Definition ret {A} (a : A) : M A := fun w => Returned a w.

Definition bind {A B} (c : M A) (k : A -> M B) : M B :=
  fun w => match c w with
           | Returned a w' => k a w'
           | AssertionFailed w' => AssertionFailed w'
           end.

Definition record (c : call operation_id) : M unit :=
  fun w => Returned tt (mk_world (request w) (core w) (trace w ++ [c])).

Definition update_request (f : wdf_request -> wdf_request) : M unit :=
  fun w => Returned tt (mk_world (f (request w)) (core w) (trace w)).

Definition ebpf_assert (condition : bool) : M unit :=
  fun w => if condition then Returned tt w else AssertionFailed w.

#[local] Notation "x <- c ;;; k" := (bind c (fun x => k))
  (at level 100, c at next level, k at level 200, right associativity,
   only parsing).
#[local] Notation "c ;;; k" := (bind c (fun _ => k))
  (at level 100, k at level 200, right associativity, only parsing).

(** *** The WDF calls that act on the request *)

Definition WdfObjectReference : M unit :=
  record ObjectReference ;;;
  update_request (fun r =>
    mk_request (reference_count r + 1) (cancelable r) (completions r)).

Definition WdfObjectDereference : M unit :=
  record ObjectDereference ;;;
  update_request (fun r =>
    mk_request (reference_count r - 1) (cancelable r) (completions r)).

Definition WdfRequestMarkCancelable : M unit :=
  record MarkCancelable ;;;
  update_request (fun r =>
    mk_request (reference_count r) true (completions r)).

Definition WdfRequestUnmarkCancelable : M unit :=
  record UnmarkCancelable ;;;
  update_request (fun r =>
    mk_request (reference_count r) false (completions r)).

Definition WdfRequestCompleteWithInformation
    (status : NTSTATUS) (information : Z) : M unit :=
  record (CompleteWithInformation status information) ;;;
  update_request (fun r =>
    mk_request (reference_count r) (cancelable r)
               (completions r ++ [(status, information)])).

Variable env : environment.

(** [(uint16_t)length] *)
Definition to_uint16 (length : Z) : Z := length mod 2 ^ 16.

Definition invoke_protocol_handler (id : operation_id)
    (user_request : buffer) (input_length : Z)
    (user_reply : option buffer) (output_length : Z)
    (async_context : bool) : M ebpf_result_t :=
  fun w =>
    let '(result, core') :=
      ebpf_core_invoke_protocol_handler env id user_request input_length
        user_reply output_length async_context (core w) in
    Returned result
      (mk_world (request w) core'
         (trace w ++ [InvokeHandler id input_length output_length
                        (bool_decide (is_Some user_reply)) async_context])).

(** The output-buffer stage of the dispatcher (the block under
    [if (minimum_reply_size > 0)]): either a status to leave with, or
    [user_reply] and [actual_output_length]. *)
Definition retrieve_reply (output_buffer_length : Z)
    (properties : handler_properties)
    : M (NTSTATUS + option buffer * Z) :=
  if 0 <? minimum_reply_size properties then
    record (RetrieveOutputBuffer output_buffer_length) ;;;
    let '(status, output_buffer, actual_output_length) :=
      WdfRequestRetrieveOutputBuffer env output_buffer_length in
    if negb (NT_SUCCESS status) then ret (inl status)
    else match output_buffer with
         | None => ret (inl STATUS_INVALID_PARAMETER)
         | Some reply =>
             if actual_output_length <? minimum_reply_size properties
             then ret (inl STATUS_BUFFER_TOO_SMALL)
             else ret (inr (Some reply, actual_output_length))
         end
  else ret (inr (None, 0)).

(** The handler stage of the dispatcher (from [if (async)] to the
    [goto Done] after the call): the final [status] and
    [wdf_request_ref_acquired]. *)
Definition invoke_operation (user_request : buffer)
    (actual_input_length : Z) (properties : handler_properties)
    (user_reply : option buffer) (actual_output_length : Z)
    : M (NTSTATUS * bool) :=
  (if async properties
   then WdfObjectReference ;;; WdfRequestMarkCancelable
   else ret tt) ;;;
  result <- invoke_protocol_handler (header_id env user_request)
              user_request (to_uint16 actual_input_length) user_reply
              (to_uint16 actual_output_length) (async properties) ;;;
  ret (ebpf_result_to_ntstatus env result, async properties).

(** The dispatcher from the privilege check on, for an operation whose
    properties the handler table returned. *)
Definition handle_operation (output_buffer_length : Z)
    (user_request : buffer) (actual_input_length : Z)
    (properties : handler_properties) : M (NTSTATUS * bool) :=
  denied <- (if privileged properties
             then record IsCallerPrivileged ;;;
                  ret (negb (is_caller_privileged env))
             else ret false) ;;;
  if (denied : bool) then ret (STATUS_ACCESS_DENIED, false)
  else
    reply <- retrieve_reply output_buffer_length properties ;;;
    match reply with
    | inl status => ret (status, false)
    | inr (user_reply, actual_output_length) =>
        invoke_operation user_request actual_input_length properties
          user_reply actual_output_length
    end.

(** The body of [_ebpf_driver_io_device_control] up to the label
    [Done]: the final [status] and [wdf_request_ref_acquired]. *)
Definition io_device_control_body
    (output_buffer_length input_buffer_length io_control_code : Z)
    : M (NTSTATUS * bool) :=
  if io_control_code =? IOCTL_EBPF_CTL_METHOD_BUFFERED then
    if negb (input_buffer_length =? 0) then
      record (RetrieveInputBuffer input_buffer_length) ;;;
      let '(status, input_buffer, actual_input_length) :=
        WdfRequestRetrieveInputBuffer env input_buffer_length in
      if negb (NT_SUCCESS status) then ret (status, false)
      else match input_buffer with
      | None => ret (STATUS_INVALID_PARAMETER, false)
      | Some user_request =>
        if actual_input_length <? sizeof_ebpf_operation_header env
        then ret (STATUS_INVALID_PARAMETER, false)
        else
          record (GetHandlerProperties (header_id env user_request)) ;;;
          let '(result, properties) :=
            ebpf_core_get_protocol_handler_properties env
              (header_id env user_request) in
          let status := ebpf_result_to_ntstatus env result in
          if negb (status =? STATUS_SUCCESS) then ret (status, false)
          else handle_operation output_buffer_length user_request
                 actual_input_length properties
      end
    else ret (STATUS_INVALID_PARAMETER, false)
  else ret (STATUS_INVALID_DEVICE_REQUEST, false).

(** The code at the label [Done]. *)
Definition io_device_control_done (output_buffer_length : Z)
    (status : NTSTATUS) (wdf_request_ref_acquired : bool) : M unit :=
  if negb (status =? STATUS_PENDING) then
    (if wdf_request_ref_acquired
     then ebpf_assert (negb (status =? STATUS_SUCCESS)) ;;;
          WdfRequestUnmarkCancelable ;;;
          WdfObjectDereference
     else ret tt) ;;;
    WdfRequestCompleteWithInformation status output_buffer_length
  else ret tt.

Definition _ebpf_driver_io_device_control
    (output_buffer_length input_buffer_length io_control_code : Z)
    : M unit :=
  exit <- io_device_control_body output_buffer_length input_buffer_length
            io_control_code ;;;
  io_device_control_done output_buffer_length (fst exit) (snd exit).

Definition _ebpf_driver_io_device_control_complete
    (output_buffer_length : Z) (result : ebpf_result_t) : M unit :=
  WdfRequestUnmarkCancelable ;;;
  WdfRequestCompleteWithInformation
    (ebpf_result_to_ntstatus env result) output_buffer_length ;;;
  WdfObjectDereference.

(** [ebpf_assert] is defined outside these sources.  The code at the
    label [Done] in a build in which the macro expands to nothing. *)
Definition io_device_control_done_without_assert (output_buffer_length : Z)
    (status : NTSTATUS) (wdf_request_ref_acquired : bool) : M unit :=
  if negb (status =? STATUS_PENDING) then
    (if wdf_request_ref_acquired
     then WdfRequestUnmarkCancelable ;;;
          WdfObjectDereference
     else ret tt) ;;;
    WdfRequestCompleteWithInformation status output_buffer_length
  else ret tt.

(** [_ebpf_driver_io_device_control] in such a build. *)
Definition _ebpf_driver_io_device_control_without_assert
    (output_buffer_length input_buffer_length io_control_code : Z)
    : M unit :=
  exit <- io_device_control_body output_buffer_length input_buffer_length
            io_control_code ;;;
  io_device_control_done_without_assert output_buffer_length (fst exit)
    (snd exit).

(** *** Vocabulary for the statements *)

(** The command carries a whole operation header and the handler table
    knows its operation: [properties] is the command's descriptor. *)
Definition has_descriptor (input_buffer_length : Z)
    (user_request : buffer) (actual_input_length : Z)
    (properties : handler_properties) : Prop :=
  input_buffer_length <> 0 /\
  exists status result,
    WdfRequestRetrieveInputBuffer env input_buffer_length
      = (status, Some user_request, actual_input_length) /\
    NT_SUCCESS status = true /\
    sizeof_ebpf_operation_header env <= actual_input_length /\
    ebpf_core_get_protocol_handler_properties env
      (header_id env user_request) = (result, properties) /\
    ebpf_result_to_ntstatus env result = STATUS_SUCCESS.

(** The input is empty, or shorter than an operation header. *)
Definition input_too_short (input_buffer_length : Z) : Prop :=
  input_buffer_length = 0 \/
  exists status input_buffer actual_input_length,
    WdfRequestRetrieveInputBuffer env input_buffer_length
      = (status, input_buffer, actual_input_length) /\
    NT_SUCCESS status = true /\
    actual_input_length < sizeof_ebpf_operation_header env.

(** The privilege stage lets the command through. *)
Definition privilege_granted (properties : handler_properties) : Prop :=
  privileged properties = false \/ is_caller_privileged env = true.

(** The reply stage lets the command through with [user_reply] and
    [actual_output_length]. *)
Definition reply_accepted (output_buffer_length : Z)
    (properties : handler_properties) (user_reply : option buffer)
    (actual_output_length : Z) : Prop :=
  (minimum_reply_size properties <= 0 /\
   user_reply = None /\ actual_output_length = 0) \/
  (0 < minimum_reply_size properties /\
   exists status reply,
     WdfRequestRetrieveOutputBuffer env output_buffer_length
       = (status, Some reply, actual_output_length) /\
     NT_SUCCESS status = true /\
     minimum_reply_size properties <= actual_output_length /\
     user_reply = Some reply).

(** The output buffer can be retrieved and is smaller than the
    minimum reply. *)
Definition reply_too_small (output_buffer_length : Z)
    (properties : handler_properties) : Prop :=
  exists status reply actual_output_length,
    WdfRequestRetrieveOutputBuffer env output_buffer_length
      = (status, Some reply, actual_output_length) /\
    NT_SUCCESS status = true /\
    actual_output_length < minimum_reply_size properties.

(** What [WdfRequestCompleteWithInformation] leaves behind. *)
Definition completed (status : NTSTATUS) (information : Z) (w : world)
    : world :=
  mk_world
    (mk_request (reference_count (request w)) (cancelable (request w))
       (completions (request w) ++ [(status, information)]))
    (core w)
    (trace w ++ [CompleteWithInformation status information]).

(** What the failure path of an async command leaves behind: the
    cancel routine is unregistered, the reference is dropped, the
    request is completed. *)
Definition released_and_completed (status : NTSTATUS) (information : Z)
    (w : world) : world :=
  mk_world
    (mk_request (reference_count (request w) - 1) false
       (completions (request w) ++ [(status, information)]))
    (core w)
    (trace w ++ [UnmarkCancelable; ObjectDereference;
                 CompleteWithInformation status information]).

Definition add_trace (calls : list (call operation_id)) (w : world)
    : world :=
  mk_world (request w) (core w) (trace w ++ calls).

(** The calls of the privilege stage. *)
Definition privilege_calls (properties : handler_properties)
    : list (call operation_id) :=
  if privileged properties then [IsCallerPrivileged] else [].

(** The calls of the reply stage. *)
Definition reply_calls (out_len : Z) (properties : handler_properties)
    : list (call operation_id) :=
  if 0 <? minimum_reply_size properties
  then [RetrieveOutputBuffer out_len] else [].

(** The calls of the handler stage. *)
Definition invoke_calls (user_request : buffer) (alen : Z)
    (properties : handler_properties) (user_reply : option buffer)
    (olen : Z) : list (call operation_id) :=
  (if async properties then [ObjectReference; MarkCancelable] else [])
  ++ [InvokeHandler (header_id env user_request) (to_uint16 alen)
        (to_uint16 olen) (bool_decide (is_Some user_reply))
        (async properties)].

(** The request when the handler runs. *)
Definition request_at_invoke (properties : handler_properties)
    (r : wdf_request) : wdf_request :=
  if async properties
  then mk_request (reference_count r + 1) true (completions r)
  else r.

Definition outcome_world {A} (o : outcome A) : world :=
  match o with Returned _ w => w | AssertionFailed w => w end.

(** How often the handler was invoked in a trace. *)
Definition is_invocation (c : call operation_id) : bool :=
  match c with InvokeHandler _ _ _ _ _ => true | _ => false end.

Definition handler_invocations (t : list (call operation_id)) : nat :=
  length (List.filter is_invocation t).

Definition is_output_retrieval (c : call operation_id) : bool :=
  match c with RetrieveOutputBuffer _ => true | _ => false end.

Definition output_retrievals (t : list (call operation_id)) : nat :=
  length (List.filter is_output_retrieval t).

(** The state in which the handler has answered: the calls up to and
    with the handler call are made, a reference and a cancel routine
    are taken for an async command. *)
Definition handled (in_len out_len : Z) (user_request : buffer) (alen : Z)
    (properties : handler_properties) (user_reply : option buffer)
    (olen : Z) (core' : core_state) (w : world) : world :=
  mk_world (request_at_invoke properties (request w)) core'
    (trace w
     ++ [RetrieveInputBuffer in_len;
         GetHandlerProperties (header_id env user_request)]
     ++ privilege_calls properties
     ++ reply_calls out_len properties
     ++ invoke_calls user_request alen properties user_reply olen).

End Dispatch.

Arguments Returned {operation_id core_state A} a w.
Arguments AssertionFailed {operation_id core_state A} w.

End Drv.

(** ** ebpf_drv.c: completion and cancellation of an async command *)

Module Bridge.
Import Drv.

(** Modelled from the spec: the life cycle of a command that the
    execution context keeps for the cancellation bridge (section 4.2:
    Active, then Cancelling once a cancel is requested, then Completed;
    or Active, then Completed).  [ebpf_core_cancel_protocol_handler]
    and the code that calls the completion callback are not in the
    sources. *)
Inductive command_state := Active | Cancelling | Completed.

(** The path that asks for the terminal transition. *)
Inductive path := CancellationPath | HandlerPath.

Section Bridge.

Context {ebpf_result_t operation_id buffer core_state : Type}.
Variable env : @environment ebpf_result_t operation_id buffer core_state.

Record command := mk_command {
  state : command_state;
  world_of : @world operation_id core_state
}.

(** Modelled from the spec: [ebpf_core_cancel_protocol_handler] moves
    an Active command to Cancelling and completes nothing
    (section 4.2: cancellation is a hint, never a bypass; a cancel
    request after completion is a no-op). *)
Definition ebpf_core_cancel_protocol_handler (s : command_state)
    : command_state :=
  match s with
  | Active => Cancelling
  | Cancelling => Cancelling
  | Completed => Completed
  end.

(** [_ebpf_driver_io_device_control_cancel]: hands the request to the
    execution context. *)
Definition _ebpf_driver_io_device_control_cancel (c : command) : command :=
  mk_command (ebpf_core_cancel_protocol_handler (state c))
    (add_trace [CancelProtocolHandler] (world_of c)).

(** A cancel request of the caller: the framework calls the cancel
    routine of a request that is marked cancelable, once. *)
Definition cancel_requested (c : command) : command :=
  if cancelable (request (world_of c))
  then _ebpf_driver_io_device_control_cancel
         (mk_command (state c)
            (mk_world
               (mk_request (reference_count (request (world_of c)))
                  false (completions (request (world_of c))))
               (core (world_of c)) (trace (world_of c))))
  else c.

(** Modelled from the spec: the terminal transition (sections 4.2 and
    9: completion is a single-assignment event guarded by the
    terminal-state transition).  The path that reaches it first calls
    the completion callback the dispatcher passed to the handler,
    [_ebpf_driver_io_device_control_complete]; for a command that is
    Completed already the attempt does nothing. *)
Definition reach_completion (output_buffer_length : Z)
    (result : ebpf_result_t) (c : command) : command :=
  match state c with
  | Completed => c
  | Active | Cancelling =>
      mk_command Completed
        (outcome_world
           (_ebpf_driver_io_device_control_complete env
              output_buffer_length result (world_of c)))
  end.

Inductive event :=
| CancelRequest
| ReachCompletion (by_path : path) (output_buffer_length : Z)
                  (result : ebpf_result_t).

Definition step (c : command) (e : event) : command :=
  match e with
  | CancelRequest => cancel_requested c
  | ReachCompletion _ output_buffer_length result =>
      reach_completion output_buffer_length result c
  end.

Definition run (events : list event) (c : command) : command :=
  fold_left step events c.

(** The arrival of a command: the dispatcher runs; the command stays
    Active when the dispatcher answers STATUS_PENDING and is
    Completed when the dispatcher completed the request itself.
    [inr] is a violated assertion of the dispatcher. *)
Definition arrive (output_buffer_length input_buffer_length
    io_control_code : Z) (w : @world operation_id core_state)
    : command + @world operation_id core_state :=
  match io_device_control_body env output_buffer_length
          input_buffer_length io_control_code w with
  | AssertionFailed w1 => inr w1
  | Returned (status, wdf_request_ref_acquired) w1 =>
      match io_device_control_done output_buffer_length status
              wdf_request_ref_acquired w1 with
      | AssertionFailed w2 => inr w2
      | Returned _ w2 =>
          inl (mk_command
                 (if status =? STATUS_PENDING then Active else Completed)
                 w2)
      end
  end.

(** The first attempt at the terminal transition in a schedule. *)
Fixpoint first_completion (events : list event)
    : option (path * Z * ebpf_result_t) :=
  match events with
  | [] => None
  | CancelRequest :: rest => first_completion rest
  | ReachCompletion by_path output_buffer_length result :: _ =>
      Some (by_path, output_buffer_length, result)
  end.

Definition completion_count (c : command) : nat :=
  length (completions (request (world_of c))).

(** A command is Completed exactly when its request holds its one
    completion, and a Completed command has no cancel routine left. *)
Definition settled c : Prop :=
  match state c with
  | Completed =>
      completion_count c = 1%nat /\
      cancelable (request (world_of c)) = false
  | Active | Cancelling => completion_count c = 0%nat
  end.

End Bridge.

End Bridge.

(** ** ebpf_drv.c: the privileged security descriptor *)

Module Security.

Definition ACCESS_MASK := Z.
Definition GENERIC_ALL : ACCESS_MASK := 0x10000000.

Record SID := mk_sid {
  Revision : Z;
  IdentifierAuthority : list Z;
  SubAuthority : list Z
}.

(** An access-allowed ACE. *)
Record ACE := mk_ace {
  Mask : ACCESS_MASK;
  SidStart : SID
}.

Definition ACL := list ACE.

Record SECURITY_DESCRIPTOR := mk_security_descriptor {
  DaclPresent : bool;
  Dacl : option ACL
}.

Definition SID_REVISION : Z := 1.

(** The answers of the kernel to the calls of
    [_ebpf_driver_build_privileged_security_descriptor], in call
    order: whether each pool allocation yields memory, and the status
    of each Rtl call. *)
Record kernel_answers := mk_answers {
  sid_allocated : bool;
  RtlInitializeSid_status : NTSTATUS;
  RtlCreateSecurityDescriptor_status : NTSTATUS;
  dacl_allocated : bool;
  RtlCreateAcl_status : NTSTATUS;
  RtlAddAccessAllowedAce_status : NTSTATUS;
  RtlSetDaclSecurityDescriptor_status : NTSTATUS;
  (** [RtlAbsoluteToSelfRelativeSD] with no buffer, asked for the size *)
  size_query_status : NTSTATUS;
  descriptor_allocated : bool;
  RtlAbsoluteToSelfRelativeSD_status : NTSTATUS
}.

(** The driver's globals, with the number of pool blocks the driver
    holds under the tag 'fpBE'. *)
Record driver := mk_driver {
  ebpf_execution_context_privileged_security_descriptor
    : option SECURITY_DESCRIPTOR;
  _ebpf_driver_unloading_flag : bool;
  pool_blocks : Z;
  core_running : bool
}.

Definition sid_subauthorities : list Z :=
  [3453964624; 2861012444; 1105579853; 3193141192; 1897355174].

Definition service_authority : list Z :=
  [0x00; 0x00; 0x00; 0x00; 0x00; 0x50].

Definition subauthority_count : Z := Z.of_nat (length sid_subauthorities).

(** [RtlInitializeSid]: revision, authority and sub-authority count;
    the sub-authorities are still to be written. *)
Definition initialized_sid (authority : list Z) (count : Z) : SID :=
  mk_sid SID_REVISION authority (repeat 0 (Z.to_nat count)).

(** [for (i = 0; i < subauthority_count; i++)
       *RtlSubAuthoritySid(sid, i) = sid_subauthorities[i];] *)
Fixpoint write_subauthorities (i : nat) (values : list Z) (sid : SID) : SID :=
  match values with
  | [] => sid
  | value :: rest =>
      write_subauthorities (S i) rest
        (mk_sid (Revision sid) (IdentifierAuthority sid)
           (<[i := value]> (SubAuthority sid)))
  end.

(** The locals that the code under the label [Exit] looks at. *)
Record build_locals := mk_locals {
  sid : option SID;
  dacl : option ACL;
  self_relative_security_descriptor : option SECURITY_DESCRIPTOR
}.

(** [ebpf_allocate_with_tag] that yields memory, and [ebpf_free]. *)
Definition allocated (d : driver) : driver :=
  mk_driver (ebpf_execution_context_privileged_security_descriptor d)
    (_ebpf_driver_unloading_flag d) (pool_blocks d + 1) (core_running d).

Definition freed (d : driver) : driver :=
  mk_driver (ebpf_execution_context_privileged_security_descriptor d)
    (_ebpf_driver_unloading_flag d) (pool_blocks d - 1) (core_running d).

Definition set_descriptor (descriptor : option SECURITY_DESCRIPTOR)
    (d : driver) : driver :=
  mk_driver descriptor (_ebpf_driver_unloading_flag d) (pool_blocks d)
    (core_running d).

(** The body of [_ebpf_driver_build_privileged_security_descriptor] up
    to the label [Exit]: the status, the locals and the driver. *)
Definition build_body (k : kernel_answers) (d : driver)
    : NTSTATUS * build_locals * driver :=
  if negb (sid_allocated k)
  then (STATUS_INSUFFICIENT_RESOURCES, mk_locals None None None, d)
  else
    let d := allocated d in
    let sid0 := initialized_sid service_authority subauthority_count in
    if negb (NT_SUCCESS (RtlInitializeSid_status k))
    then (RtlInitializeSid_status k, mk_locals (Some sid0) None None, d)
    else
      let sid1 := write_subauthorities 0 sid_subauthorities sid0 in
      if negb (NT_SUCCESS (RtlCreateSecurityDescriptor_status k))
      then (RtlCreateSecurityDescriptor_status k,
            mk_locals (Some sid1) None None, d)
      else
        if negb (dacl_allocated k)
        then (STATUS_INSUFFICIENT_RESOURCES,
              mk_locals (Some sid1) None None, d)
        else
          let d := allocated d in
          if negb (NT_SUCCESS (RtlCreateAcl_status k))
          then (RtlCreateAcl_status k,
                mk_locals (Some sid1) (Some []) None, d)
          else
            if negb (NT_SUCCESS (RtlAddAccessAllowedAce_status k))
            then (RtlAddAccessAllowedAce_status k,
                  mk_locals (Some sid1) (Some []) None, d)
            else
              let acl := [mk_ace GENERIC_ALL sid1] in
              if negb (NT_SUCCESS (RtlSetDaclSecurityDescriptor_status k))
              then (RtlSetDaclSecurityDescriptor_status k,
                    mk_locals (Some sid1) (Some acl) None, d)
              else
                let security_descriptor :=
                  mk_security_descriptor true (Some acl) in
                if negb (size_query_status k =? STATUS_BUFFER_TOO_SMALL)
                then (size_query_status k,
                      mk_locals (Some sid1) (Some acl) None, d)
                else
                  if negb (descriptor_allocated k)
                  then (STATUS_INSUFFICIENT_RESOURCES,
                        mk_locals (Some sid1) (Some acl) None, d)
                  else
                    let d := allocated d in
                    if negb (NT_SUCCESS
                               (RtlAbsoluteToSelfRelativeSD_status k))
                    then (RtlAbsoluteToSelfRelativeSD_status k,
                          mk_locals (Some sid1) (Some acl)
                            (Some security_descriptor), d)
                    else (RtlAbsoluteToSelfRelativeSD_status k,
                          mk_locals (Some sid1) (Some acl) None,
                          set_descriptor (Some security_descriptor) d).

(** [if (pointer) { ebpf_free(pointer); }] *)
Definition free_if_set {A} (pointer : option A) (d : driver) : driver :=
  match pointer with
  | Some _ => freed d
  | None => d
  end.

Definition _ebpf_driver_build_privileged_security_descriptor
    (k : kernel_answers) (d : driver) : NTSTATUS * driver :=
  let '(status, locals, d) := build_body k d in
  (* Exit: *)
  let d := free_if_set (sid locals) d in
  let d := free_if_set (dacl locals) d in
  let d := free_if_set (self_relative_security_descriptor locals) d in
  (status, d).

(** The statuses of the calls of [_ebpf_driver_initialize_objects]
    that come before the descriptor is built. *)
Record startup_answers := mk_startup {
  WdfDriverCreate_status : NTSTATUS;
  _ebpf_driver_initialize_device_status : NTSTATUS;
  WdfIoQueueCreate_status : NTSTATUS;
  ebpf_core_initiate_status : NTSTATUS;
  descriptor_answers : kernel_answers
}.

Definition set_core_running (running : bool) (d : driver) : driver :=
  mk_driver (ebpf_execution_context_privileged_security_descriptor d)
    (_ebpf_driver_unloading_flag d) (pool_blocks d) running.

(** [_ebpf_driver_initialize_objects], as far as the globals go. *)
Definition _ebpf_driver_initialize_objects (a : startup_answers)
    (d : driver) : NTSTATUS * driver :=
  if negb (NT_SUCCESS (WdfDriverCreate_status a))
  then (WdfDriverCreate_status a, d)
  else if negb (NT_SUCCESS (_ebpf_driver_initialize_device_status a))
  then (_ebpf_driver_initialize_device_status a, d)
  else if negb (NT_SUCCESS (WdfIoQueueCreate_status a))
  then (WdfIoQueueCreate_status a, d)
  else if negb (NT_SUCCESS (ebpf_core_initiate_status a))
  then (ebpf_core_initiate_status a, d)
  else
    let '(status, d) :=
      _ebpf_driver_build_privileged_security_descriptor
        (descriptor_answers a) (set_core_running true d) in
    if negb (NT_SUCCESS status)
    then (status, set_core_running false d)
    else (status, d).

(** [_ebpf_driver_unload] *)
Definition _ebpf_driver_unload (d : driver) : driver :=
  let d := mk_driver
             (ebpf_execution_context_privileged_security_descriptor d)
             true (pool_blocks d) (core_running d) in
  let d :=
    match ebpf_execution_context_privileged_security_descriptor d with
    | Some _ => set_descriptor None (freed d)
    | None => d
    end in
  set_core_running false d.

Inductive KPROCESSOR_MODE := KernelMode | UserMode.

Section AccessCheck.

Context {subject_context : Type}.

(** [SeAccessCheck]: descriptor, subject, whether the subject is
    locked, desired access, previously granted access, generic
    mapping, access mode; its answer, the granted access and the
    status. *)
Variable SeAccessCheck :
  option SECURITY_DESCRIPTOR -> subject_context -> bool -> ACCESS_MASK ->
  ACCESS_MASK -> Z * Z * Z * Z -> KPROCESSOR_MODE ->
  bool * ACCESS_MASK * NTSTATUS.

(** [_ebpf_driver_is_caller_privileged] for the subject that
    [SeCaptureSubjectContext] captures. *)
Definition _ebpf_driver_is_caller_privileged (d : driver)
    (subject : subject_context) : bool :=
  let generic_mapping := (1, 1, 1, 1) in
  let '(result, granted_access, status) :=
    SeAccessCheck
      (ebpf_execution_context_privileged_security_descriptor d)
      subject false GENERIC_ALL 0 generic_mapping KernelMode in
  result && NT_SUCCESS status && (granted_access =? GENERIC_ALL).

End AccessCheck.

(** *** The descriptor as the specification describes it *)

(** S-1-5-18, the local system account. *)
Definition local_system_sid : SID := mk_sid 1 [0; 0; 0; 0; 0; 5] [18].

(** S-1-5-32-544, the built-in administrators. *)
Definition administrators_sid : SID :=
  mk_sid 1 [0; 0; 0; 0; 0; 5] [32; 544].

(** The SID of the service principal, as the driver builds it. *)
Definition service_sid : SID :=
  write_subauthorities 0 sid_subauthorities
    (initialized_sid service_authority subauthority_count).

(** The descriptor of the specification's words: full access for
    kernel/system, administrators and the service principal. *)
Definition allow_list_descriptor : SECURITY_DESCRIPTOR :=
  mk_security_descriptor true
    (Some [mk_ace GENERIC_ALL service_sid;
           mk_ace GENERIC_ALL administrators_sid;
           mk_ace GENERIC_ALL local_system_sid]).

(** The SIDs that the DACL of a descriptor names. *)
Definition named_by (descriptor : SECURITY_DESCRIPTOR) : list SID :=
  match Dacl descriptor with
  | Some acl => map SidStart acl
  | None => []
  end.

(** The descriptor that the driver builds: one ACE, full access for
    the service principal. *)
Definition privileged_descriptor : SECURITY_DESCRIPTOR :=
  mk_security_descriptor true (Some [mk_ace GENERIC_ALL service_sid]).

(** The SID of ebpfsvc as the source comments give it,
    S-1-5-80-3453964624-2861012444-1105579853-3193141192-1897355174. *)
Definition documented_service_sid : SID :=
  mk_sid 1 [0; 0; 0; 0; 0; 5]
    [80; 3453964624; 2861012444; 1105579853; 3193141192; 1897355174].

Definition every_call_succeeds : kernel_answers :=
  mk_answers true STATUS_SUCCESS STATUS_SUCCESS true STATUS_SUCCESS
    STATUS_SUCCESS STATUS_SUCCESS STATUS_BUFFER_TOO_SMALL true
    STATUS_SUCCESS.

Definition unloaded : driver := mk_driver None false 0 false.

End Security.

(** ** net_ebpf_ext.h: WFP filter contexts *)

Module NetExt.

Definition NET_EBPF_EXT_MAX_CLIENTS_PER_HOOK_MULTI_ATTACH : Z := 16.
Definition NET_EBPF_EXT_MAX_CLIENTS_PER_HOOK_SINGLE_ATTACH : Z := 1.

Inductive net_ebpf_ext_wfp_filter_state_t :=
| NET_EBPF_EXT_WFP_FILTER_ADDED
| NET_EBPF_EXT_WFP_FILTER_DELETING
| NET_EBPF_EXT_WFP_FILTER_DELETED
| NET_EBPF_EXT_WFP_FILTER_DELETE_FAILED.

Record net_ebpf_ext_wfp_filter_id_t := mk_filter_id {
  id : Z;
  state : net_ebpf_ext_wfp_filter_state_t;
  error_code : NTSTATUS
}.

(** Pool addresses of filter contexts, hook clients and providers, and
    WFP engine handles. *)
Definition address := positive.

(** [net_ebpf_extension_wfp_filter_context_t]; the list link and the
    spin lock are the cleanup list and the atomicity of the operations
    below. *)
Record net_ebpf_extension_wfp_filter_context_t := mk_filter_context {
  reference_count : Z;
  client_context_count_max : Z;
  client_contexts : option (list (option address));
  client_context_count : Z;
  provider_context : address;
  filter_ids : option (list net_ebpf_ext_wfp_filter_id_t);
  filter_ids_count : Z;
  context_deleting : bool;
  wildcard : bool;
  initialized : bool;
  wfp_engine_handle : option address
}.

(** [net_ebpf_extension_wfp_cleanup_state_t]; the event is set or
    not. *)
Record net_ebpf_extension_wfp_cleanup_state_t := mk_cleanup_state {
  provider_context_cleanup_list : list address;
  filter_cleanup_list : list address;
  signal_empty_filter_list : bool;
  wfp_filter_cleanup_event : bool
}.

(** What finalization does to the outside, in order. *)
Inductive effect :=
| LeaveRundown (provider : address)
| RemoveFromCleanupList (filter_context : address)
| FreeFilterIds (filter_context : address)
| FreeClientContexts (filter_context : address)
| EngineClose (handle : address)
| FreeFilterContext (filter_context : address).

(** The pool of live filter contexts, the cleanup state, the rundown
    references that filter contexts hold on their providers, and the
    effects so far. *)
Record system := mk_system {
  pool : gmap address net_ebpf_extension_wfp_filter_context_t;
  cleanup : net_ebpf_extension_wfp_cleanup_state_t;
  rundown : gmap address Z;
  effects : list effect
}.

(** [long] is 32 bits wide: the value that [InterlockedIncrement] and
    [InterlockedDecrement] store and return. *)
Definition to_long (n : Z) : Z := (n + 2 ^ 31) mod 2 ^ 32 - 2 ^ 31.

Definition emit (new : list effect) (s : system) : system :=
  mk_system (pool s) (cleanup s) (rundown s) (effects s ++ new).

Definition set_reference_count (n : Z)
    (c : net_ebpf_extension_wfp_filter_context_t)
    : net_ebpf_extension_wfp_filter_context_t :=
  mk_filter_context n (client_context_count_max c) (client_contexts c)
    (client_context_count c) (provider_context c) (filter_ids c)
    (filter_ids_count c) (context_deleting c) (wildcard c) (initialized c)
    (wfp_engine_handle c).

Section Macros.

(** The two functions that the macros call and the header only
    declares. *)
Variable net_ebpf_ext_remove_filter_context_from_cleanup_list :
  address -> net_ebpf_extension_wfp_cleanup_state_t ->
  net_ebpf_extension_wfp_cleanup_state_t.
Variable net_ebpf_extension_hook_provider_leave_rundown :
  address -> gmap address Z -> gmap address Z.

(** [CLEAN_UP_FILTER_CONTEXT(filter_context)]; [None] is an access to
    memory that is not a live filter context (the [ASSERT] on a NULL
    pointer included). *)
Definition CLEAN_UP_FILTER_CONTEXT (filter_context : option address)
    (s : system) : option system :=
  match filter_context with
  | None => None
  | Some p =>
      match pool s !! p with
      | None => None
      | Some c =>
          let s := mk_system (pool s)
                     (net_ebpf_ext_remove_filter_context_from_cleanup_list
                        p (cleanup s))
                     (rundown s)
                     (effects s ++ [RemoveFromCleanupList p]) in
          let s := match filter_ids c with
                   | Some _ => emit [FreeFilterIds p] s
                   | None => s
                   end in
          let s := match client_contexts c with
                   | Some _ => emit [FreeClientContexts p] s
                   | None => s
                   end in
          let s := match wfp_engine_handle c with
                   | Some handle => emit [EngineClose handle] s
                   | None => s
                   end in
          Some (mk_system (delete p (pool s)) (cleanup s) (rundown s)
                  (effects s ++ [FreeFilterContext p]))
      end
  end.

(** [REFERENCE_FILTER_CONTEXT(filter_context)] *)
Definition REFERENCE_FILTER_CONTEXT (filter_context : option address)
    (s : system) : option system :=
  match filter_context with
  | None => Some s
  | Some p =>
      match pool s !! p with
      | None => None
      | Some c =>
          Some (mk_system
                  (<[p := set_reference_count
                            (to_long (reference_count c + 1)) c]>
                     (pool s))
                  (cleanup s) (rundown s) (effects s))
      end
  end.

(** [DEREFERENCE_FILTER_CONTEXT(filter_context)] *)
Definition DEREFERENCE_FILTER_CONTEXT (filter_context : option address)
    (s : system) : option system :=
  match filter_context with
  | None => Some s
  | Some p =>
      match pool s !! p with
      | None => None
      | Some c =>
          let c := set_reference_count
                     (to_long (reference_count c - 1)) c in
          let s := mk_system (<[p := c]> (pool s)) (cleanup s)
                     (rundown s) (effects s) in
          if reference_count c =? 0 then
            CLEAN_UP_FILTER_CONTEXT (Some p)
              (mk_system (pool s) (cleanup s)
                 (net_ebpf_extension_hook_provider_leave_rundown
                    (provider_context c) (rundown s))
                 (effects s ++ [LeaveRundown (provider_context c)]))
          else Some s
      end
  end.

(** What the holders of a filter context do with their references,
    in the order in which the interlocked operations take effect. *)
Inductive holder_call := Reference | Dereference.

Fixpoint holders (calls : list holder_call) (p : address) (s : system)
    : option system :=
  match calls with
  | [] => Some s
  | call :: rest =>
      match (match call with
             | Reference => REFERENCE_FILTER_CONTEXT (Some p) s
             | Dereference => DEREFERENCE_FILTER_CONTEXT (Some p) s
             end) with
      | Some s => holders rest p s
      | None => None
      end
  end.

End Macros.

(** The reference count after the calls of the holders. *)
Definition count_after (n : Z) (calls : list holder_call) : Z :=
  fold_left (fun n call => match call with
                           | Reference => to_long (n + 1)
                           | Dereference => to_long (n - 1)
                           end) calls n.

(** The reference count stays above zero through all the calls. *)
Fixpoint stays_referenced (n : Z) (calls : list holder_call) : bool :=
  match calls with
  | [] => true
  | call :: rest =>
      let n := count_after n [call] in
      (0 <? n) && stays_referenced n rest
  end.

(** The effects of [CLEAN_UP_FILTER_CONTEXT] on a filter context. *)
Definition finalization (p : address)
    (c : net_ebpf_extension_wfp_filter_context_t) : list effect :=
  [RemoveFromCleanupList p]
  ++ match filter_ids c with Some _ => [FreeFilterIds p] | None => [] end
  ++ match client_contexts c with
     | Some _ => [FreeClientContexts p]
     | None => []
     end
  ++ match wfp_engine_handle c with
     | Some handle => [EngineClose handle]
     | None => []
     end
  ++ [FreeFilterContext p].

(** How often the memory of a filter context was freed. *)
Definition frees (p : address) (e : effect) : bool :=
  match e with
  | FreeFilterContext q => Pos.eqb q p
  | _ => false
  end.

Definition times_freed (p : address) (s : system) : nat :=
  length (List.filter (frees p) (effects s)).

(** A rule is resolved when its deletion callback reported: it is
    deleted, or its deletion failed. *)
Definition rule_resolved (rule : net_ebpf_ext_wfp_filter_id_t) : bool :=
  match state rule with
  | NET_EBPF_EXT_WFP_FILTER_DELETED
  | NET_EBPF_EXT_WFP_FILTER_DELETE_FAILED => true
  | NET_EBPF_EXT_WFP_FILTER_ADDED
  | NET_EBPF_EXT_WFP_FILTER_DELETING => false
  end.

Definition rules_resolved (c : net_ebpf_extension_wfp_filter_context_t)
    : bool :=
  match filter_ids c with
  | Some rules => forallb rule_resolved rules
  | None => true
  end.

(** *** The functions that the header declares *)

(** Modelled from the spec: the function
    [net_ebpf_ext_remove_filter_context_from_cleanup_list], which is
    declared in the header and defined elsewhere.  Section 4.4:
    unregister takes the item off the tracked list, under the list's
    own lock; the unregister that empties the list fires the drain
    signal, which [drain] arms with the signal-empty flag. *)
Definition net_ebpf_ext_remove_filter_context_from_cleanup_list
    (p : address) (k : net_ebpf_extension_wfp_cleanup_state_t)
    : net_ebpf_extension_wfp_cleanup_state_t :=
  let remaining :=
    List.filter (fun q => negb (Pos.eqb q p)) (filter_cleanup_list k) in
  let emptied :=
    negb (Nat.eqb (length (filter_cleanup_list k)) 0)
    && Nat.eqb (length remaining) 0 in
  mk_cleanup_state (provider_context_cleanup_list k) remaining
    (signal_empty_filter_list k)
    (wfp_filter_cleanup_event k
     || (signal_empty_filter_list k && emptied)).

(** A list that was not empty is empty now. *)
Definition emptied (before after : list address) : bool :=
  negb (Nat.eqb (length before) 0) && Nat.eqb (length after) 0.

(** Whether this unregister call fires the drain signal: the event is
    not set before the call and is set after it. *)
Definition fires (p : address) (k : net_ebpf_extension_wfp_cleanup_state_t)
    : bool :=
  negb (wfp_filter_cleanup_event k)
  && wfp_filter_cleanup_event
       (net_ebpf_ext_remove_filter_context_from_cleanup_list p k).

(** Unregister calls, one after the other as the lock serializes them:
    for each call whether it fired, and the state at the end. *)
Fixpoint unregister_all (calls : list address)
    (k : net_ebpf_extension_wfp_cleanup_state_t)
    : list bool * net_ebpf_extension_wfp_cleanup_state_t :=
  match calls with
  | [] => ([], k)
  | p :: rest =>
      let '(fired, k') :=
        unregister_all rest
          (net_ebpf_ext_remove_filter_context_from_cleanup_list p k) in
      (fires p k :: fired, k')
  end.

(** Modelled from the spec: [net_ebpf_extension_hook_provider_leave_rundown]
    is declared elsewhere.  Section 4.3: a resource holds one provider
    reference for its whole lifetime, decremented only at
    finalization. *)
Definition net_ebpf_extension_hook_provider_leave_rundown
    (provider : address) (rundown : gmap address Z) : gmap address Z :=
  match rundown !! provider with
  | Some held => <[provider := held - 1]> rundown
  | None => rundown
  end.

(** Modelled from the spec: [net_ebpf_ext_add_client_context] is
    declared in the header and defined elsewhere.  Section 4.3:
    attach fails with NoMemory when the client array, of fixed
    capacity since construction, is full; otherwise the client takes
    a free slot and the client count grows by one. *)
Inductive ebpf_result_t := EBPF_SUCCESS | EBPF_NO_MEMORY.

Fixpoint free_slot (slots : list (option address)) : option nat :=
  match slots with
  | [] => None
  | None :: _ => Some O
  | Some _ :: rest => S <$> free_slot rest
  end.

Definition net_ebpf_ext_add_client_context
    (c : net_ebpf_extension_wfp_filter_context_t) (hook_client : address)
    : ebpf_result_t * net_ebpf_extension_wfp_filter_context_t :=
  if client_context_count_max c <=? client_context_count c
  then (EBPF_NO_MEMORY, c)
  else
    match client_contexts c with
    | None => (EBPF_NO_MEMORY, c)
    | Some slots =>
        match free_slot slots with
        | None => (EBPF_NO_MEMORY, c)
        | Some index =>
            (EBPF_SUCCESS,
             mk_filter_context (reference_count c)
               (client_context_count_max c)
               (Some (<[index := Some hook_client]> slots))
               (client_context_count c + 1) (provider_context c)
               (filter_ids c) (filter_ids_count c) (context_deleting c)
               (wildcard c) (initialized c) (wfp_engine_handle c))
        end
    end.

(** Attach calls in a row: the results, and the context at the end. *)
Fixpoint attach_all (clients : list address)
    (c : net_ebpf_extension_wfp_filter_context_t)
    : list ebpf_result_t * net_ebpf_extension_wfp_filter_context_t :=
  match clients with
  | [] => ([], c)
  | client :: rest =>
      let '(result, c) := net_ebpf_ext_add_client_context c client in
      let '(results, c) := attach_all rest c in
      (result :: results, c)
  end.

(** Modelled from the spec: [create(max_clients, provider)] of section
    4.3, a filter context with an empty client array of the given
    capacity. *)
Definition create (max_clients : nat) (provider : address)
    : net_ebpf_extension_wfp_filter_context_t :=
  mk_filter_context 1 (Z.of_nat max_clients)
    (Some (repeat None max_clients)) 0 provider None 0 false false true
    None.

(** The client array has the capacity of the context and holds as
    many clients as the context counts. *)
Definition occupied (slots : list (option address)) : nat :=
  length (List.filter (fun slot => bool_decide (is_Some slot)) slots).

Definition well_formed (c : net_ebpf_extension_wfp_filter_context_t)
    : Prop :=
  exists slots,
    client_contexts c = Some slots /\
    Z.of_nat (length slots) = client_context_count_max c /\
    Z.of_nat (occupied slots) = client_context_count c.

(** The same system with another reference count for the filter
    context at [p]. *)
Definition with_count (n : Z) (p : address)
    (c : net_ebpf_extension_wfp_filter_context_t) (s : system) : system :=
  mk_system (<[p := set_reference_count n c]> (pool s)) (cleanup s)
    (rundown s) (effects s).

(** The cleanup list reaches live filter contexts only. *)
Definition cleanup_list_live (s : system) : Prop :=
  forall q, In q (filter_cleanup_list (cleanup s)) -> is_Some (pool s !! q).

(** What the macros need of the removal: the context is off the list,
    and nothing joins the list. *)
Definition removes (p : address) (before after : list address) : Prop :=
  ~ In p after /\ forall q, In q after -> In q before.

Definition count_true (fired : list bool) : nat :=
  length (List.filter (fun b : bool => b) fired).

(** *** The deferred deletion of a filter context *)

(** Modelled from the spec:
    [net_ebpf_ext_add_filter_context_to_cleanup_list] is declared in
    the header and defined elsewhere.  Section 4.4: register puts the
    item on the tracked list. *)
Definition net_ebpf_ext_add_filter_context_to_cleanup_list
    (p : address) (k : net_ebpf_extension_wfp_cleanup_state_t)
    : net_ebpf_extension_wfp_cleanup_state_t :=
  mk_cleanup_state (provider_context_cleanup_list k)
    (filter_cleanup_list k ++ [p]) (signal_empty_filter_list k)
    (wfp_filter_cleanup_event k).

(** The WFP filters of a filter context; none when [filter_ids] is
    NULL. *)
Definition rules_of (c : net_ebpf_extension_wfp_filter_context_t)
    : list net_ebpf_ext_wfp_filter_id_t :=
  match filter_ids c with
  | Some rules => rules
  | None => []
  end.

Definition set_filter_ids
    (rules : option (list net_ebpf_ext_wfp_filter_id_t)) (deleting : bool)
    (c : net_ebpf_extension_wfp_filter_context_t)
    : net_ebpf_extension_wfp_filter_context_t :=
  mk_filter_context (reference_count c) (client_context_count_max c)
    (client_contexts c) (client_context_count c) (provider_context c) rules
    (filter_ids_count c) deleting (wildcard c) (initialized c)
    (wfp_engine_handle c).

(** The record of a rule whose deletion is requested, and of a rule
    whose deletion callback fired with [error]. *)
Definition deletion_requested (rule : net_ebpf_ext_wfp_filter_id_t)
    : net_ebpf_ext_wfp_filter_id_t :=
  mk_filter_id (id rule) NET_EBPF_EXT_WFP_FILTER_DELETING (error_code rule).

Definition deletion_reported (error : NTSTATUS)
    (rule : net_ebpf_ext_wfp_filter_id_t) : net_ebpf_ext_wfp_filter_id_t :=
  mk_filter_id (id rule)
    (if NT_SUCCESS error
     then NET_EBPF_EXT_WFP_FILTER_DELETED
     else NET_EBPF_EXT_WFP_FILTER_DELETE_FAILED)
    error.

(** Modelled from the spec: [begin_delete(resource)] of section 4.3,
    whose code is not in these sources.  The state becomes deleting,
    the deletion of every rule is requested, and the resource is put
    on the cleanup list.  Section 3: the reference count is
    incremented once per outstanding request, and decremented on
    request completion; every requested deletion holds one reference
    until its callback. *)
Definition begin_delete (p : address) (s : system) : option system :=
  match pool s !! p with
  | None => None
  | Some c =>
      let requested :=
        set_reference_count
          (to_long (reference_count c + Z.of_nat (length (rules_of c))))
          (set_filter_ids (map deletion_requested <$> filter_ids c) true c) in
      Some (mk_system (<[p := requested]> (pool s))
              (net_ebpf_ext_add_filter_context_to_cleanup_list p (cleanup s))
              (rundown s) (effects s))
  end.

(** Modelled from the spec: the rule deletion callback of section 4.3
    (the header declares [net_ebpf_ext_filter_change_notify], defined
    elsewhere).  The callback updates the record of the rule; if that
    was the last outstanding rule of the resource, it takes the
    resource off the cleanup list; the request being complete, its
    reference is given back, with [DEREFERENCE_FILTER_CONTEXT].
    Section 7: a deletion that failed is recorded on the rule and does
    not hold up the reclamation. *)
Definition rule_deletion_callback (p : address) (index : nat)
    (error : NTSTATUS) (s : system) : option system :=
  match pool s !! p with
  | None => None
  | Some c =>
      match rules_of c !! index with
      | None => None
      | Some rule =>
          let rules := <[index := deletion_reported error rule]> (rules_of c) in
          let c := set_filter_ids (Some rules) (context_deleting c) c in
          let k :=
            if forallb rule_resolved rules
            then net_ebpf_ext_remove_filter_context_from_cleanup_list p
                   (cleanup s)
            else cleanup s in
          DEREFERENCE_FILTER_CONTEXT
            net_ebpf_ext_remove_filter_context_from_cleanup_list
            net_ebpf_extension_hook_provider_leave_rundown (Some p)
            (mk_system (<[p := c]> (pool s)) k (rundown s) (effects s))
      end
  end.

(** What reaches a filter context after [begin_delete]: a holder gives
    its reference back with [DEREFERENCE_FILTER_CONTEXT], or the
    deletion callback of a rule fires. *)
Inductive teardown_event :=
| Detach
| RuleDeleted (index : nat) (error : NTSTATUS).

Definition teardown_step (p : address) (e : teardown_event) (s : system)
    : option system :=
  match e with
  | Detach =>
      DEREFERENCE_FILTER_CONTEXT
        net_ebpf_ext_remove_filter_context_from_cleanup_list
        net_ebpf_extension_hook_provider_leave_rundown (Some p) s
  | RuleDeleted index error => rule_deletion_callback p index error s
  end.

(** The events one after the other, in the order in which they take
    effect. *)
Fixpoint teardown (events : list teardown_event) (p : address) (s : system)
    : option system :=
  match events with
  | [] => Some s
  | e :: rest =>
      match teardown_step p e s with
      | Some s => teardown rest p s
      | None => None
      end
  end.

(** The rules whose callbacks are among the events, and the number of
    references given back by holders. *)
Fixpoint deleted_rules (events : list teardown_event) : list nat :=
  match events with
  | [] => []
  | Detach :: rest => deleted_rules rest
  | RuleDeleted index _ :: rest => index :: deleted_rules rest
  end.

Fixpoint detaches (events : list teardown_event) : nat :=
  match events with
  | [] => O
  | Detach :: rest => S (detaches rest)
  | RuleDeleted _ _ :: rest => detaches rest
  end.

(** The rule at [index] of the filter context is not resolved. *)
Definition unresolved (c : net_ebpf_extension_wfp_filter_context_t)
    (index : nat) : Prop :=
  exists rule, rules_of c !! index = Some rule /\ rule_resolved rule = false.

(** The events that the filter context waits for: one per reference,
    among them one callback for every rule that is not resolved. *)
Definition awaited (c : net_ebpf_extension_wfp_filter_context_t)
    (events : list teardown_event) : Prop :=
  reference_count c = Z.of_nat (length events) /\
  List.NoDup (deleted_rules events) /\
  forall index, In index (deleted_rules events) <-> unresolved c index.

End NetExt.

(** ** Concrete inputs *)

(** A concrete command channel. *)
Module Sample.

Import Drv.

Inductive result := SUCCESS | PENDING | NO_MEMORY | CANCELED.

Definition to_ntstatus (r : result) : NTSTATUS :=
  match r with
  | SUCCESS => STATUS_SUCCESS
  | PENDING => STATUS_PENDING
  | NO_MEMORY => STATUS_INSUFFICIENT_RESOURCES
  | CANCELED => STATUS_CANCELLED
  end.

(** Operation 1 is synchronous and open to everyone, operation 2 is
    privileged and replies with 16 bytes, operations 3 and 4 are
    asynchronous and reply with 16 bytes; there is no other
    operation. *)
Definition properties_of (id : Z) : result * handler_properties :=
  if id =? 1 then (SUCCESS, mk_properties 8 0 false false)
  else if id =? 2 then (SUCCESS, mk_properties 8 16 false true)
  else if (id =? 3) || (id =? 4)
  then (SUCCESS, mk_properties 8 16 true false)
  else (NO_MEMORY, mk_properties 0 0 false false).

(** A buffer of bytes is retrieved when it is not empty and has the
    length asked for. *)
Definition retrieve (bytes : list Z) (minimum : Z)
    : NTSTATUS * option (list Z) * Z :=
  if (Z.of_nat (length bytes) =? 0) || (Z.of_nat (length bytes) <? minimum)
  then (STATUS_BUFFER_TOO_SMALL, None, 0)
  else (STATUS_SUCCESS, Some bytes, Z.of_nat (length bytes)).

(** The handlers count the commands they saw; operation 3 fails at
    once for want of memory, operation 4 stays pending. *)
Definition handler (id : Z) (_ : list Z) (_ : Z) (_ : option (list Z))
    (_ : Z) (_ : bool) (seen : nat) : result * nat :=
  (if id =? 3 then NO_MEMORY else if id =? 4 then PENDING else SUCCESS,
   S seen).

Definition channel (input output : list Z) (caller_privileged : bool)
    : @environment result Z (list Z) nat :=
  mk_environment to_ntstatus 8 (fun bytes => nth 4 bytes 0)
    (retrieve input) (retrieve output) properties_of caller_privileged
    handler.

Definition header (id : Z) : list Z := [8; 0; 0; 0; id; 0; 0; 0].

Definition idle : @world Z nat := mk_world (mk_request 0 false []) 0%nat [].

End Sample.

Module Hook.

Import NetExt.

Definition context_address : address := 1%positive.
Definition client_address : address := 20%positive.
Definition provider_address : address := 30%positive.
Definition engine_handle : address := 40%positive.

(** A filter context with one reference left, one attached client and
    a WFP filter whose deletion has been requested and not yet
    reported. *)
Definition deleting_context : net_ebpf_extension_wfp_filter_context_t :=
  mk_filter_context 1 NET_EBPF_EXT_MAX_CLIENTS_PER_HOOK_SINGLE_ATTACH
    (Some [Some client_address]) 1 provider_address
    (Some [mk_filter_id 7 NET_EBPF_EXT_WFP_FILTER_DELETING 0]) 1 true false
    true (Some engine_handle).

(** The context is on the cleanup list and holds a rundown reference on
    its provider. *)
Definition teardown : system :=
  mk_system {[context_address := deleting_context]}
    (mk_cleanup_state [] [context_address] false false)
    {[provider_address := 1]} [].

(** One more reference is taken and given back. *)
Definition busy : list holder_call := [Reference; Dereference].

Definition clients (n : nat) : list address :=
  map Pos.of_nat (seq 100 n).

(** The macros with the functions modelled from the spec. *)
Definition dereference : option address -> system -> option system :=
  DEREFERENCE_FILTER_CONTEXT
    net_ebpf_ext_remove_filter_context_from_cleanup_list
    net_ebpf_extension_hook_provider_leave_rundown.

Definition clean_up : option address -> system -> option system :=
  CLEAN_UP_FILTER_CONTEXT
    net_ebpf_ext_remove_filter_context_from_cleanup_list.

Definition run_holders
    : list holder_call -> address -> system -> option system :=
  holders net_ebpf_ext_remove_filter_context_from_cleanup_list
    net_ebpf_extension_hook_provider_leave_rundown.

End Hook.

Module Startup.

Import Security.

Definition every_step_succeeds : startup_answers :=
  mk_startup STATUS_SUCCESS STATUS_SUCCESS STATUS_SUCCESS STATUS_SUCCESS
    every_call_succeeds.

(** The driver after a start in which every call succeeds. *)
Definition started : driver :=
  snd (_ebpf_driver_initialize_objects every_step_succeeds unloaded).

(** An access check to run the driver's check with: the subject
    carries the answer, yes with what was asked for, or no. *)
Definition answers_as_told (_ : option SECURITY_DESCRIPTOR) (subject : bool)
    (_ : bool) (desired _ : ACCESS_MASK) (_ : Z * Z * Z * Z)
    (_ : KPROCESSOR_MODE) : bool * ACCESS_MASK * NTSTATUS :=
  if subject then (true, desired, STATUS_SUCCESS)
  else (false, 0, STATUS_ACCESS_DENIED).

End Startup.

(** ** ebpf_drv.c: the start of the driver *)

Module Entry.

Import Security.

(** Handles of framework objects. *)
Definition handle := positive.

(** The answers to the calls of [_ebpf_driver_initialize_device]:
    whether [WdfControlDeviceInitAllocate] yields a structure, the
    status of each call, and the device that [WdfDeviceCreate] makes. *)
Record device_answers := mk_device_answers {
  device_init_allocated : bool;
  WdfDeviceInitAssignName_status : NTSTATUS;
  WdfDeviceInitAssignWdmIrpPreprocessCallback_status : NTSTATUS;
  WdfDeviceCreate_status : NTSTATUS;
  created_device : handle;
  WdfDeviceCreateSymbolicLink_status : NTSTATUS
}.

(** The answers to the calls of [DriverEntry] and of
    [_ebpf_driver_initialize_objects]. *)
Record entry_answers := mk_entry_answers {
  ebpf_trace_initiate_status : NTSTATUS;
  WdfDriverCreate_status : NTSTATUS;
  device_calls : device_answers;
  WdfIoQueueCreate_status : NTSTATUS;
  (** [ebpf_result_to_ntstatus(ebpf_core_initiate())] *)
  ebpf_core_initiate_status : NTSTATUS;
  descriptor_calls : kernel_answers;
  (** [WdfDeviceWdmGetDeviceObject] *)
  WdfDeviceWdmGetDeviceObject : handle -> handle
}.

(** The calls that take or give back something, in call order. *)
Inductive entry_call :=
| TraceInitiate
| TraceTerminate
| DeviceInitAllocate
| DeviceInitFree
| DeviceCreate (device : handle)
| ObjectDelete (device : handle)
| CoreInitiate
| CoreTerminate
| FinishInitializing (device : handle).

(** The driver's globals, whether tracing is on, the device
    initialization structures that the driver holds, the control
    devices that exist, and the calls so far. *)
Record machine := mk_machine {
  globals : driver;
  tracing : bool;
  _ebpf_driver_device_object : option handle;
  device_inits : Z;
  devices : list handle;
  calls : list entry_call
}.

Definition called (new : list entry_call) (m : machine) : machine :=
  mk_machine (globals m) (tracing m) (_ebpf_driver_device_object m)
    (device_inits m) (devices m) (calls m ++ new).

Definition set_globals (g : driver) (m : machine) : machine :=
  mk_machine g (tracing m) (_ebpf_driver_device_object m) (device_inits m)
    (devices m) (calls m).

Definition set_tracing (on : bool) (m : machine) : machine :=
  mk_machine (globals m) on (_ebpf_driver_device_object m) (device_inits m)
    (devices m) (calls m).

(** [WdfControlDeviceInitAllocate] that yields a structure. *)
Definition init_allocated (m : machine) : machine :=
  called [DeviceInitAllocate]
    (mk_machine (globals m) (tracing m) (_ebpf_driver_device_object m)
       (device_inits m + 1) (devices m) (calls m)).

(** [WdfDeviceInitFree] *)
Definition init_freed (m : machine) : machine :=
  called [DeviceInitFree]
    (mk_machine (globals m) (tracing m) (_ebpf_driver_device_object m)
       (device_inits m - 1) (devices m) (calls m)).

(** [WdfDeviceCreate] that succeeds: the framework takes the
    initialization structure, sets the driver's pointer to it to NULL,
    and the device exists. *)
Definition device_created (device : handle) (m : machine) : machine :=
  called [DeviceCreate device]
    (mk_machine (globals m) (tracing m) (_ebpf_driver_device_object m)
       (device_inits m - 1) (device :: devices m) (calls m)).

(** [WdfObjectDelete] of a device. *)
Definition device_deleted (device : handle) (m : machine) : machine :=
  called [ObjectDelete device]
    (mk_machine (globals m) (tracing m) (_ebpf_driver_device_object m)
       (device_inits m)
       (List.filter (fun d => negb (Pos.eqb d device)) (devices m))
       (calls m)).

(** [_ebpf_driver_initialize_device]: the status, the device written
    to the out parameter, and the machine.  The code under [Exit] frees
    the initialization structure when the pointer to it is not NULL. *)
Definition _ebpf_driver_initialize_device (a : device_answers) (m : machine)
    : NTSTATUS * option handle * machine :=
  if negb (device_init_allocated a)
  then (STATUS_INSUFFICIENT_RESOURCES, None, m)
  else
    let m := init_allocated m in
    if negb (NT_SUCCESS (WdfDeviceInitAssignName_status a))
    then (WdfDeviceInitAssignName_status a, None, init_freed m)
    else
      if negb (NT_SUCCESS
                 (WdfDeviceInitAssignWdmIrpPreprocessCallback_status a))
      then (WdfDeviceInitAssignWdmIrpPreprocessCallback_status a, None,
            init_freed m)
      else
        if negb (NT_SUCCESS (WdfDeviceCreate_status a))
        then (WdfDeviceCreate_status a, None, init_freed m)
        else
          let m := device_created (created_device a) m in
          (WdfDeviceCreateSymbolicLink_status a, Some (created_device a), m).

(** The code under [Exit] of [_ebpf_driver_initialize_objects]. *)
Definition initialize_objects_exit (status : NTSTATUS)
    (ebpf_core_initialized device_create_flag : bool)
    (device : option handle) (m : machine) : machine :=
  if negb (NT_SUCCESS status) then
    let m := if ebpf_core_initialized
             then called [CoreTerminate]
                    (set_globals (set_core_running false (globals m)) m)
             else m in
    match device_create_flag, device with
    | true, Some device => device_deleted device m
    | _, _ => m
    end
  else m.

(** [_ebpf_driver_initialize_objects]: the status, the device written
    to the out parameter, and the machine. *)
Definition _ebpf_driver_initialize_objects (a : entry_answers) (m : machine)
    : NTSTATUS * option handle * machine :=
  if negb (NT_SUCCESS (WdfDriverCreate_status a))
  then (WdfDriverCreate_status a, None,
        initialize_objects_exit (WdfDriverCreate_status a) false false None m)
  else
    let '(status, device, m) :=
      _ebpf_driver_initialize_device (device_calls a) m in
    if negb (NT_SUCCESS status)
    then (status, device,
          initialize_objects_exit status false false device m)
    else
      if negb (NT_SUCCESS (WdfIoQueueCreate_status a))
      then (WdfIoQueueCreate_status a, device,
            initialize_objects_exit (WdfIoQueueCreate_status a) false true
              device m)
      else
        if negb (NT_SUCCESS (ebpf_core_initiate_status a))
        then (ebpf_core_initiate_status a, device,
              initialize_objects_exit (ebpf_core_initiate_status a) false
                true device m)
        else
          let m := called [CoreInitiate]
                     (set_globals (set_core_running true (globals m)) m) in
          let '(status, g) :=
            _ebpf_driver_build_privileged_security_descriptor
              (descriptor_calls a) (globals m) in
          let m := set_globals g m in
          if negb (NT_SUCCESS status)
          then (status, device,
                initialize_objects_exit status true true device m)
          else
            let m := match device with
                     | Some device => called [FinishInitializing device] m
                     | None => m
                     end in
            (status, device, initialize_objects_exit status true true device m).

(** [ebpf_trace_terminate] *)
Definition trace_terminated (m : machine) : machine :=
  called [TraceTerminate] (set_tracing false m).

(** [DriverEntry] *)
Definition DriverEntry (a : entry_answers) (m : machine)
    : NTSTATUS * machine :=
  if negb (NT_SUCCESS (ebpf_trace_initiate_status a))
  then (ebpf_trace_initiate_status a, trace_terminated m)
  else
    let m := called [TraceInitiate] (set_tracing true m) in
    let '(status, device, m) := _ebpf_driver_initialize_objects a m in
    if negb (NT_SUCCESS status)
    then (status, trace_terminated m)
    else
      (status,
       mk_machine (globals m) (tracing m)
         (option_map (WdfDeviceWdmGetDeviceObject a) device)
         (device_inits m) (devices m) (calls m)).

(** [ebpf_driver_get_device_object] *)
Definition ebpf_driver_get_device_object (m : machine) : option handle :=
  _ebpf_driver_device_object m.

(** The answers with which the claims' model of the start is asked. *)
Definition startup_of (a : entry_answers) : startup_answers :=
  mk_startup (WdfDriverCreate_status a)
    (fst (fst (_ebpf_driver_initialize_device (device_calls a)
                 (mk_machine unloaded false None 0 [] []))))
    (WdfIoQueueCreate_status a) (ebpf_core_initiate_status a)
    (descriptor_calls a).

(** Every step of the descriptor build answers as the build needs. *)
Definition build_answers_well (k : kernel_answers) : bool :=
  sid_allocated k
  && NT_SUCCESS (RtlInitializeSid_status k)
  && NT_SUCCESS (RtlCreateSecurityDescriptor_status k)
  && dacl_allocated k
  && NT_SUCCESS (RtlCreateAcl_status k)
  && NT_SUCCESS (RtlAddAccessAllowedAce_status k)
  && NT_SUCCESS (RtlSetDaclSecurityDescriptor_status k)
  && (size_query_status k =? STATUS_BUFFER_TOO_SMALL)
  && descriptor_allocated k
  && NT_SUCCESS (RtlAbsoluteToSelfRelativeSD_status k).

(** The device exists and its symbolic link could not be made. *)
Definition link_failed (a : device_answers) : bool :=
  device_init_allocated a
  && NT_SUCCESS (WdfDeviceInitAssignName_status a)
  && NT_SUCCESS (WdfDeviceInitAssignWdmIrpPreprocessCallback_status a)
  && NT_SUCCESS (WdfDeviceCreate_status a)
  && negb (NT_SUCCESS (WdfDeviceCreateSymbolicLink_status a)).

(** The device stays behind: the driver object and the device exist and
    the symbolic link could not be made. *)
Definition device_left_behind (a : entry_answers) : bool :=
  NT_SUCCESS (WdfDriverCreate_status a) && link_failed (device_calls a).

Definition count_calls (c : entry_call) (m : machine) : nat :=
  length (List.filter
            (fun c' => match c, c' with
                       | TraceInitiate, TraceInitiate
                       | TraceTerminate, TraceTerminate
                       | DeviceInitAllocate, DeviceInitAllocate
                       | DeviceInitFree, DeviceInitFree
                       | CoreInitiate, CoreInitiate
                       | CoreTerminate, CoreTerminate => true
                       | DeviceCreate d, DeviceCreate d'
                       | ObjectDelete d, ObjectDelete d'
                       | FinishInitializing d, FinishInitializing d' =>
                           Pos.eqb d d'
                       | _, _ => false
                       end) (calls m)).

(** A machine on which the driver is not loaded. *)
Definition cold : machine := mk_machine unloaded false None 0 [] [].

End Entry.

(** ** ebpf_drv.c: the volume information query *)

Module Volume.

(** [FileFsDeviceInformation] of [FS_INFORMATION_CLASS]. *)
Definition FileFsDeviceInformation : Z := 4.
Definition FILE_DEVICE_NULL : Z := 0x15.
Definition STATUS_NOT_SUPPORTED : NTSTATUS := of_code 0xC00000BB.

Record FILE_FS_DEVICE_INFORMATION := mk_device_information {
  DeviceType : Z;
  Characteristics : Z
}.

(** [sizeof(FILE_FS_DEVICE_INFORMATION)]: two 32-bit fields. *)
Definition sizeof_FILE_FS_DEVICE_INFORMATION : Z := 8.

(** The IRP as far as the query goes: the information class and the
    output buffer length of the stack location, the system buffer, the
    status block, and how often the IRP was completed. *)
Record IRP := mk_irp {
  FsInformationClass : Z;
  OutputBufferLength : Z;
  SystemBuffer : FILE_FS_DEVICE_INFORMATION;
  IoStatus_Status : NTSTATUS;
  completed : nat
}.

(** [_ebpf_driver_query_volume_information] *)
Definition _ebpf_driver_query_volume_information (irp : IRP)
    : NTSTATUS * IRP :=
  let '(status, buffer) :=
    if FsInformationClass irp =? FileFsDeviceInformation then
      if OutputBufferLength irp <? sizeof_FILE_FS_DEVICE_INFORMATION
      then (STATUS_BUFFER_TOO_SMALL, SystemBuffer irp)
      else (STATUS_SUCCESS, mk_device_information FILE_DEVICE_NULL 0)
    else (STATUS_NOT_SUPPORTED, SystemBuffer irp) in
  (status,
   mk_irp (FsInformationClass irp) (OutputBufferLength irp) buffer status
     (S (completed irp))).

End Volume.

(** ** net_ebpf_ext.h: byte order *)

Module ByteOrder.

(** The byte of [x] at [index], the lowest byte first. *)
Definition byte_at (index : Z) (x : Z) : Z := (x / 2 ^ (8 * index)) mod 256.

(** [_byteswap_ulong]: the four bytes of a 32-bit value in the opposite
    order. *)
Definition _byteswap_ulong (x : Z) : Z :=
  byte_at 0 x * 2 ^ 24 + byte_at 1 x * 2 ^ 16 + byte_at 2 x * 2 ^ 8
  + byte_at 3 x.

(** [_byteswap_ushort]: the two bytes of a 16-bit value in the opposite
    order. *)
Definition _byteswap_ushort (x : Z) : Z := byte_at 0 x * 2 ^ 8 + byte_at 1 x.

Definition htonl (x : Z) : Z := _byteswap_ulong x.
Definition htons (x : Z) : Z := _byteswap_ushort x.
Definition ntohl (x : Z) : Z := _byteswap_ulong x.
Definition ntohs (x : Z) : Z := _byteswap_ushort x.

End ByteOrder.

(** ** tests/libs/common/common_tests.cpp: the ring buffer event handler *)

Module RingTest.

(** [ring_buffer_test_event_context_t], with the number of times that
    the promise was given its value. *)
Record ring_buffer_test_event_context_t := mk_event_context {
  cancelled : bool;
  matched_entry_count : Z;
  records : list (list Z);
  promise_values : nat
}.

Section Handler.

(** [RING_BUFFER_TEST_EVENT_COUNT] *)
Variable RING_BUFFER_TEST_EVENT_COUNT : Z.

(** [std::find(records->begin(), records->end(), event_record)
     != records->end()] *)
Definition found (event_record : list Z) (expected : list (list Z)) : bool :=
  existsb (fun r => bool_decide (r = event_record)) expected.

(** [ring_buffer_test_event_handler]: the value returned and the
    context; [data] holds [size] bytes. *)
Definition ring_buffer_test_event_handler
    (ctx : ring_buffer_test_event_context_t) (data : list Z)
    : Z * ring_buffer_test_event_context_t :=
  if cancelled ctx
     || (matched_entry_count ctx =? RING_BUFFER_TEST_EVENT_COUNT)
  then (0, ctx)
  else
    let matched :=
      if found data (records ctx)
      then matched_entry_count ctx + 1
      else matched_entry_count ctx in
    let fulfilled :=
      if matched =? RING_BUFFER_TEST_EVENT_COUNT
      then S (promise_values ctx)
      else promise_values ctx in
    (0, mk_event_context (cancelled ctx) matched (records ctx) fulfilled).

(** The handler called for one event after the other. *)
Definition deliver (events : list (list Z))
    (ctx : ring_buffer_test_event_context_t)
    : ring_buffer_test_event_context_t :=
  fold_left (fun ctx data => snd (ring_buffer_test_event_handler ctx data))
    events ctx.

End Handler.

(** How many of the events are expected records. *)
Definition matching (events : list (list Z)) (expected : list (list Z)) : Z :=
  Z.of_nat (length (List.filter (fun data => found data expected) events)).

End RingTest.

(** ** Concrete inputs for the start of the driver and the macros *)

Module Runs.

Import Security Entry.

Definition device_comes_up : device_answers :=
  mk_device_answers true STATUS_SUCCESS STATUS_SUCCESS STATUS_SUCCESS
    7%positive STATUS_SUCCESS.

(** Every call of the start succeeds. *)
Definition all_well : entry_answers :=
  mk_entry_answers STATUS_SUCCESS STATUS_SUCCESS device_comes_up
    STATUS_SUCCESS STATUS_SUCCESS every_call_succeeds Pos.succ.

(** The device comes up and the default queue cannot be created. *)
Definition no_queue : entry_answers :=
  mk_entry_answers STATUS_SUCCESS STATUS_SUCCESS device_comes_up
    STATUS_INSUFFICIENT_RESOURCES STATUS_SUCCESS every_call_succeeds
    Pos.succ.

(** The channel of [Sample.channel] for a command of the async
    operation 3 with a reply buffer of 16 bytes, with a handler that
    answers every command at once with success. *)
Definition answers_at_once : @Drv.environment Sample.result Z (list Z) nat :=
  Drv.mk_environment Sample.to_ntstatus 8 (fun bytes => nth 4 bytes 0)
    (Sample.retrieve (Sample.header 3)) (Sample.retrieve (repeat 0 16))
    Sample.properties_of true
    (fun _ _ _ _ _ _ seen => (Sample.SUCCESS, S seen)).

(** A command for operation 1 in a buffer of 65540 bytes. *)
Definition long_command : list Z :=
  Sample.header 1 ++ repeat 0 (Z.to_nat 65532).

(** Two expected records, and four events of which three are
    expected. *)
Definition expected_records : list (list Z) := [[1]; [2]].
Definition arriving : list (list Z) := [[1]; [3]; [2]; [1]].
Definition fresh_context : RingTest.ring_buffer_test_event_context_t :=
  RingTest.mk_event_context false 0 expected_records 0.

(** A filter context with one attached holder, three WFP filters and
    no deletion requested, in a system that holds nothing else. *)
Definition three_rules : NetExt.net_ebpf_extension_wfp_filter_context_t :=
  NetExt.mk_filter_context 1
    NetExt.NET_EBPF_EXT_MAX_CLIENTS_PER_HOOK_SINGLE_ATTACH
    (Some [Some Hook.client_address]) 1 Hook.provider_address
    (Some [NetExt.mk_filter_id 7 NetExt.NET_EBPF_EXT_WFP_FILTER_ADDED 0;
           NetExt.mk_filter_id 8 NetExt.NET_EBPF_EXT_WFP_FILTER_ADDED 0;
           NetExt.mk_filter_id 9 NetExt.NET_EBPF_EXT_WFP_FILTER_ADDED 0])
    3 false false true (Some Hook.engine_handle).

Definition attached : NetExt.system :=
  NetExt.mk_system {[Hook.context_address := three_rules]}
    (NetExt.mk_cleanup_state [] [] false false)
    {[Hook.provider_address := 1]} [].

(** The deletion callbacks fire in the order 2, 3, 1, the second with
    a failure; the holder detaches before the last of them. *)
Definition callbacks_and_detach : list NetExt.teardown_event :=
  [NetExt.RuleDeleted 1 STATUS_SUCCESS;
   NetExt.RuleDeleted 2 STATUS_ACCESS_DENIED; NetExt.Detach;
   NetExt.RuleDeleted 0 STATUS_SUCCESS].

(** The filter context of [Hook.teardown] after one more reference was
    taken and both references were given back. *)
Definition released : NetExt.system :=
  NetExt.mk_system
    (delete Hook.context_address (NetExt.pool Hook.teardown))
    (NetExt.net_ebpf_ext_remove_filter_context_from_cleanup_list
       Hook.context_address (NetExt.cleanup Hook.teardown))
    (NetExt.net_ebpf_extension_hook_provider_leave_rundown
       Hook.provider_address (NetExt.rundown Hook.teardown))
    (NetExt.LeaveRundown Hook.provider_address
     :: NetExt.finalization Hook.context_address Hook.deleting_context).

End Runs.

(** * Theorems *)

Import Drv.

(** Run the calls of the request monad. *)
Ltac run :=
  cbv [bind ret record update_request ebpf_assert WdfObjectReference
       WdfObjectDereference WdfRequestMarkCancelable
       WdfRequestUnmarkCancelable WdfRequestCompleteWithInformation
       invoke_protocol_handler];
  cbn [request core trace reference_count cancelable completions].

(** ** The dispatcher, path by path *)

Section DispatchPaths.

Context {ebpf_result_t operation_id buffer core_state : Type}.
Variable env : @environment ebpf_result_t operation_id buffer core_state.
Implicit Type w : @world operation_id core_state.

Lemma dispatch_from_body out_len in_len code w status acquired w1 :
  io_device_control_body env out_len in_len code w
    = Returned (status, acquired) w1 ->
  _ebpf_driver_io_device_control env out_len in_len code w
    = io_device_control_done out_len status acquired w1.
Proof.
  intros Hbody. unfold _ebpf_driver_io_device_control, bind.
  now rewrite Hbody.
Qed.

Lemma dispatch_body_failed out_len in_len code w w1 :
  io_device_control_body env out_len in_len code w = AssertionFailed w1 ->
  _ebpf_driver_io_device_control env out_len in_len code w
    = AssertionFailed w1.
Proof.
  intros Hbody. unfold _ebpf_driver_io_device_control, bind.
  now rewrite Hbody.
Qed.

Lemma done_pending out_len acquired w :
  io_device_control_done out_len STATUS_PENDING acquired w = Returned tt w.
Proof. reflexivity. Qed.

Lemma done_not_acquired out_len status w :
  status <> STATUS_PENDING ->
  io_device_control_done out_len status false w
    = Returned tt (completed status out_len w).
Proof.
  intros Hs. unfold io_device_control_done.
  destruct (Z.eqb_spec status STATUS_PENDING); [contradiction|].
  reflexivity.
Qed.

Lemma done_acquired out_len status w :
  status <> STATUS_PENDING -> status <> STATUS_SUCCESS ->
  io_device_control_done out_len status true w
    = Returned tt (released_and_completed status out_len w).
Proof.
  intros Hp Hs. unfold io_device_control_done.
  destruct (Z.eqb_spec status STATUS_PENDING); [contradiction|].
  cbn [negb]. unfold bind at 1 2, ebpf_assert.
  destruct (Z.eqb_spec status STATUS_SUCCESS); [contradiction|].
  cbn. unfold released_and_completed. now rewrite <- !app_assoc.
Qed.

Lemma done_acquired_success out_len w :
  io_device_control_done out_len STATUS_SUCCESS true w = AssertionFailed w.
Proof. reflexivity. Qed.

Lemma body_unknown_code out_len in_len code w :
  code <> IOCTL_EBPF_CTL_METHOD_BUFFERED ->
  io_device_control_body env out_len in_len code w
    = Returned (STATUS_INVALID_DEVICE_REQUEST, false) w.
Proof.
  intros Hcode. unfold io_device_control_body.
  now destruct (Z.eqb_spec code IOCTL_EBPF_CTL_METHOD_BUFFERED).
Qed.

Lemma body_zero_length out_len w :
  io_device_control_body env out_len 0 IOCTL_EBPF_CTL_METHOD_BUFFERED w
    = Returned (STATUS_INVALID_PARAMETER, false) w.
Proof. reflexivity. Qed.

Lemma body_short_input out_len in_len status input_buffer alen w :
  in_len <> 0 ->
  WdfRequestRetrieveInputBuffer env in_len = (status, input_buffer, alen) ->
  NT_SUCCESS status = true ->
  alen < sizeof_ebpf_operation_header env ->
  io_device_control_body env out_len in_len IOCTL_EBPF_CTL_METHOD_BUFFERED w
    = Returned (STATUS_INVALID_PARAMETER, false)
        (add_trace [RetrieveInputBuffer in_len] w).
Proof.
  intros Hlen Hin Hok Hshort. unfold io_device_control_body.
  rewrite Z.eqb_refl.
  destruct (Z.eqb_spec in_len 0) as [|_]; [contradiction|].
  cbn [negb]. unfold bind at 1. cbn [record].
  rewrite Hin, Hok. cbn [negb].
  destruct input_buffer as [user_request|]; [|reflexivity].
  destruct (Z.ltb_spec alen (sizeof_ebpf_operation_header env)); [|lia].
  reflexivity.
Qed.

Lemma body_with_descriptor out_len in_len user_request alen properties w :
  has_descriptor env in_len user_request alen properties ->
  io_device_control_body env out_len in_len IOCTL_EBPF_CTL_METHOD_BUFFERED w
    = handle_operation env out_len user_request alen properties
        (add_trace [RetrieveInputBuffer in_len;
                    GetHandlerProperties (header_id env user_request)] w).
Proof.
  intros (Hlen & status & result & Hin & Hok & Hsize & Hprop & Hres).
  unfold io_device_control_body.
  rewrite Z.eqb_refl.
  destruct (Z.eqb_spec in_len 0) as [|_]; [contradiction|].
  cbn [negb]. unfold bind at 1. cbn [record].
  rewrite Hin, Hok. cbn [negb].
  destruct (Z.ltb_spec alen (sizeof_ebpf_operation_header env)); [lia|].
  unfold bind at 1. cbn [record]. rewrite Hprop, Hres.
  cbn [Z.eqb STATUS_SUCCESS negb request core trace].
  unfold add_trace. rewrite <- app_assoc. reflexivity.
Qed.

Lemma handle_denied out_len user_request alen properties w :
  privileged properties = true ->
  is_caller_privileged env = false ->
  handle_operation env out_len user_request alen properties w
    = Returned (STATUS_ACCESS_DENIED, false)
        (add_trace [IsCallerPrivileged] w).
Proof.
  intros Hpriv Hno. unfold handle_operation.
  rewrite Hpriv, Hno. reflexivity.
Qed.

Lemma handle_granted out_len user_request alen properties w :
  privilege_granted env properties ->
  handle_operation env out_len user_request alen properties w
    = bind (retrieve_reply env out_len properties)
        (fun reply =>
           match reply with
           | inl status => ret (status, false)
           | inr (user_reply, actual_output_length) =>
               invoke_operation env user_request alen properties
                 user_reply actual_output_length
           end)
        (add_trace (privilege_calls properties) w).
Proof.
  intros Hgranted. unfold handle_operation, privilege_calls.
  destruct (privileged properties) eqn:Hpriv.
  - destruct Hgranted as [?|Hyes]; [congruence|].
    rewrite Hyes. reflexivity.
  - unfold bind at 1, ret at 1, add_trace. rewrite app_nil_r.
    now destruct w.
Qed.

Lemma reply_stage_too_small out_len properties w :
  0 < minimum_reply_size properties ->
  reply_too_small env out_len properties ->
  retrieve_reply env out_len properties w
    = Returned (inl STATUS_BUFFER_TOO_SMALL)
        (add_trace [RetrieveOutputBuffer out_len] w).
Proof.
  intros Hmin (status & reply & olen & Hout & Hok & Hsmall).
  unfold retrieve_reply.
  destruct (Z.ltb_spec 0 (minimum_reply_size properties)); [|lia].
  unfold bind at 1. cbn [record]. rewrite Hout, Hok. cbn [negb].
  destruct (Z.ltb_spec olen (minimum_reply_size properties)); [|lia].
  reflexivity.
Qed.

Lemma reply_stage_accepted out_len properties user_reply olen w :
  reply_accepted env out_len properties user_reply olen ->
  retrieve_reply env out_len properties w
    = Returned (inr (user_reply, olen))
        (add_trace (reply_calls out_len properties) w).
Proof.
  unfold reply_accepted, retrieve_reply, reply_calls.
  intros [(Hmin & Hnone & Hzero)
         |(Hmin & status & reply & Hout & Hok & Hsize & Hsome)];
    subst user_reply.
  - subst olen.
    destruct (Z.ltb_spec 0 (minimum_reply_size properties)); [lia|].
    unfold ret, add_trace. rewrite app_nil_r. now destruct w.
  - destruct (Z.ltb_spec 0 (minimum_reply_size properties)); [|lia].
    unfold bind at 1. cbn [record]. rewrite Hout, Hok. cbn [negb].
    destruct (Z.ltb_spec olen (minimum_reply_size properties)); [lia|].
    reflexivity.
Qed.

Lemma invoke_stage user_request alen properties user_reply olen result
    core' w :
  ebpf_core_invoke_protocol_handler env (header_id env user_request)
    user_request (to_uint16 alen) user_reply (to_uint16 olen)
    (async properties) (core w) = (result, core') ->
  invoke_operation env user_request alen properties user_reply olen w
    = Returned (ebpf_result_to_ntstatus env result, async properties)
        (mk_world (request_at_invoke properties (request w)) core'
           (trace w
            ++ invoke_calls env user_request alen properties user_reply olen)).
Proof.
  intros Hcall.
  unfold invoke_operation, invoke_calls, request_at_invoke.
  destruct (async properties); run; rewrite Hcall.
  - now rewrite <- !app_assoc.
  - now rewrite app_nil_l.
Qed.

Lemma invocations_app (t1 t2 : list (call operation_id)) :
  handler_invocations (t1 ++ t2)
    = (handler_invocations t1 + handler_invocations t2)%nat.
Proof.
  unfold handler_invocations. now rewrite List.filter_app, length_app.
Qed.

Lemma retrievals_app (t1 t2 : list (call operation_id)) :
  output_retrievals (t1 ++ t2)
    = (output_retrievals t1 + output_retrievals t2)%nat.
Proof.
  unfold output_retrievals. now rewrite List.filter_app, length_app.
Qed.

Lemma privilege_calls_quiet properties :
  handler_invocations (privilege_calls (operation_id:=operation_id) properties)
    = 0%nat /\
  output_retrievals (privilege_calls (operation_id:=operation_id) properties)
    = 0%nat.
Proof. unfold privilege_calls. now destruct (privileged properties). Qed.

Lemma invoke_calls_count user_request alen properties user_reply olen :
  handler_invocations
    (invoke_calls env user_request alen properties user_reply olen) = 1%nat /\
  output_retrievals
    (invoke_calls env user_request alen properties user_reply olen) = 0%nat.
Proof. unfold invoke_calls. now destruct (async properties). Qed.

Lemma invocations_completed status information w :
  handler_invocations (trace (completed status information w))
    = handler_invocations (trace w).
Proof.
  unfold completed. cbn [trace]. rewrite invocations_app.
  cbn. lia.
Qed.

Lemma invocations_add_trace calls w :
  handler_invocations (trace (add_trace calls w))
    = (handler_invocations (trace w) + handler_invocations calls)%nat.
Proof. unfold add_trace. cbn [trace]. apply invocations_app. Qed.

End DispatchPaths.

(** ** The dispatcher's validation order *)

Section DispatchClaims.

Context {ebpf_result_t operation_id buffer core_state : Type}.
Variable env : @environment ebpf_result_t operation_id buffer core_state.
Implicit Type w : @world operation_id core_state.

(** C5. A command whose input is empty, or whose input buffer is
    shorter than the operation header, is completed with
    STATUS_INVALID_PARAMETER; the protocol handler is not invoked and
    the execution context is left as it was. *)
Theorem short_input_is_invalid_parameter out_len in_len w :
  input_too_short env in_len ->
  exists w',
    _ebpf_driver_io_device_control env out_len in_len
      IOCTL_EBPF_CTL_METHOD_BUFFERED w = Returned tt w' /\
    request w' = request (completed STATUS_INVALID_PARAMETER out_len w) /\
    core w' = core w /\
    handler_invocations (trace w') = handler_invocations (trace w).
Proof.
  intros Hshort.
  destruct (Z.eq_dec in_len 0) as [->|Hlen].
  - eexists. split.
    + rewrite (dispatch_from_body env _ _ _ _ _ _ _
                 (body_zero_length env out_len w)).
      now apply done_not_acquired.
    + rewrite invocations_completed. now repeat split.
  - destruct Hshort as [?|(status & input_buffer & alen & Hin & Hok & Hlt)];
      [contradiction|].
    eexists. split.
    + rewrite (dispatch_from_body env _ _ _ _ _ _ _
                 (body_short_input env out_len _ _ _ _ w Hlen Hin Hok Hlt)).
      now apply done_not_acquired.
    + rewrite invocations_completed, invocations_add_trace.
      repeat split. cbn. lia.
Qed.

(** C4. A command whose descriptor has the privilege flag, sent by a
    caller that fails the capability check, is completed with
    STATUS_ACCESS_DENIED.  The calls made are the input retrieval, the
    descriptor lookup, the capability check and the completion: the
    handler is not invoked, no output buffer is retrieved, no reference
    or cancel routine is taken, and the execution context is left as it
    was. *)
Theorem unprivileged_caller_is_denied out_len in_len user_request alen
    properties w :
  has_descriptor env in_len user_request alen properties ->
  privileged properties = true ->
  is_caller_privileged env = false ->
  _ebpf_driver_io_device_control env out_len in_len
    IOCTL_EBPF_CTL_METHOD_BUFFERED w
  = Returned tt
      (mk_world
         (mk_request (reference_count (request w)) (cancelable (request w))
            (completions (request w) ++ [(STATUS_ACCESS_DENIED, out_len)]))
         (core w)
         (trace w ++ [RetrieveInputBuffer in_len;
                      GetHandlerProperties (header_id env user_request);
                      IsCallerPrivileged;
                      CompleteWithInformation STATUS_ACCESS_DENIED out_len])).
Proof.
  intros Hdesc Hpriv Hno.
  rewrite (dispatch_from_body env out_len in_len _ w STATUS_ACCESS_DENIED
             false
             (add_trace [IsCallerPrivileged]
                (add_trace [RetrieveInputBuffer in_len;
                            GetHandlerProperties (header_id env user_request)]
                   w))).
  - rewrite done_not_acquired by discriminate.
    unfold completed, add_trace. cbn [request core trace].
    now rewrite <- !app_assoc.
  - rewrite (body_with_descriptor env _ _ _ _ _ _ Hdesc).
    now apply handle_denied.
Qed.

(** C6. For a command that passed the privilege stage: when its
    descriptor declares a minimum reply size above zero and the output
    buffer is smaller, the command is completed with
    STATUS_BUFFER_TOO_SMALL and the handler is not invoked; when the
    minimum reply size is zero the output buffer is not retrieved at
    all and the handler is invoked. *)
Theorem reply_capacity_checked_when_reply_expected out_len in_len
    user_request alen properties w :
  has_descriptor env in_len user_request alen properties ->
  privilege_granted env properties ->
  (0 < minimum_reply_size properties ->
   reply_too_small env out_len properties ->
   exists w',
     _ebpf_driver_io_device_control env out_len in_len
       IOCTL_EBPF_CTL_METHOD_BUFFERED w = Returned tt w' /\
     request w' = request (completed STATUS_BUFFER_TOO_SMALL out_len w) /\
     core w' = core w /\
     handler_invocations (trace w') = handler_invocations (trace w)) /\
  (minimum_reply_size properties = 0 ->
   let w' := outcome_world
               (_ebpf_driver_io_device_control env out_len in_len
                  IOCTL_EBPF_CTL_METHOD_BUFFERED w) in
   output_retrievals (trace w') = output_retrievals (trace w) /\
   handler_invocations (trace w') = S (handler_invocations (trace w))).
Proof.
  intros Hdesc Hgranted. split.
  - intros Hmin Hsmall.
    pose proof (body_with_descriptor env out_len _ _ _ _ w Hdesc) as Hbody.
    rewrite (handle_granted env _ _ _ _ _ Hgranted) in Hbody.
    unfold bind at 1 in Hbody.
    rewrite (reply_stage_too_small env _ _ _ Hmin Hsmall) in Hbody.
    cbn [ret] in Hbody.
    eexists. split.
    + rewrite (dispatch_from_body env _ _ _ _ _ _ _ Hbody).
      apply done_not_acquired. discriminate.
    + rewrite invocations_completed, !invocations_add_trace.
      destruct (privilege_calls_quiet (operation_id:=operation_id)
                  properties) as [-> _].
      repeat split. cbn. lia.
  - intros Hzero w'. subst w'.
    assert (Hreply : reply_accepted env out_len properties None 0)
      by (left; repeat split; lia).
    destruct (ebpf_core_invoke_protocol_handler env
                (header_id env user_request) user_request (to_uint16 alen)
                None (to_uint16 0) (async properties) (core w))
      as [result core'] eqn:Hcall.
    assert (Hbody :
      io_device_control_body env out_len in_len
        IOCTL_EBPF_CTL_METHOD_BUFFERED w
      = Returned (ebpf_result_to_ntstatus env result, async properties)
          (mk_world (request_at_invoke properties (request w)) core'
             (trace w
              ++ [RetrieveInputBuffer in_len;
                  GetHandlerProperties (header_id env user_request)]
              ++ privilege_calls properties
              ++ invoke_calls env user_request alen properties None 0))).
    { rewrite (body_with_descriptor env _ _ _ _ _ _ Hdesc).
      rewrite (handle_granted env _ _ _ _ _ Hgranted).
      unfold bind at 1.
      rewrite (reply_stage_accepted env _ _ _ _ _ Hreply).
      erewrite invoke_stage by (cbn [core add_trace]; exact Hcall).
      unfold add_trace, reply_calls. cbn [request core trace].
      destruct (Z.ltb_spec 0 (minimum_reply_size properties)); [lia|].
      now rewrite app_nil_r, <- !app_assoc. }
    rewrite (dispatch_from_body env _ _ _ _ _ _ _ Hbody).
    assert (Hcount : forall extra,
      output_retrievals extra = 0%nat ->
      handler_invocations extra = 0%nat ->
      output_retrievals
        (trace w
         ++ [RetrieveInputBuffer in_len;
             GetHandlerProperties (header_id env user_request)]
         ++ privilege_calls properties
         ++ invoke_calls env user_request alen properties None 0 ++ extra)
        = output_retrievals (trace w) /\
      handler_invocations
        (trace w
         ++ [RetrieveInputBuffer in_len;
             GetHandlerProperties (header_id env user_request)]
         ++ privilege_calls properties
         ++ invoke_calls env user_request alen properties None 0 ++ extra)
        = S (handler_invocations (trace w))).
    { intros extra Hr Hi.
      rewrite !retrievals_app, !invocations_app, Hr, Hi.
      destruct (privilege_calls_quiet (operation_id:=operation_id) properties)
        as [-> ->].
      destruct (invoke_calls_count env user_request alen properties None 0)
        as [-> ->].
      cbn. split; lia. }
    unfold io_device_control_done.
    destruct (Z.eqb_spec (ebpf_result_to_ntstatus env result) STATUS_PENDING)
      as [Hp|Hp]; cbn [negb].
    + cbn [ret outcome_world trace].
      rewrite <- (app_nil_r (invoke_calls _ _ _ _ _ _)).
      now apply Hcount.
    + destruct (async properties).
      * unfold bind at 1 2. unfold ebpf_assert.
        destruct (negb _).
        -- run. cbn [outcome_world trace].
           rewrite <- !app_assoc. cbn [app].
           now apply Hcount.
        -- cbn [outcome_world trace].
           rewrite <- (app_nil_r (invoke_calls _ _ _ _ _ _)).
           now apply Hcount.
      * run. cbn [outcome_world trace].
        rewrite <- !app_assoc. cbn [app].
        now apply Hcount.
Qed.

Lemma done_without_assert_acquired out_len status w :
  status <> STATUS_PENDING ->
  io_device_control_done_without_assert out_len status true w
    = Returned tt (released_and_completed status out_len w).
Proof.
  intros Hp. unfold io_device_control_done_without_assert.
  destruct (Z.eqb_spec status STATUS_PENDING); [contradiction|].
  cbn. unfold released_and_completed. now rewrite <- !app_assoc.
Qed.

(** Whenever the dispatcher with the assertion returns, the dispatcher
    without it returns the same: what is shown about the returns of
    the one holds for the other. *)
Lemma dispatch_without_assert_agrees out_len in_len code w w' :
  _ebpf_driver_io_device_control env out_len in_len code w = Returned tt w' ->
  _ebpf_driver_io_device_control_without_assert env out_len in_len code w
    = Returned tt w'.
Proof.
  unfold _ebpf_driver_io_device_control,
    _ebpf_driver_io_device_control_without_assert, bind.
  destruct (io_device_control_body env out_len in_len code w)
    as [[status acquired] w1|w1]; [|discriminate].
  cbn [fst snd].
  unfold io_device_control_done, io_device_control_done_without_assert.
  destruct (negb (status =? STATUS_PENDING)); [|trivial].
  destruct acquired; [|trivial].
  unfold bind at 1 2 3, ebpf_assert.
  destruct (negb (status =? STATUS_SUCCESS)); [trivial|discriminate].
Qed.


End DispatchClaims.

Lemma short_input_is_invalid_parameter_witness :
  exists w',
    _ebpf_driver_io_device_control (Sample.channel [8; 0; 0; 0] [] true)
      0 4 IOCTL_EBPF_CTL_METHOD_BUFFERED Sample.idle = Returned tt w' /\
    request w' = request (completed STATUS_INVALID_PARAMETER 0 Sample.idle) /\
    core w' = core Sample.idle /\
    handler_invocations (trace w') = handler_invocations (trace Sample.idle).
Proof.
  apply short_input_is_invalid_parameter.
  right. exists STATUS_SUCCESS, (Some [8; 0; 0; 0]), 4.
  repeat split; vm_compute; reflexivity.
Defined.

(** Scenario A: a command without input. *)
Example zero_length_input_is_invalid_parameter :
  _ebpf_driver_io_device_control (Sample.channel [] [] true)
    0 0 IOCTL_EBPF_CTL_METHOD_BUFFERED Sample.idle
  = Returned tt (completed STATUS_INVALID_PARAMETER 0 Sample.idle).
Proof. reflexivity. Qed.

Lemma unprivileged_caller_is_denied_witness :
  _ebpf_driver_io_device_control
    (Sample.channel (Sample.header 2) (repeat 0 16) false)
    16 8 IOCTL_EBPF_CTL_METHOD_BUFFERED Sample.idle
  = Returned tt
      (mk_world (mk_request 0 false [(STATUS_ACCESS_DENIED, 16)]) 0%nat
         [RetrieveInputBuffer 8; GetHandlerProperties 2; IsCallerPrivileged;
          CompleteWithInformation STATUS_ACCESS_DENIED 16]).
Proof.
  apply (unprivileged_caller_is_denied
           (Sample.channel (Sample.header 2) (repeat 0 16) false)
           16 8 (Sample.header 2) 8 (mk_properties 8 16 false true)
           Sample.idle).
  - split; [discriminate|].
    exists STATUS_SUCCESS, Sample.SUCCESS. repeat split; vm_compute; congruence.
  - reflexivity.
  - reflexivity.
Defined.

Lemma reply_capacity_checked_when_reply_expected_witness :
  (exists w',
     _ebpf_driver_io_device_control
       (Sample.channel (Sample.header 2) (repeat 0 4) true)
       4 8 IOCTL_EBPF_CTL_METHOD_BUFFERED Sample.idle = Returned tt w' /\
     request w' = request (completed STATUS_BUFFER_TOO_SMALL 4 Sample.idle) /\
     core w' = core Sample.idle /\
     handler_invocations (trace w')
       = handler_invocations (trace Sample.idle)) /\
  output_retrievals
    (trace
       (outcome_world
          (_ebpf_driver_io_device_control
             (Sample.channel (Sample.header 1) [] true)
             0 8 IOCTL_EBPF_CTL_METHOD_BUFFERED Sample.idle)))
    = output_retrievals (trace Sample.idle) /\
  handler_invocations
    (trace
       (outcome_world
          (_ebpf_driver_io_device_control
             (Sample.channel (Sample.header 1) [] true)
             0 8 IOCTL_EBPF_CTL_METHOD_BUFFERED Sample.idle)))
    = S (handler_invocations (trace Sample.idle)).
Proof.
  split.
  - apply (reply_capacity_checked_when_reply_expected
             (Sample.channel (Sample.header 2) (repeat 0 4) true)
             4 8 (Sample.header 2) 8 (mk_properties 8 16 false true)
             Sample.idle).
    + split; [discriminate|].
      exists STATUS_SUCCESS, Sample.SUCCESS.
      repeat split; vm_compute; congruence.
    + right. reflexivity.
    + reflexivity.
    + exists STATUS_SUCCESS, (repeat 0 4), 4.
      repeat split; vm_compute; reflexivity.
  - apply (reply_capacity_checked_when_reply_expected
             (Sample.channel (Sample.header 1) [] true)
             0 8 (Sample.header 1) 8 (mk_properties 8 0 false false)
             Sample.idle).
    + split; [discriminate|].
      exists STATUS_SUCCESS, Sample.SUCCESS.
      repeat split; vm_compute; congruence.
    + left. reflexivity.
    + reflexivity.
Defined.


(** ** Completion against cancellation *)

Import Bridge.

Section BridgeTheorems.

Context {ebpf_result_t operation_id buffer core_state : Type}.
Variable env : @environment ebpf_result_t operation_id buffer core_state.
Implicit Type w : @world operation_id core_state.
Implicit Type c : @command operation_id core_state.

(** Up to the label [Done] the dispatcher completes nothing, and it
    registers a cancel routine only together with the reference. *)
Lemma body_keeps_request out_len in_len code w :
  match io_device_control_body env out_len in_len code w with
  | Returned (status, acquired) w1 =>
      completions (request w1) = completions (request w) /\
      (acquired = false -> cancelable (request w1) = cancelable (request w))
  | AssertionFailed _ => False
  end.
Proof.
  unfold io_device_control_body, handle_operation, retrieve_reply,
    invoke_operation.
  run.
  repeat (case_match; run; simplify_eq; try (split; [reflexivity|]));
    try congruence; try tauto.
Qed.

Lemma complete_callback out_len result w :
  _ebpf_driver_io_device_control_complete env out_len result w
    = Returned tt
        (mk_world
           (mk_request (reference_count (request w) - 1) false
              (completions (request w)
               ++ [(ebpf_result_to_ntstatus env result, out_len)]))
           (core w)
           (trace w ++ [UnmarkCancelable;
                        CompleteWithInformation
                          (ebpf_result_to_ntstatus env result) out_len;
                        ObjectDereference])).
Proof.
  unfold _ebpf_driver_io_device_control_complete. run.
  now rewrite <- !app_assoc.
Qed.

Lemma settled_step c e : settled c -> settled (step env c e).
Proof.
  unfold settled, completion_count. intros Hc. destruct e as [|by_path len r].
  - cbn [step]. unfold cancel_requested.
    destruct (cancelable (request (world_of c))) eqn:Hcancel;
      [|rewrite Hcancel; exact Hc].
    destruct (state c) eqn:Hstate; cbn; try exact Hc.
    destruct Hc as [_ Hc]. congruence.
  - cbn [step]. unfold reach_completion.
    destruct (state c) eqn:Hstate; cbn [state world_of].
    + rewrite complete_callback. cbn. rewrite length_app, Hc. now split.
    + rewrite complete_callback. cbn. rewrite length_app, Hc. now split.
    + now rewrite Hstate.
Qed.

Lemma settled_run events c : settled c -> settled (run env events c).
Proof.
  revert c. induction events as [|e events IH]; intros c Hc; [exact Hc|].
  cbn. apply IH. now apply settled_step.
Qed.

(** Nothing moves a Completed command: later cancel requests and later
    attempts at completion leave it as it is. *)
Lemma completed_is_final events c :
  settled c -> state c = Completed -> run env events c = c.
Proof.
  intros Hs Hc.
  assert (Hstep : forall e, step env c e = c).
  { unfold settled in Hs. rewrite Hc in Hs. intros [|by_path len r].
    - cbn [step]. unfold cancel_requested. now destruct Hs as [_ ->].
    - cbn [step]. unfold reach_completion. now rewrite Hc. }
  induction events as [|e events IH]; [reflexivity|].
  cbn [run fold_left]. rewrite Hstep. exact IH.
Qed.

(** Cancel requests leave the completions of a command alone and never
    complete it. *)
Lemma cancel_keeps_completions c :
  completions (request (world_of (cancel_requested c)))
    = completions (request (world_of c)) /\
  (state c <> Completed -> state (cancel_requested c) <> Completed).
Proof.
  unfold cancel_requested.
  destruct (cancelable (request (world_of c))); [|tauto].
  cbn. split; [reflexivity|]. now destruct (state c).
Qed.

(** While a command is not Completed, the first attempt at the
    terminal transition in a schedule performs the completion. *)
Lemma first_attempt_completes events c :
  settled c -> state c <> Completed ->
  completions (request (world_of (run env events c)))
    = match first_completion events with
      | Some (_, output_buffer_length, result) =>
          [(ebpf_result_to_ntstatus env result, output_buffer_length)]
      | None => []
      end /\
  (state (run env events c) = Completed
   <-> first_completion events <> None).
Proof.
  revert c. induction events as [|e events IH]; intros c Hs Hc.
  - cbn. unfold settled, completion_count in Hs.
    destruct (state c) eqn:Hstate; try contradiction;
      (split; [now apply length_zero_iff_nil|]); split; congruence.
  - destruct e as [|by_path len r]; cbn [run fold_left first_completion].
    + apply IH; [now apply (settled_step c CancelRequest)|].
      now apply cancel_keeps_completions.
    + assert (Hdone : state (step env c (ReachCompletion by_path len r))
                      = Completed).
      { cbn [step]. unfold reach_completion.
        destruct (state c); [reflexivity|reflexivity|contradiction]. }
      pose proof (settled_step c (ReachCompletion by_path len r) Hs) as Hs'.
      fold (run env events (step env c (ReachCompletion by_path len r))).
      rewrite (completed_is_final events _ Hs' Hdone).
      split; [|split; [discriminate|intros _; exact Hdone]].
      cbn [step]. unfold reach_completion.
      unfold settled, completion_count in Hs.
      destruct (state c) eqn:Hstate; try contradiction;
        cbn [world_of]; rewrite complete_callback; cbn;
        apply length_zero_iff_nil in Hs; now rewrite Hs.
Qed.

(** A fresh request that went through the dispatcher is settled. *)
Lemma arrival_settled out_len in_len code w :
  cancelable (request w) = false ->
  completions (request w) = [] ->
  match arrive env out_len in_len code w with
  | inl c0 => settled c0 /\ (state c0 = Active \/ state c0 = Completed)
  | inr w1 =>
      io_device_control_body env out_len in_len code w
        = Returned (STATUS_SUCCESS, true) w1
  end.
Proof.
  intros Hcancel Hnone. unfold arrive.
  pose proof (body_keeps_request out_len in_len code w) as Hbody.
  destruct (io_device_control_body env out_len in_len code w)
    as [[status acquired] w1|w1]; [|contradiction].
  destruct Hbody as [Hsame Hmark]. rewrite Hnone in Hsame.
  unfold io_device_control_done, settled, completion_count.
  destruct (Z.eqb_spec status STATUS_PENDING) as [->|Hpending].
  - cbn. rewrite Hsame. split; [reflexivity|now left].
  - cbn [negb]. destruct acquired.
    + run. destruct (Z.eqb_spec status STATUS_SUCCESS) as [->|Hfailure].
      * reflexivity.
      * cbn. rewrite length_app, Hsame. repeat split. now right.
    + run. cbn. rewrite length_app, Hsame, Hmark by reflexivity.
      repeat split; [assumption|now right].
Qed.

(** C1. A fresh request goes through the dispatcher and then meets any
    schedule of cancel requests and of attempts, by the cancellation
    path or by the handler path, at the terminal transition.  The
    request is never completed twice; it holds exactly one completion
    as soon as the command is Completed; when the dispatcher completed
    it, the schedule changes nothing; when the dispatcher answered
    STATUS_PENDING, the first attempt of the schedule performs the
    completion and everything after it is inert; a cancel request on a
    Completed command does nothing.  The dispatcher stops short of
    this only at its own assertion, on an async command whose handler
    answered STATUS_SUCCESS. *)
Theorem exactly_one_completion out_len in_len code w events :
  cancelable (request w) = false ->
  completions (request w) = [] ->
  match arrive env out_len in_len code w with
  | inr w1 =>
      io_device_control_body env out_len in_len code w
        = Returned (STATUS_SUCCESS, true) w1
  | inl c0 =>
      let c := run env events c0 in
      (completion_count c <= 1)%nat /\
      (completion_count c = 1%nat <-> state c = Completed) /\
      (state c0 = Completed -> c = c0 /\ completion_count c = 1%nat) /\
      (state c0 = Active ->
       completions (request (world_of c))
         = match first_completion events with
           | Some (_, output_buffer_length, result) =>
               [(ebpf_result_to_ntstatus env result, output_buffer_length)]
           | None => []
           end) /\
      (state c = Completed -> cancel_requested c = c)
  end.
Proof.
  intros Hcancel Hnone.
  pose proof (arrival_settled out_len in_len code w Hcancel Hnone) as Harrive.
  destruct (arrive env out_len in_len code w) as [c0|w1]; [|exact Harrive].
  destruct Harrive as [Hs0 Hstate0]. intros c.
  assert (Hs : settled c) by now apply settled_run.
  assert (Hiff : completion_count c = 1%nat <-> state c = Completed).
  { unfold settled in Hs. destruct (state c); split;
      try congruence; try tauto; lia. }
  split; [|split; [exact Hiff|split; [|split]]].
  - unfold settled in Hs. destruct (state c); try lia.
  - intros Hdone. unfold c. rewrite (completed_is_final _ _ Hs0 Hdone).
    unfold settled in Hs0. rewrite Hdone in Hs0. tauto.
  - intros Hactive.
    apply first_attempt_completes; [exact Hs0|congruence].
  - intros Hdone. unfold settled in Hs. rewrite Hdone in Hs.
    unfold cancel_requested. now destruct Hs as [_ ->].
Qed.

End BridgeTheorems.

(** ** Filter contexts: references and finalization *)

Section FilterContexts.

Import NetExt.

Variable remove_from_cleanup_list :
  address -> net_ebpf_extension_wfp_cleanup_state_t ->
  net_ebpf_extension_wfp_cleanup_state_t.
Variable leave_rundown : address -> gmap address Z -> gmap address Z.

Abbreviation CLEAN_UP := (CLEAN_UP_FILTER_CONTEXT remove_from_cleanup_list).
Abbreviation REFERENCE := REFERENCE_FILTER_CONTEXT.
Abbreviation DEREFERENCE :=
  (DEREFERENCE_FILTER_CONTEXT remove_from_cleanup_list leave_rundown).
Abbreviation run_holders :=
  (holders remove_from_cleanup_list leave_rundown).

Lemma clean_up_live p c s :
  pool s !! p = Some c ->
  CLEAN_UP (Some p) s
    = Some (mk_system (delete p (pool s))
              (remove_from_cleanup_list p (cleanup s)) (rundown s)
              (effects s ++ finalization p c)).
Proof.
  intros Hlive. unfold CLEAN_UP_FILTER_CONTEXT, finalization. rewrite Hlive.
  destruct (filter_ids c), (client_contexts c), (wfp_engine_handle c);
    cbn; now rewrite <- ?app_assoc.
Qed.

Lemma dereference_last p c s :
  pool s !! p = Some c -> reference_count c = 1 ->
  DEREFERENCE (Some p) s
    = Some (mk_system (delete p (pool s))
              (remove_from_cleanup_list p (cleanup s))
              (leave_rundown (provider_context c) (rundown s))
              (effects s ++ LeaveRundown (provider_context c)
                              :: finalization p c)).
Proof.
  intros Hlive Hone. unfold DEREFERENCE_FILTER_CONTEXT.
  rewrite Hlive. cbn [set_reference_count reference_count provider_context].
  rewrite Hone. change (to_long (1 - 1) =? 0) with true.
  cbn [pool cleanup rundown effects].
  erewrite clean_up_live by (cbn [pool]; apply lookup_insert_eq).
  cbn [pool cleanup rundown effects].
  rewrite delete_insert_eq. unfold finalization.
  cbn [filter_ids client_contexts wfp_engine_handle set_reference_count].
  now rewrite <- app_assoc.
Qed.

Lemma dereference_held p c s :
  pool s !! p = Some c -> to_long (reference_count c - 1) <> 0 ->
  DEREFERENCE (Some p) s
    = Some (mk_system
              (<[p := set_reference_count
                        (to_long (reference_count c - 1)) c]>
                 (pool s))
              (cleanup s) (rundown s) (effects s)).
Proof.
  intros Hlive Hmore. unfold DEREFERENCE_FILTER_CONTEXT.
  rewrite Hlive. cbn [set_reference_count reference_count].
  destruct (Z.eqb_spec (to_long (reference_count c - 1)) 0);
    [contradiction|reflexivity].
Qed.

Lemma reference_live p c s :
  pool s !! p = Some c ->
  REFERENCE (Some p) s
    = Some (mk_system
              (<[p := set_reference_count
                        (to_long (reference_count c + 1)) c]>
                 (pool s))
              (cleanup s) (rundown s) (effects s)).
Proof. intros Hlive. unfold REFERENCE_FILTER_CONTEXT. now rewrite Hlive. Qed.

Lemma set_reference_count_twice n m c :
  set_reference_count n (set_reference_count m c) = set_reference_count n c.
Proof. reflexivity. Qed.

Lemma with_count_twice n m p c s :
  with_count n p (set_reference_count m c) (with_count m p c s)
    = with_count n p c s.
Proof.
  unfold with_count. cbn [pool cleanup rundown effects].
  now rewrite insert_insert_eq.
Qed.

(** While the count stays above zero the holders only move the
    count. *)
Lemma holders_keep_it_alive calls p c s :
  pool s !! p = Some c ->
  stays_referenced (reference_count c) calls = true ->
  run_holders calls p s
    = Some (match calls with
            | [] => s
            | _ => with_count (count_after (reference_count c) calls) p c s
            end).
Proof.
  revert c s. induction calls as [|call calls IH]; intros c s Hlive Hstays;
    [reflexivity|].
  cbn [stays_referenced count_after fold_left] in Hstays.
  apply andb_prop in Hstays as [Hpositive Hstays].
  apply Z.ltb_lt in Hpositive.
  cbn [holders].
  set (n := match call with
            | Reference => to_long (reference_count c + 1)
            | Dereference => to_long (reference_count c - 1)
            end) in *.
  assert (Hstep :
    match call with
    | Reference => REFERENCE (Some p) s
    | Dereference => DEREFERENCE (Some p) s
    end = Some (with_count n p c s)).
  { subst n. destruct call.
    - now apply reference_live.
    - apply dereference_held; [assumption|lia]. }
  rewrite Hstep.
  rewrite (IH (set_reference_count n c) (with_count n p c s)).
  - cbn [set_reference_count reference_count count_after fold_left].
    fold n. destruct calls as [|call' calls]; [reflexivity|].
    now rewrite with_count_twice.
  - unfold with_count. cbn [pool]. apply lookup_insert_eq.
  - exact Hstays.
Qed.

Lemma holders_app calls1 calls2 p s :
  run_holders (calls1 ++ calls2) p s
    = match run_holders calls1 p s with
      | Some s1 => run_holders calls2 p s1
      | None => None
      end.
Proof.
  revert s. induction calls1 as [|call calls1 IH]; intros s; [reflexivity|].
  cbn [app holders].
  destruct (match call with
            | Reference => REFERENCE (Some p) s
            | Dereference => DEREFERENCE (Some p) s
            end); [apply IH|reflexivity].
Qed.

Lemma finalization_frees_once p c :
  length (List.filter (frees p) (finalization p c)) = 1%nat.
Proof.
  unfold finalization.
  destruct (filter_ids c), (client_contexts c), (wfp_engine_handle c);
    cbn; now rewrite Pos.eqb_refl.
Qed.

Lemma times_freed_emit p s pool' cleanup' rundown' new :
  times_freed p (mk_system pool' cleanup' rundown' (effects s ++ new))
    = (times_freed p s + length (List.filter (frees p) new))%nat.
Proof.
  unfold times_freed. cbn [effects].
  now rewrite List.filter_app, length_app.
Qed.

(** The macros on their own.  Whatever the holders of a filter
    context do with their references, and in whatever order, the
    context stays in the pool while the count stays above zero, and
    none of its memory is touched.  The release that brings the count
    to zero, and that release only, leaves the provider rundown and
    then finalizes the context: its memory is freed once.  After that
    there is no context left for a holder to act on. *)
Lemma freed_once_by_the_last_release calls p c s :
  pool s !! p = Some c ->
  stays_referenced (reference_count c) calls = true ->
  count_after (reference_count c) calls = 1 ->
  exists held s',
    run_holders calls p s = Some held /\
    is_Some (pool held !! p) /\
    effects held = effects s /\
    run_holders (calls ++ [Dereference]) p s = Some s' /\
    pool s' !! p = None /\
    times_freed p s' = S (times_freed p s) /\
    effects s'
      = effects s ++ LeaveRundown (provider_context c) :: finalization p c /\
    rundown s' = leave_rundown (provider_context c) (rundown s) /\
    forall call, run_holders (calls ++ [Dereference; call]) p s = None.
Proof.
  intros Hlive Hstays Hone.
  pose proof (holders_keep_it_alive calls p c s Hlive Hstays) as Hheld.
  set (held := match calls with
               | [] => s
               | _ => with_count (count_after (reference_count c) calls) p c s
               end) in *.
  assert (Hthere : pool held !! p = Some (set_reference_count 1 c)).
  { subst held. destruct calls as [|call calls].
    - cbn in Hone. rewrite Hlive. f_equal. destruct c. cbn in *.
      now subst.
    - rewrite Hone. unfold with_count. cbn [pool].
      apply lookup_insert_eq. }
  assert (Heffects : effects held = effects s /\ rundown held = rundown s).
  { subst held. now destruct calls. }
  destruct Heffects as [Heffects Hrundown].
  pose proof (dereference_last p _ held Hthere eq_refl) as Hlast.
  cbn [provider_context set_reference_count] in Hlast.
  assert (Hfinal : finalization p (set_reference_count 1 c)
                   = finalization p c) by reflexivity.
  rewrite Hfinal, Heffects, Hrundown in Hlast.
  eexists held, _. split; [exact Hheld|].
  split; [now rewrite Hthere|]. split; [exact Heffects|].
  split; [rewrite holders_app, Hheld; cbn [holders]; now rewrite Hlast|].
  split; [cbn [pool]; apply lookup_delete_eq|].
  split.
  { rewrite times_freed_emit. cbn [length List.filter frees].
    rewrite finalization_frees_once. lia. }
  split; [reflexivity|]. split; [reflexivity|].
  intros call. rewrite holders_app, Hheld. cbn [holders]. rewrite Hlast.
  unfold REFERENCE_FILTER_CONTEXT, DEREFERENCE_FILTER_CONTEXT.
  cbn [pool]. rewrite lookup_delete_eq. now destruct call.
Qed.

(** C10. [CLEAN_UP_FILTER_CONTEXT], called directly or by the
    [DEREFERENCE_FILTER_CONTEXT] that brings the count to zero, first
    takes the filter context off the cleanup list, then frees the
    filter id array and the client array if there are any, closes the
    engine handle if there is one, and frees the context last.  With
    a removal that takes the context off the list, the freed context
    is not on the cleanup list, and the list still reaches live
    contexts only. *)
Theorem finalization_unlinks_before_it_frees p c s :
  (forall k, removes p (filter_cleanup_list k)
               (filter_cleanup_list (remove_from_cleanup_list p k))) ->
  pool s !! p = Some c ->
  cleanup_list_live s ->
  (exists s',
     CLEAN_UP (Some p) s = Some s' /\
     effects s' = effects s ++ finalization p c /\
     pool s' !! p = None /\
     ~ In p (filter_cleanup_list (cleanup s')) /\
     cleanup_list_live s') /\
  (reference_count c = 1 ->
   exists s',
     DEREFERENCE (Some p) s = Some s' /\
     effects s'
       = effects s ++ LeaveRundown (provider_context c) :: finalization p c /\
     pool s' !! p = None /\
     ~ In p (filter_cleanup_list (cleanup s')) /\
     cleanup_list_live s') /\
  exists arrays,
    finalization p c
      = RemoveFromCleanupList p :: arrays ++ [FreeFilterContext p] /\
    ~ In (RemoveFromCleanupList p) arrays /\
    ~ In (FreeFilterContext p) arrays.
Proof.
  intros Hremoves Hlive Hlist.
  assert (Hafter : forall rundown' effects',
    cleanup_list_live
      (mk_system (delete p (pool s))
         (remove_from_cleanup_list p (cleanup s)) rundown' effects')).
  { intros rundown' effects' q Hq. cbn [pool cleanup] in *.
    destruct (Hremoves (cleanup s)) as [Hgone Hsub].
    assert (q <> p) by (intros ->; now apply Hgone).
    rewrite lookup_delete_ne by congruence. apply Hlist. now apply Hsub. }
  split; [|split].
  - eexists. split; [exact (clean_up_live p c s Hlive)|].
    cbn [effects pool cleanup]. split; [reflexivity|].
    split; [apply lookup_delete_eq|].
    split; [apply (Hremoves (cleanup s))|apply Hafter].
  - intros Hone. eexists.
    split; [exact (dereference_last p c s Hlive Hone)|].
    cbn [effects pool cleanup]. split; [reflexivity|].
    split; [apply lookup_delete_eq|].
    split; [apply (Hremoves (cleanup s))|apply Hafter].
  - unfold finalization. eexists. split.
    + cbn [app]. f_equal. rewrite !app_assoc. reflexivity.
    + destruct (filter_ids c), (client_contexts c), (wfp_engine_handle c);
        cbn; intuition congruence.
Qed.

End FilterContexts.

(** ** The filter context between [begin_delete] and the free *)

Section Teardown.

Import NetExt.

Abbreviation remove_from_list :=
  net_ebpf_ext_remove_filter_context_from_cleanup_list.
Abbreviation leave := net_ebpf_extension_hook_provider_leave_rundown.

Variable p : address.

Lemma to_long_small n : - 2 ^ 31 <= n < 2 ^ 31 -> to_long n = n.
Proof.
  intros Hrange. unfold to_long. rewrite Z.mod_small; lia.
Qed.

Lemma resolved_by_lookup (rules : list net_ebpf_ext_wfp_filter_id_t) :
  forallb rule_resolved rules = true <->
  forall index rule,
    rules !! index = Some rule -> rule_resolved rule = true.
Proof.
  induction rules as [|first rules IH]; cbn [forallb].
  - split; [intros _ index rule Hnone; discriminate|reflexivity].
  - rewrite andb_true_iff, IH. split.
    + intros [Hfirst Hrest] [|index] rule Hlookup.
      * cbn in Hlookup. now injection Hlookup as <-.
      * exact (Hrest index rule Hlookup).
    + intros Hall. split.
      * exact (Hall O first eq_refl).
      * intros index rule Hlookup. exact (Hall (S index) rule Hlookup).
Qed.

Lemma resolved_iff c :
  rules_resolved c = true <-> forall index, ~ unresolved c index.
Proof.
  assert (Hrules : rules_resolved c = forallb rule_resolved (rules_of c))
    by (unfold rules_resolved, rules_of; now destruct (filter_ids c)).
  rewrite Hrules, resolved_by_lookup. unfold unresolved. split.
  - intros Hall index (rule & Hlookup & Hopen).
    rewrite (Hall index rule Hlookup) in Hopen. discriminate.
  - intros Hnone index rule Hlookup.
    destruct (rule_resolved rule) eqn:Hrule; [reflexivity|].
    contradiction (Hnone index). now exists rule.
Qed.

Lemma awaited_resolved c events :
  awaited c events ->
  rules_resolved c = true <-> deleted_rules events = [].
Proof.
  intros (_ & _ & Hcovers). rewrite resolved_iff. split.
  - intros Hnone. destruct (deleted_rules events) as [|index rest] eqn:Hrules;
      [reflexivity|].
    contradiction (Hnone index). apply Hcovers. now left.
  - intros Hnone index Hopen. apply Hcovers in Hopen.
    now rewrite Hnone in Hopen.
Qed.

Lemma events_length events :
  length events = (detaches events + length (deleted_rules events))%nat.
Proof.
  induction events as [|[|index error] events IH]; cbn; lia.
Qed.

Lemma covers_length (indices : list nat) (n : nat) :
  List.NoDup indices ->
  (forall index, In index indices <-> (index < n)%nat) ->
  length indices = n.
Proof.
  intros Honce Hcovers.
  assert (Hsame : Permutation indices (seq 0 n)).
  { apply Permutation.NoDup_Permutation;
      [exact Honce|apply List.seq_NoDup|].
    intros index. rewrite Hcovers, List.in_seq. split; lia. }
  rewrite (Permutation.Permutation_length Hsame). apply List.length_seq.
Qed.

Lemma teardown_app before after s :
  teardown (before ++ after) p s
    = match teardown before p s with
      | Some s1 => teardown after p s1
      | None => None
      end.
Proof.
  revert s. induction before as [|e before IH]; intros s; [reflexivity|].
  cbn [app teardown]. destruct (teardown_step p e s); [apply IH|reflexivity].
Qed.

Lemma not_on_the_list_after_removal k :
  ~ In p (filter_cleanup_list (remove_from_list p k)).
Proof.
  unfold net_ebpf_ext_remove_filter_context_from_cleanup_list.
  cbn [filter_cleanup_list].
  rewrite List.filter_In, negb_true_iff, Pos.eqb_neq. tauto.
Qed.

(** The callback of a rule that is not resolved, up to its
    [DEREFERENCE_FILTER_CONTEXT]. *)
Lemma callback_reaches_the_release index error rule c s :
  pool s !! p = Some c ->
  rules_of c !! index = Some rule ->
  let rules := <[index := deletion_reported error rule]> (rules_of c) in
  let c1 := set_filter_ids (Some rules) (context_deleting c) c in
  let k := if forallb rule_resolved rules
           then remove_from_list p (cleanup s)
           else cleanup s in
  rule_deletion_callback p index error s
    = DEREFERENCE_FILTER_CONTEXT remove_from_list leave (Some p)
        (mk_system (<[p := c1]> (pool s)) k (rundown s) (effects s)) /\
  finalization p c1 = finalization p c /\
  forall other,
    unresolved c1 other <-> other <> index /\ unresolved c other.
Proof.
  intros Hlive Hrule rules c1 k.
  split; [|split].
  - unfold rule_deletion_callback. now rewrite Hlive, Hrule.
  - unfold finalization, c1. cbn [filter_ids client_contexts
      wfp_engine_handle set_filter_ids].
    unfold rules_of in Hrule. now destruct (filter_ids c).
  - intros other. unfold unresolved, c1, rules_of.
    cbn [filter_ids set_filter_ids]. fold (rules_of c). fold rules.
    destruct (Nat.eq_dec index other) as [<-|Hother].
    + unfold rules.
      rewrite list_lookup_insert_eq by exact (lookup_lt_Some _ _ _ Hrule).
      split.
      * intros (reported & Hreported & Hopen).
        injection Hreported as <-. unfold rule_resolved in Hopen.
        cbn [state deletion_reported] in Hopen.
        now destruct (NT_SUCCESS error).
      * intros [Hdiffers _]. now contradiction Hdiffers.
    + unfold rules. rewrite list_lookup_insert_ne by exact Hother.
      split; [intros Hopen; split; [congruence|exact Hopen]|tauto].
Qed.

(** An event that is not the last one awaited moves the count and the
    record of its rule, and nothing else. *)
Lemma teardown_step_held e rest c s :
  pool s !! p = Some c ->
  awaited c (e :: rest) ->
  rest <> [] ->
  Z.of_nat (length (e :: rest)) < 2 ^ 31 ->
  exists s1 c1,
    teardown_step p e s = Some s1 /\
    pool s1 !! p = Some c1 /\
    awaited c1 rest /\
    effects s1 = effects s /\
    rundown s1 = rundown s /\
    provider_context c1 = provider_context c /\
    finalization p c1 = finalization p c /\
    (forall q, q <> p -> pool s1 !! q = pool s !! q) /\
    (deleted_rules rest <> [] -> cleanup s1 = cleanup s).
Proof.
  intros Hlive (Hcount & Honce & Hcovers) Hmore Hrange.
  assert (Hleft : to_long (reference_count c - 1) = Z.of_nat (length rest)).
  { rewrite Hcount. cbn [length]. rewrite to_long_small; cbn [length] in *; lia. }
  assert (Hheld : to_long (reference_count c - 1) <> 0).
  { rewrite Hleft. destruct rest; [contradiction|cbn [length]; lia]. }
  destruct e as [|index error].
  - eexists _, _. split.
    { cbn [teardown_step]. exact (dereference_held _ _ p c s Hlive Hheld). }
    cbn [pool effects rundown cleanup]. split; [apply lookup_insert_eq|].
    split.
    { split; [exact Hleft|]. split; [exact Honce|exact Hcovers]. }
    repeat split; try reflexivity.
    intros q Hq. apply lookup_insert_ne. congruence.
  - assert (Hopen : unresolved c index) by (apply Hcovers; now left).
    destruct Hopen as (rule & Hrule & Hopen).
    destruct (callback_reaches_the_release index error rule c s Hlive Hrule)
      as (Hcallback & Hfinal & Hrules).
    cbn zeta in Hcallback, Hfinal, Hrules.
    set (rules := <[index := deletion_reported error rule]> (rules_of c)) in *.
    set (c1 := set_filter_ids (Some rules) (context_deleting c) c) in *.
    cbn [deleted_rules] in Honce, Hcovers.
    apply List.NoDup_cons_iff in Honce as [Hfresh Honce].
    assert (Hawaited :
      awaited (set_reference_count (to_long (reference_count c1 - 1)) c1)
        rest).
    { split; [exact Hleft|]. split; [exact Honce|].
      intros other.
      assert (Hsame :
        unresolved (set_reference_count (to_long (reference_count c1 - 1)) c1)
          other <-> unresolved c1 other) by reflexivity.
      rewrite Hsame, Hrules, <- Hcovers. split.
      - intros Hin. split; [intros ->; contradiction|now right].
      - intros [Hother [Hhead|Hin]]; [congruence|exact Hin]. }
    eexists _, _. split.
    { cbn [teardown_step]. rewrite Hcallback.
      apply dereference_held; [apply lookup_insert_eq|exact Hheld]. }
    cbn [pool effects rundown cleanup]. split; [apply lookup_insert_eq|].
    split; [exact Hawaited|].
    split; [reflexivity|]. split; [reflexivity|]. split; [reflexivity|].
    split; [exact Hfinal|]. split.
    + intros q Hq. rewrite !lookup_insert_ne by congruence. reflexivity.
    + intros Hrules_left.
      destruct (forallb rule_resolved rules) eqn:Hall; [|reflexivity].
      contradiction Hrules_left.
      apply (awaited_resolved _ _ Hawaited). exact Hall.
Qed.

(** The last event awaited leaves the provider rundown and frees the
    filter context. *)
Lemma teardown_step_last e c s :
  pool s !! p = Some c ->
  awaited c [e] ->
  exists s',
    teardown_step p e s = Some s' /\
    pool s' !! p = None /\
    effects s'
      = effects s ++ LeaveRundown (provider_context c) :: finalization p c /\
    rundown s' = leave (provider_context c) (rundown s) /\
    ~ In p (filter_cleanup_list (cleanup s')) /\
    (forall q, q <> p -> pool s' !! q = pool s !! q).
Proof.
  intros Hlive (Hcount & Honce & Hcovers). cbn [length] in Hcount.
  destruct e as [|index error].
  - eexists. split.
    { cbn [teardown_step]. apply dereference_last; [exact Hlive|exact Hcount]. }
    cbn [pool effects rundown cleanup].
    split; [apply lookup_delete_eq|]. split; [reflexivity|].
    split; [reflexivity|]. split; [apply not_on_the_list_after_removal|].
    intros q Hq. apply lookup_delete_ne. congruence.
  - assert (Hopen : unresolved c index) by (apply Hcovers; now left).
    destruct Hopen as (rule & Hrule & Hopen).
    destruct (callback_reaches_the_release index error rule c s Hlive Hrule)
      as (Hcallback & Hfinal & _).
    cbn zeta in Hcallback, Hfinal.
    eexists. split.
    { cbn [teardown_step]. rewrite Hcallback.
      apply dereference_last; [apply lookup_insert_eq|exact Hcount]. }
    cbn [pool effects rundown cleanup provider_context set_filter_ids].
    split; [apply lookup_delete_eq|]. split; [now rewrite Hfinal|].
    split; [reflexivity|]. split; [apply not_on_the_list_after_removal|].
    intros q Hq.
    rewrite lookup_delete_ne, lookup_insert_ne by congruence. reflexivity.
Qed.

(** While events are awaited the filter context is in the pool, with
    one reference for each of them. *)
Lemma teardown_prefix before :
  forall after c s,
    after <> [] ->
    pool s !! p = Some c ->
    awaited c (before ++ after) ->
    Z.of_nat (length (before ++ after)) < 2 ^ 31 ->
    exists s1 c1,
      teardown before p s = Some s1 /\
      pool s1 !! p = Some c1 /\
      awaited c1 after /\
      effects s1 = effects s /\
      rundown s1 = rundown s /\
      provider_context c1 = provider_context c /\
      finalization p c1 = finalization p c /\
      (forall q, q <> p -> pool s1 !! q = pool s !! q) /\
      (deleted_rules after <> [] -> cleanup s1 = cleanup s).
Proof.
  induction before as [|e before IH]; intros after c s Hmore Hlive Hawaited
    Hrange.
  - exists s, c. cbn [teardown app] in *.
    split; [reflexivity|]. split; [exact Hlive|]. split; [exact Hawaited|].
    repeat split.
  - cbn [app] in Hawaited, Hrange.
    destruct (teardown_step_held e (before ++ after) c s Hlive Hawaited)
      as (s1 & c1 & Hstep & Hlive1 & Hawaited1 & Heffects1 & Hrundown1
          & Hprovider1 & Hfinal1 & Hframe1 & Hcleanup1).
    { destruct before; [exact Hmore|discriminate]. }
    { exact Hrange. }
    destruct (IH after c1 s1 Hmore Hlive1 Hawaited1)
      as (s2 & c2 & Hrun & Hlive2 & Hawaited2 & Heffects2 & Hrundown2
          & Hprovider2 & Hfinal2 & Hframe2 & Hcleanup2).
    { cbn [length] in Hrange. lia. }
    exists s2, c2. cbn [teardown]. rewrite Hstep.
    split; [exact Hrun|]. split; [exact Hlive2|]. split; [exact Hawaited2|].
    split; [congruence|]. split; [congruence|]. split; [congruence|].
    split; [congruence|]. split.
    + intros q Hq. now rewrite Hframe2, Hframe1.
    + intros Hrules. rewrite (Hcleanup2 Hrules). apply Hcleanup1.
      intros Hnone. apply Hrules.
      clear - Hnone. induction before as [|[|index error] before IH];
        cbn [app deleted_rules] in *; [exact Hnone|now apply IH|discriminate].
Qed.


End Teardown.

(** ** Attaching clients *)

Section Clients.

Import NetExt.

Lemma free_slot_found slots :
  (occupied slots < length slots)%nat ->
  exists index, free_slot slots = Some index /\ slots !! index = Some None.
Proof.
  unfold occupied. induction slots as [|[client|] slots IH]; cbn; [lia| |].
  - intros Hroom. destruct IH as (index & Hfound & Hempty); [lia|].
    exists (S index). rewrite Hfound. now split.
  - intros _. now exists 0%nat.
Qed.

Lemma occupied_insert slots index client :
  slots !! index = Some None ->
  occupied (<[index := Some client]> slots) = S (occupied slots).
Proof.
  unfold occupied. revert index.
  induction slots as [|slot slots IH]; intros [|index]; cbn;
    try discriminate.
  - now intros [= ->].
  - intros Hempty. destruct slot; cbn; now rewrite IH.
Qed.

Lemma attach_with_room c client :
  well_formed c ->
  client_context_count c < client_context_count_max c ->
  exists c',
    net_ebpf_ext_add_client_context c client = (EBPF_SUCCESS, c') /\
    well_formed c' /\
    client_context_count c' = client_context_count c + 1 /\
    client_context_count_max c' = client_context_count_max c.
Proof.
  intros (slots & Harray & Hcapacity & Hcount) Hroom.
  unfold net_ebpf_ext_add_client_context.
  destruct (Z.leb_spec (client_context_count_max c) (client_context_count c));
    [lia|].
  rewrite Harray.
  destruct (free_slot_found slots) as (index & -> & Hempty); [lia|].
  eexists. split; [reflexivity|].
  cbn [client_context_count client_context_count_max client_contexts].
  split; [|now split].
  exists (<[index := Some client]> slots).
  cbn [client_context_count client_context_count_max client_contexts].
  split; [reflexivity|]. rewrite length_insert, occupied_insert by assumption.
  split; lia.
Qed.

Lemma attach_when_full c client :
  client_context_count_max c <= client_context_count c ->
  net_ebpf_ext_add_client_context c client = (EBPF_NO_MEMORY, c).
Proof.
  intros Hfull. unfold net_ebpf_ext_add_client_context.
  now destruct (Z.leb_spec (client_context_count_max c)
                  (client_context_count c)); [|lia].
Qed.

(** C7. A filter context whose client array has room for as many
    clients as are attached in a row takes them all; once the client
    count has reached the capacity, the next attach fails with
    EBPF_NO_MEMORY and hands the context back as it was. *)
Theorem attach_fails_when_the_client_array_is_full c clients extra :
  well_formed c ->
  Z.of_nat (length clients)
    = client_context_count_max c - client_context_count c ->
  exists c',
    attach_all clients c = (repeat EBPF_SUCCESS (length clients), c') /\
    client_context_count c' = client_context_count_max c /\
    client_context_count_max c' = client_context_count_max c /\
    net_ebpf_ext_add_client_context c' extra = (EBPF_NO_MEMORY, c').
Proof.
  revert c. induction clients as [|client clients IH]; intros c Hwf Hroom.
  - cbn in Hroom. exists c. cbn [attach_all length repeat].
    repeat split; try lia. apply attach_when_full. lia.
  - cbn [length] in Hroom.
    destruct (attach_with_room c client Hwf) as (c1 & Hadd & Hwf1 & Hc1 & Hm1);
      [lia|].
    destruct (IH c1 Hwf1) as (c' & Hall & Hcount & Hmax & Hfull); [lia|].
    exists c'. cbn [attach_all length repeat]. rewrite Hadd, Hall.
    repeat split; congruence.
Qed.

Lemma create_well_formed max_clients provider :
  well_formed (create max_clients provider).
Proof.
  exists (repeat None max_clients). cbn. rewrite repeat_length.
  repeat split. unfold occupied.
  induction max_clients as [|n IH]; [reflexivity|exact IH].
Qed.

End Clients.

(** ** The cleanup list *)

Section Cleanup.

Import NetExt.

Abbreviation remove := net_ebpf_ext_remove_filter_context_from_cleanup_list.

Implicit Type k : net_ebpf_extension_wfp_cleanup_state_t.

Lemma remove_list p k :
  filter_cleanup_list (remove p k)
    = List.filter (fun q => negb (Pos.eqb q p)) (filter_cleanup_list k).
Proof. reflexivity. Qed.

Lemma remove_event p k :
  wfp_filter_cleanup_event (remove p k)
    = wfp_filter_cleanup_event k
      || (signal_empty_filter_list k
          && emptied (filter_cleanup_list k)
               (filter_cleanup_list (remove p k))).
Proof. reflexivity. Qed.

Lemma remove_keeps_flag p k :
  signal_empty_filter_list (remove p k) = signal_empty_filter_list k.
Proof. reflexivity. Qed.

Lemma remove_keeps_providers p k :
  provider_context_cleanup_list (remove p k)
    = provider_context_cleanup_list k.
Proof. reflexivity. Qed.

Lemma remove_from_empty p k :
  filter_cleanup_list k = [] -> filter_cleanup_list (remove p k) = [].
Proof. rewrite remove_list. now intros ->. Qed.

Lemma cleanup_state_eq k1 k2 :
  provider_context_cleanup_list k1 = provider_context_cleanup_list k2 ->
  filter_cleanup_list k1 = filter_cleanup_list k2 ->
  signal_empty_filter_list k1 = signal_empty_filter_list k2 ->
  wfp_filter_cleanup_event k1 = wfp_filter_cleanup_event k2 ->
  k1 = k2.
Proof. destruct k1, k2. cbn. congruence. Qed.

Lemma emptied_iff (before after : list address) :
  emptied before after = true <-> before <> [] /\ after = [].
Proof.
  unfold emptied. rewrite andb_true_iff, negb_true_iff, Nat.eqb_eq,
    Nat.eqb_neq, !length_zero_iff_nil. tauto.
Qed.

Lemma emptied_same (l : list address) : emptied l l = false.
Proof. now destruct l. Qed.

Lemma emptied_twice (a b c : list address) :
  (a = [] -> b = []) -> (b = [] -> c = []) ->
  emptied a b || emptied b c = emptied a c.
Proof.
  intros Hab Hbc. destruct a as [|x a].
  - rewrite (Hab eq_refl), (Hbc (Hab eq_refl)). reflexivity.
  - destruct b as [|y b]; [now rewrite (Hbc eq_refl)|].
    now destruct c.
Qed.

Lemma filter_twice {A} (f g : A -> bool) (l : list A) :
  List.filter g (List.filter f l) = List.filter (fun x => f x && g x) l.
Proof.
  induction l as [|x l IH]; [reflexivity|].
  cbn [List.filter]. destruct (f x); cbn [List.filter andb].
  - now rewrite IH.
  - exact IH.
Qed.

Lemma filter_of_nil_is_nil {A} (f : A -> bool) (l : list A) :
  l = [] -> List.filter f l = [].
Proof. now intros ->. Qed.

Lemma unregister_app before after k :
  unregister_all (before ++ after) k
    = (fst (unregister_all before k)
       ++ fst (unregister_all after (snd (unregister_all before k))),
       snd (unregister_all after (snd (unregister_all before k)))).
Proof.
  revert k. induction before as [|p before IH]; intros k.
  - cbn. now destruct (unregister_all after k).
  - cbn [app unregister_all]. rewrite IH.
    destruct (unregister_all before (remove p k)) as [fired k'].
    reflexivity.
Qed.

Lemma unregister_length calls k :
  length (fst (unregister_all calls k)) = length calls.
Proof.
  revert k. induction calls as [|p calls IH]; intros k; [reflexivity|].
  cbn [unregister_all]. specialize (IH (remove p k)).
  destruct (unregister_all calls (remove p k)). cbn in *. now rewrite IH.
Qed.

(** The cleanup state after the calls, field by field. *)
Lemma unregister_state calls k :
  let k' := snd (unregister_all calls k) in
  filter_cleanup_list k'
    = List.filter (fun q => negb (existsb (Pos.eqb q) calls))
        (filter_cleanup_list k) /\
  provider_context_cleanup_list k' = provider_context_cleanup_list k /\
  signal_empty_filter_list k' = signal_empty_filter_list k /\
  wfp_filter_cleanup_event k'
    = wfp_filter_cleanup_event k
      || (signal_empty_filter_list k
          && emptied (filter_cleanup_list k) (filter_cleanup_list k')).
Proof.
  revert k. induction calls as [|p calls IH]; intros k.
  - cbn. rewrite emptied_same, andb_false_r, orb_false_r.
    repeat split. induction (filter_cleanup_list k) as [|q l IHl];
      [reflexivity|]. cbn. now rewrite <- IHl.
  - cbn [unregister_all]. specialize (IH (remove p k)).
    destruct (unregister_all calls (remove p k)) as [fired k'].
    cbn [fst snd] in *. cbn zeta in IH.
    destruct IH as (Hlist & Hproviders & Hflag & Hevent).
    assert (Hfinal :
      filter_cleanup_list k'
        = List.filter (fun q => negb (existsb (Pos.eqb q) (p :: calls)))
            (filter_cleanup_list k)).
    { rewrite Hlist, remove_list, filter_twice.
      apply List.filter_ext. intros q. cbn [existsb].
      now rewrite negb_orb. }
    split; [exact Hfinal|]. split; [exact Hproviders|].
    split; [exact Hflag|].
    rewrite Hevent, remove_event, remove_keeps_flag.
    rewrite <- (emptied_twice (filter_cleanup_list k)
                  (filter_cleanup_list (remove p k))
                  (filter_cleanup_list k')).
    + destruct (wfp_filter_cleanup_event k), (signal_empty_filter_list k);
        reflexivity.
    + apply remove_from_empty.
    + intros Hnone. rewrite Hlist. now apply filter_of_nil_is_nil.
Qed.

Lemma event_stays_set calls k :
  wfp_filter_cleanup_event k = true ->
  wfp_filter_cleanup_event (snd (unregister_all calls k)) = true.
Proof.
  intros Hset. destruct (unregister_state calls k) as (_ & _ & _ & ->).
  now rewrite Hset.
Qed.

(** How many of the calls fire: one when the event goes from not set
    to set over the calls, none otherwise. *)
Lemma unregister_count calls k :
  count_true (fst (unregister_all calls k))
    = if negb (wfp_filter_cleanup_event k)
         && wfp_filter_cleanup_event (snd (unregister_all calls k))
      then 1%nat else 0%nat.
Proof.
  revert k. induction calls as [|p calls IH]; intros k.
  - cbn. now destruct (wfp_filter_cleanup_event k).
  - cbn [unregister_all].
    pose proof (event_stays_set calls (remove p k)) as Hstays.
    specialize (IH (remove p k)).
    destruct (unregister_all calls (remove p k)) as [fired k'].
    cbn [fst snd] in *. unfold count_true in *. cbn [List.filter].
    unfold fires. rewrite (remove_event p k) in *.
    destruct (wfp_filter_cleanup_event k); cbn [negb andb orb] in *.
    + rewrite IH. reflexivity.
    + destruct (signal_empty_filter_list k
                && emptied (filter_cleanup_list k)
                     (filter_cleanup_list (remove p k)));
        cbn [negb andb length] in *.
      * rewrite IH, (Hstays eq_refl). reflexivity.
      * exact IH.
Qed.

Lemma fires_iff p k :
  fires p k = true <->
  wfp_filter_cleanup_event k = false /\
  signal_empty_filter_list k = true /\
  filter_cleanup_list k <> [] /\
  filter_cleanup_list (remove p k) = [].
Proof.
  unfold fires. rewrite andb_true_iff, negb_true_iff, remove_event.
  split.
  - intros [Hclear Hset]. rewrite Hclear in Hset. cbn [orb] in Hset.
    apply andb_true_iff in Hset as [Harmed Hemptied].
    apply emptied_iff in Hemptied. tauto.
  - intros (Hclear & Harmed & Hsome & Hnone).
    rewrite Hclear, Harmed. cbn [orb andb].
    split; [reflexivity|]. apply emptied_iff. tauto.
Qed.

(** C8.  Unregister calls reach the cleanup list one at a time, as its
    lock serializes them, in any order.  After the calls the list holds
    what it held without the filter contexts of the calls, the provider
    list and the signal-empty flag are what they were, and the event is
    set exactly when it was set before or the flag is armed and the
    calls emptied a list that was not empty.  At most one call fires
    the drain signal, that is, finds the event not set and leaves it
    set.  It is the call whose removal empties the list, with the flag
    armed and the event not yet set.  The state at the end and the
    number of calls that fire do not depend on the order of the
    calls. *)
Theorem one_unregister_fires_the_drain_signal calls k :
  let fired := fst (unregister_all calls k) in
  let k' := snd (unregister_all calls k) in
  filter_cleanup_list k'
    = List.filter (fun q => negb (existsb (Pos.eqb q) calls))
        (filter_cleanup_list k) /\
  provider_context_cleanup_list k' = provider_context_cleanup_list k /\
  signal_empty_filter_list k' = signal_empty_filter_list k /\
  wfp_filter_cleanup_event k'
    = wfp_filter_cleanup_event k
      || (signal_empty_filter_list k
          && emptied (filter_cleanup_list k) (filter_cleanup_list k')) /\
  length fired = length calls /\
  (count_true fired <= 1)%nat /\
  (count_true fired = 1%nat <->
   wfp_filter_cleanup_event k = false /\
   signal_empty_filter_list k = true /\
   filter_cleanup_list k <> [] /\
   filter_cleanup_list k' = []) /\
  (forall before p after,
     calls = before ++ p :: after ->
     let k1 := snd (unregister_all before k) in
     let k2 := snd (unregister_all (before ++ [p]) k) in
     nth (length before) fired false
       = negb (wfp_filter_cleanup_event k1) && wfp_filter_cleanup_event k2 /\
     (nth (length before) fired false = true <->
      wfp_filter_cleanup_event k = false /\
      signal_empty_filter_list k = true /\
      filter_cleanup_list k1 <> [] /\
      filter_cleanup_list k2 = [])) /\
  (forall calls',
     Permutation calls calls' ->
     snd (unregister_all calls' k) = k' /\
     count_true (fst (unregister_all calls' k)) = count_true fired).
Proof.
  intros fired k'.
  pose proof (unregister_state calls k) as Hstate. cbn zeta in Hstate.
  fold k' in Hstate. destruct Hstate as (Hlist & Hproviders & Hflag & Hevent).
  pose proof (unregister_count calls k) as Hcount.
  fold fired in Hcount. fold k' in Hcount.
  split; [exact Hlist|]. split; [exact Hproviders|].
  split; [exact Hflag|]. split; [exact Hevent|].
  split; [apply unregister_length|].
  split.
  { rewrite Hcount.
    destruct (wfp_filter_cleanup_event k), (wfp_filter_cleanup_event k');
      cbn; lia. }
  split; [|split].
  - rewrite Hcount, Hevent.
    destruct (wfp_filter_cleanup_event k); cbn [negb andb orb].
    + split; [discriminate|]. intros (Hclear & _). discriminate.
    + destruct (signal_empty_filter_list k); cbn [andb].
      * destruct (emptied (filter_cleanup_list k) (filter_cleanup_list k'))
          eqn:Hemptied.
        -- apply emptied_iff in Hemptied. tauto.
        -- split; [discriminate|]. intros (_ & _ & Hsome & Hnone).
           apply not_true_iff_false in Hemptied.
           contradiction Hemptied. apply emptied_iff. tauto.
      * split; [discriminate|]. intros (_ & Harmed & _). discriminate.
  - intros before p after -> k1 k2.
    assert (Hat : nth (length before) fired false = fires p k1).
    { unfold fired. rewrite unregister_app. cbn [fst].
      rewrite app_nth2 by (rewrite unregister_length; lia).
      rewrite unregister_length, Nat.sub_diag. fold k1.
      cbn [unregister_all].
      now destruct (unregister_all after (remove p k1)). }
    assert (Hnext : k2 = remove p k1).
    { unfold k2. rewrite (unregister_app before [p]). reflexivity. }
    rewrite Hat, Hnext. split; [reflexivity|].
    rewrite fires_iff.
    destruct (unregister_state before k) as (_ & _ & Hflag1 & Hevent1).
    fold k1 in Hflag1, Hevent1. rewrite Hflag1. split.
    + intros (Hclear & Harmed & Hsome & Hnone).
      repeat split; try assumption.
      rewrite Hevent1 in Hclear. now apply orb_false_elim in Hclear.
    + intros (Hclear & Harmed & Hsome & Hnone).
      repeat split; try assumption.
      rewrite Hevent1, Hclear, Harmed. cbn [orb andb].
      apply not_true_iff_false. rewrite emptied_iff. tauto.
  - intros calls' Hsame.
    destruct (unregister_state calls' k)
      as (Hlist' & Hproviders' & Hflag' & Hevent').
    assert (Hlists :
      filter_cleanup_list (snd (unregister_all calls' k))
        = filter_cleanup_list k').
    { rewrite Hlist, Hlist'. apply List.filter_ext. intros q. f_equal.
      apply eq_true_iff_eq. rewrite !existsb_exists.
      split; intros (x & Hin & Heq); exists x; split; try assumption.
      - now apply (Permutation_in x (Permutation_sym Hsame)).
      - now apply (Permutation_in x Hsame). }
    assert (Hstates : snd (unregister_all calls' k) = k').
    { apply cleanup_state_eq;
        first [congruence|rewrite Hevent', Hevent, Hlists; reflexivity]. }
    split; [exact Hstates|].
    rewrite Hcount, unregister_count, Hstates. reflexivity.
Qed.

End Cleanup.

(** ** The privileged security descriptor *)

Section Privilege.

Import Security.

Context {subject_context : Type}.
Variable SeAccessCheck :
  option SECURITY_DESCRIPTOR -> subject_context -> bool -> ACCESS_MASK ->
  ACCESS_MASK -> Z * Z * Z * Z -> KPROCESSOR_MODE ->
  bool * ACCESS_MASK * NTSTATUS.

Lemma build_outcome k d :
  let status := fst (_ebpf_driver_build_privileged_security_descriptor k d) in
  let d' := snd (_ebpf_driver_build_privileged_security_descriptor k d) in
  _ebpf_driver_unloading_flag d' = _ebpf_driver_unloading_flag d /\
  core_running d' = core_running d /\
  if Entry.build_answers_well k
  then status = RtlAbsoluteToSelfRelativeSD_status k /\
       NT_SUCCESS status = true /\
       ebpf_execution_context_privileged_security_descriptor d'
         = Some privileged_descriptor /\
       pool_blocks d' = pool_blocks d + 1
  else ebpf_execution_context_privileged_security_descriptor d'
         = ebpf_execution_context_privileged_security_descriptor d /\
       pool_blocks d' = pool_blocks d /\
       (NT_SUCCESS status = true -> status = size_query_status k).
Proof.
  unfold _ebpf_driver_build_privileged_security_descriptor, build_body,
    Entry.build_answers_well.
  destruct (sid_allocated k); cbn [negb andb];
    [|cbn; repeat split; discriminate].
  destruct (NT_SUCCESS (RtlInitializeSid_status k)) eqn:H1; cbn [negb andb];
    [|cbn; repeat split; try lia; congruence].
  destruct (NT_SUCCESS (RtlCreateSecurityDescriptor_status k)) eqn:H2;
    cbn [negb andb]; [|cbn; repeat split; try lia; congruence].
  destruct (dacl_allocated k); cbn [negb andb];
    [|cbn; repeat split; try lia; discriminate].
  destruct (NT_SUCCESS (RtlCreateAcl_status k)) eqn:H3; cbn [negb andb];
    [|cbn; repeat split; try lia; congruence].
  destruct (NT_SUCCESS (RtlAddAccessAllowedAce_status k)) eqn:H4;
    cbn [negb andb]; [|cbn; repeat split; try lia; congruence].
  destruct (NT_SUCCESS (RtlSetDaclSecurityDescriptor_status k)) eqn:H5;
    cbn [negb andb]; [|cbn; repeat split; try lia; congruence].
  destruct (Z.eqb_spec (size_query_status k) STATUS_BUFFER_TOO_SMALL);
    cbn [negb andb]; [|cbn; repeat split; try lia; congruence].
  destruct (descriptor_allocated k); cbn [negb andb];
    [|cbn; repeat split; try lia; discriminate].
  destruct (NT_SUCCESS (RtlAbsoluteToSelfRelativeSD_status k)) eqn:H6;
    cbn [negb andb]; cbn; repeat split; try lia; congruence.
Qed.

(** If the access check grants every request that is made in
    KernelMode, every caller is privileged, whatever the descriptor
    holds: the driver asks in KernelMode. *)
Remark kernel_mode_grant_lets_everyone_in :
  (forall descriptor subject,
     SeAccessCheck descriptor subject false GENERIC_ALL 0 (1, 1, 1, 1)
       KernelMode = (true, GENERIC_ALL, STATUS_SUCCESS)) ->
  forall d subject,
    _ebpf_driver_is_caller_privileged SeAccessCheck d subject = true.
Proof.
  intros Hgrants d subject. unfold _ebpf_driver_is_caller_privileged.
  now rewrite Hgrants.
Qed.


End Privilege.

(** ** Concrete runs *)

(** An async command stays pending; the caller cancels, the
    cancellation path completes it as cancelled, and the late result of
    the handler path and a second cancel request change nothing. *)
Lemma exactly_one_completion_witness :
  exists c0,
    arrive (Sample.channel (Sample.header 4) (repeat 0 16) true)
      16 8 IOCTL_EBPF_CTL_METHOD_BUFFERED Sample.idle = inl c0 /\
    Bridge.state c0 = Active /\
    completions
      (request
         (world_of
            (run (Sample.channel (Sample.header 4) (repeat 0 16) true)
               [CancelRequest;
                ReachCompletion CancellationPath 0 Sample.CANCELED;
                ReachCompletion HandlerPath 16 Sample.SUCCESS;
                CancelRequest] c0)))
      = [(STATUS_CANCELLED, 0)].
Proof.
  eexists. split; [reflexivity|]. split; [reflexivity|].
  pose proof (exactly_one_completion
                (Sample.channel (Sample.header 4) (repeat 0 16) true)
                16 8 IOCTL_EBPF_CTL_METHOD_BUFFERED Sample.idle
                [CancelRequest;
                 ReachCompletion CancellationPath 0 Sample.CANCELED;
                 ReachCompletion HandlerPath 16 Sample.SUCCESS;
                 CancelRequest] eq_refl eq_refl) as Hone.
  destruct Hone as (_ & _ & _ & Hfirst & _).
  exact (Hfirst eq_refl).
Defined.

Lemma remove_takes_off_the_list p k :
  NetExt.removes p (NetExt.filter_cleanup_list k)
    (NetExt.filter_cleanup_list
       (NetExt.net_ebpf_ext_remove_filter_context_from_cleanup_list p k)).
Proof.
  unfold NetExt.removes,
    NetExt.net_ebpf_ext_remove_filter_context_from_cleanup_list.
  cbn [NetExt.filter_cleanup_list]. split.
  - rewrite List.filter_In, negb_true_iff, Pos.eqb_neq. tauto.
  - intros q. rewrite List.filter_In. tauto.
Qed.


Lemma finalization_unlinks_before_it_frees_witness :
  (exists s',
     Hook.clean_up (Some Hook.context_address) Hook.teardown = Some s' /\
     NetExt.effects s'
       = [NetExt.RemoveFromCleanupList Hook.context_address;
          NetExt.FreeFilterIds Hook.context_address;
          NetExt.FreeClientContexts Hook.context_address;
          NetExt.EngineClose Hook.engine_handle;
          NetExt.FreeFilterContext Hook.context_address] /\
     NetExt.pool s' !! Hook.context_address = None /\
     ~ In Hook.context_address
         (NetExt.filter_cleanup_list (NetExt.cleanup s'))) /\
  (exists s',
     Hook.dereference (Some Hook.context_address) Hook.teardown = Some s' /\
     NetExt.effects s'
       = [NetExt.LeaveRundown Hook.provider_address;
          NetExt.RemoveFromCleanupList Hook.context_address;
          NetExt.FreeFilterIds Hook.context_address;
          NetExt.FreeClientContexts Hook.context_address;
          NetExt.EngineClose Hook.engine_handle;
          NetExt.FreeFilterContext Hook.context_address] /\
     NetExt.pool s' !! Hook.context_address = None /\
     ~ In Hook.context_address
         (NetExt.filter_cleanup_list (NetExt.cleanup s'))).
Proof.
  destruct (finalization_unlinks_before_it_frees
              NetExt.net_ebpf_ext_remove_filter_context_from_cleanup_list
              NetExt.net_ebpf_extension_hook_provider_leave_rundown
              Hook.context_address Hook.deleting_context Hook.teardown)
    as (Hdirect & Hlast & _).
  - intros k. apply remove_takes_off_the_list.
  - apply lookup_singleton_eq.
  - intros q [<-|[]]. exists Hook.deleting_context.
    apply lookup_singleton_eq.
  - split.
    + destruct Hdirect as (s' & Hrun & Heffects & Hgone & Hoff & _).
      exists s'. repeat split; assumption.
    + destruct (Hlast eq_refl) as (s' & Hrun & Heffects & Hgone & Hoff & _).
      exists s'. repeat split; assumption.
Defined.

Lemma attach_fails_when_the_client_array_is_full_witness :
  exists c',
    NetExt.attach_all (Hook.clients 16)
      (NetExt.create 16 Hook.provider_address)
      = (repeat NetExt.EBPF_SUCCESS 16, c') /\
    NetExt.client_context_count c' = 16 /\
    NetExt.client_context_count_max c' = 16 /\
    NetExt.net_ebpf_ext_add_client_context c' Hook.client_address
      = (NetExt.EBPF_NO_MEMORY, c').
Proof.
  apply (attach_fails_when_the_client_array_is_full
           (NetExt.create 16 Hook.provider_address) (Hook.clients 16)
           Hook.client_address).
  - apply create_well_formed.
  - reflexivity.
Defined.

(** With room for one client, the second attach fails. *)
Example single_attach_is_full_after_one :
  fst (NetExt.attach_all (Hook.clients 2)
         (NetExt.create 1 Hook.provider_address))
    = [NetExt.EBPF_SUCCESS; NetExt.EBPF_NO_MEMORY].
Proof. reflexivity. Qed.

(** Three filter contexts are unregistered in the order 2, 3, 1 while the
    drain is armed: the last call fires. *)
Example drain_fires_on_the_last_unregister :
  NetExt.unregister_all [2%positive; 3%positive; 1%positive]
    (NetExt.mk_cleanup_state [] [1%positive; 2%positive; 3%positive] true false)
  = ([false; false; true], NetExt.mk_cleanup_state [] [] true true).
Proof. reflexivity. Qed.



(** The SID that the driver builds has the identifier authority 80 and
    five sub-authorities; the SID in the comments of the source,
    S-1-5-80-..., has the identifier authority 5 and the sub-authority 80
    in front of the same five. *)
Remark service_sid_as_built :
  Security.service_sid
    = Security.mk_sid 1 [0; 0; 0; 0; 0; 80]
        [3453964624; 2861012444; 1105579853; 3193141192; 1897355174] /\
  Security.service_sid <> Security.documented_service_sid.
Proof. split; [reflexivity|discriminate]. Qed.

(** The device control code of the command channel. *)
Example ioctl_code : IOCTL_EBPF_CTL_METHOD_BUFFERED = 0x122400.
Proof. reflexivity. Qed.

(** * Further properties of the sources *)

(** ** The dispatcher: the other ways out *)

Section DispatchEdges.

Context {ebpf_result_t operation_id buffer core_state : Type}.
Variable env : @environment ebpf_result_t operation_id buffer core_state.
Implicit Type w : @world operation_id core_state.

Lemma failure_is_not_pending status :
  NT_SUCCESS status = false -> status <> STATUS_PENDING.
Proof.
  unfold NT_SUCCESS. intros Hfailure ->. discriminate.
Qed.

(** X1. A request with another control code than
    IOCTL_EBPF_CTL_METHOD_BUFFERED is completed with
    STATUS_INVALID_DEVICE_REQUEST at once: the dispatcher looks at no
    buffer, asks the handler table nothing and calls no handler,
    whatever the lengths are. *)
Theorem unknown_control_code_is_refused out_len in_len code w :
  code <> IOCTL_EBPF_CTL_METHOD_BUFFERED ->
  _ebpf_driver_io_device_control env out_len in_len code w
    = Returned tt (completed STATUS_INVALID_DEVICE_REQUEST out_len w).
Proof.
  intros Hcode.
  rewrite (dispatch_from_body env _ _ _ _ _ _ _
             (body_unknown_code env out_len in_len code w Hcode)).
  now apply done_not_acquired.
Qed.

Lemma body_retrieval_failed out_len in_len status input_buffer alen w :
  in_len <> 0 ->
  WdfRequestRetrieveInputBuffer env in_len = (status, input_buffer, alen) ->
  NT_SUCCESS status = false ->
  io_device_control_body env out_len in_len IOCTL_EBPF_CTL_METHOD_BUFFERED w
    = Returned (status, false) (add_trace [RetrieveInputBuffer in_len] w).
Proof.
  intros Hlen Hin Hfailure. unfold io_device_control_body.
  rewrite Z.eqb_refl.
  destruct (Z.eqb_spec in_len 0) as [|_]; [contradiction|].
  cbn [negb]. unfold bind at 1. cbn [record].
  rewrite Hin, Hfailure. reflexivity.
Qed.

Lemma body_null_input out_len in_len status alen w :
  in_len <> 0 ->
  WdfRequestRetrieveInputBuffer env in_len = (status, None, alen) ->
  NT_SUCCESS status = true ->
  io_device_control_body env out_len in_len IOCTL_EBPF_CTL_METHOD_BUFFERED w
    = Returned (STATUS_INVALID_PARAMETER, false)
        (add_trace [RetrieveInputBuffer in_len] w).
Proof.
  intros Hlen Hin Hok. unfold io_device_control_body.
  rewrite Z.eqb_refl.
  destruct (Z.eqb_spec in_len 0) as [|_]; [contradiction|].
  cbn [negb]. unfold bind at 1. cbn [record].
  rewrite Hin, Hok. reflexivity.
Qed.

(** X2. When the input buffer cannot be retrieved, the request is
    completed with the status of the retrieval; when the retrieval
    succeeds with a NULL buffer, it is completed with
    STATUS_INVALID_PARAMETER, whatever length is reported.  Either way
    the only call before the completion is the retrieval. *)
Theorem input_retrieval_failure_is_returned out_len in_len status
    input_buffer alen w :
  in_len <> 0 ->
  WdfRequestRetrieveInputBuffer env in_len = (status, input_buffer, alen) ->
  (NT_SUCCESS status = false ->
   _ebpf_driver_io_device_control env out_len in_len
     IOCTL_EBPF_CTL_METHOD_BUFFERED w
   = Returned tt
       (completed status out_len
          (add_trace [RetrieveInputBuffer in_len] w))) /\
  (NT_SUCCESS status = true -> input_buffer = None ->
   _ebpf_driver_io_device_control env out_len in_len
     IOCTL_EBPF_CTL_METHOD_BUFFERED w
   = Returned tt
       (completed STATUS_INVALID_PARAMETER out_len
          (add_trace [RetrieveInputBuffer in_len] w))).
Proof.
  intros Hlen Hin. split.
  - intros Hfailure.
    rewrite (dispatch_from_body env _ _ _ _ _ _ _
               (body_retrieval_failed _ _ _ _ _ w Hlen Hin Hfailure)).
    apply done_not_acquired. now apply failure_is_not_pending.
  - intros Hok ->.
    rewrite (dispatch_from_body env _ _ _ _ _ _ _
               (body_null_input out_len _ _ _ w Hlen Hin Hok)).
    now apply done_not_acquired.
Qed.

Lemma body_unknown_operation out_len in_len status user_request alen result
    properties w :
  in_len <> 0 ->
  WdfRequestRetrieveInputBuffer env in_len
    = (status, Some user_request, alen) ->
  NT_SUCCESS status = true ->
  sizeof_ebpf_operation_header env <= alen ->
  ebpf_core_get_protocol_handler_properties env (header_id env user_request)
    = (result, properties) ->
  ebpf_result_to_ntstatus env result <> STATUS_SUCCESS ->
  io_device_control_body env out_len in_len IOCTL_EBPF_CTL_METHOD_BUFFERED w
    = Returned (ebpf_result_to_ntstatus env result, false)
        (add_trace [RetrieveInputBuffer in_len;
                    GetHandlerProperties (header_id env user_request)] w).
Proof.
  intros Hlen Hin Hok Hsize Hprop Hunknown. unfold io_device_control_body.
  rewrite Z.eqb_refl.
  destruct (Z.eqb_spec in_len 0) as [|_]; [contradiction|].
  cbn [negb]. unfold bind at 1. cbn [record].
  rewrite Hin, Hok. cbn [negb].
  destruct (Z.ltb_spec alen (sizeof_ebpf_operation_header env)); [lia|].
  unfold bind at 1. cbn [record]. rewrite Hprop.
  destruct (Z.eqb_spec (ebpf_result_to_ntstatus env result) STATUS_SUCCESS);
    [contradiction|].
  cbn [negb ret request core trace]. unfold add_trace.
  now rewrite <- app_assoc.
Qed.

(** X3. When the handler table does not answer STATUS_SUCCESS for the
    operation of the header, the dispatcher stops there: the privilege
    flag it may have been handed is not acted on, no output buffer is
    retrieved and no handler is called.  The request is completed with
    the status of the lookup, unless that status is STATUS_PENDING, in
    which case the dispatcher leaves the request uncompleted. *)
Theorem unknown_operation_is_not_dispatched out_len in_len status
    user_request alen result properties w :
  in_len <> 0 ->
  WdfRequestRetrieveInputBuffer env in_len
    = (status, Some user_request, alen) ->
  NT_SUCCESS status = true ->
  sizeof_ebpf_operation_header env <= alen ->
  ebpf_core_get_protocol_handler_properties env (header_id env user_request)
    = (result, properties) ->
  ebpf_result_to_ntstatus env result <> STATUS_SUCCESS ->
  let looked_up :=
    add_trace [RetrieveInputBuffer in_len;
               GetHandlerProperties (header_id env user_request)] w in
  _ebpf_driver_io_device_control env out_len in_len
    IOCTL_EBPF_CTL_METHOD_BUFFERED w
  = Returned tt
      (if ebpf_result_to_ntstatus env result =? STATUS_PENDING
       then looked_up
       else completed (ebpf_result_to_ntstatus env result) out_len looked_up).
Proof.
  intros Hlen Hin Hok Hsize Hprop Hunknown looked_up.
  rewrite (dispatch_from_body env _ _ _ _ _ _ _
             (body_unknown_operation out_len _ _ _ _ _ _ w
                Hlen Hin Hok Hsize Hprop Hunknown)).
  destruct (Z.eqb_spec (ebpf_result_to_ntstatus env result) STATUS_PENDING)
    as [->|Hpending].
  - apply done_pending.
  - now apply done_not_acquired.
Qed.

Lemma reply_stage_failed out_len properties status output_buffer olen w :
  0 < minimum_reply_size properties ->
  WdfRequestRetrieveOutputBuffer env out_len = (status, output_buffer, olen) ->
  NT_SUCCESS status = false \/ output_buffer = None ->
  retrieve_reply env out_len properties w
    = Returned
        (inl (if NT_SUCCESS status then STATUS_INVALID_PARAMETER else status))
        (add_trace [RetrieveOutputBuffer out_len] w).
Proof.
  intros Hmin Hout Hbad. unfold retrieve_reply.
  destruct (Z.ltb_spec 0 (minimum_reply_size properties)); [|lia].
  unfold bind at 1. cbn [record]. rewrite Hout.
  destruct (NT_SUCCESS status); cbn [negb]; [|reflexivity].
  destruct Hbad as [?| ->]; [discriminate|reflexivity].
Qed.

(** X4. For a command that expects a reply and passed the privilege
    stage: when the output buffer cannot be retrieved, the request is
    completed with the status of the retrieval, and when the retrieval
    yields a NULL buffer, with STATUS_INVALID_PARAMETER.  The handler is
    not called and the execution context is left as it was. *)
Theorem output_retrieval_failure_is_returned out_len in_len user_request
    alen properties status output_buffer olen w :
  has_descriptor env in_len user_request alen properties ->
  privilege_granted env properties ->
  0 < minimum_reply_size properties ->
  WdfRequestRetrieveOutputBuffer env out_len = (status, output_buffer, olen) ->
  NT_SUCCESS status = false \/ output_buffer = None ->
  _ebpf_driver_io_device_control env out_len in_len
    IOCTL_EBPF_CTL_METHOD_BUFFERED w
  = Returned tt
      (completed
         (if NT_SUCCESS status then STATUS_INVALID_PARAMETER else status)
         out_len
         (add_trace
            ([RetrieveInputBuffer in_len;
              GetHandlerProperties (header_id env user_request)]
             ++ privilege_calls properties
             ++ [RetrieveOutputBuffer out_len]) w)).
Proof.
  intros Hdesc Hgranted Hmin Hout Hbad.
  pose proof (body_with_descriptor env out_len _ _ _ _ w Hdesc) as Hbody.
  rewrite (handle_granted env _ _ _ _ _ Hgranted) in Hbody.
  unfold bind at 1 in Hbody.
  rewrite (reply_stage_failed _ _ _ _ _ _ Hmin Hout Hbad) in Hbody.
  cbn [ret] in Hbody.
  rewrite (dispatch_from_body env _ _ _ _ _ _ _ Hbody).
  rewrite done_not_acquired.
  - unfold completed, add_trace. cbn [request core trace].
    now rewrite <- !app_assoc.
  - destruct (NT_SUCCESS status) eqn:Hstatus; [discriminate|].
    now apply failure_is_not_pending.
Qed.

Lemma body_handled out_len in_len user_request alen properties user_reply
    olen result core' w :
  has_descriptor env in_len user_request alen properties ->
  privilege_granted env properties ->
  reply_accepted env out_len properties user_reply olen ->
  ebpf_core_invoke_protocol_handler env (header_id env user_request)
    user_request (to_uint16 alen) user_reply (to_uint16 olen)
    (async properties) (core w) = (result, core') ->
  io_device_control_body env out_len in_len IOCTL_EBPF_CTL_METHOD_BUFFERED w
    = Returned (ebpf_result_to_ntstatus env result, async properties)
        (handled env in_len out_len user_request alen properties user_reply olen
           core' w).
Proof.
  intros Hdesc Hgranted Hreply Hcall.
  rewrite (body_with_descriptor env _ _ _ _ _ _ Hdesc).
  rewrite (handle_granted env _ _ _ _ _ Hgranted).
  unfold bind at 1.
  rewrite (reply_stage_accepted env _ _ _ _ _ Hreply).
  rewrite (invoke_stage env _ _ _ _ _ result core') by exact Hcall.
  unfold handled, add_trace. cbn [request core trace].
  now rewrite <- !app_assoc.
Qed.

(** X5. A command that is not async reaches its handler without a
    reference and without a cancel routine, and the handler is called
    once.  The request is completed with the status of the handler,
    success or failure, and with the output buffer length as
    information; when the handler answers STATUS_PENDING the dispatcher
    returns without completing the request. *)
Theorem synchronous_result_is_passed_on out_len in_len user_request alen
    properties user_reply olen result core' w :
  has_descriptor env in_len user_request alen properties ->
  privilege_granted env properties ->
  reply_accepted env out_len properties user_reply olen ->
  async properties = false ->
  ebpf_core_invoke_protocol_handler env (header_id env user_request)
    user_request (to_uint16 alen) user_reply (to_uint16 olen) false (core w)
    = (result, core') ->
  let answered :=
    handled env in_len out_len user_request alen properties user_reply olen
      core' w in
  request answered = request w /\
  handler_invocations (trace answered) = S (handler_invocations (trace w)) /\
  _ebpf_driver_io_device_control env out_len in_len
    IOCTL_EBPF_CTL_METHOD_BUFFERED w
  = Returned tt
      (if ebpf_result_to_ntstatus env result =? STATUS_PENDING
       then answered
       else completed (ebpf_result_to_ntstatus env result) out_len answered).
Proof.
  intros Hdesc Hgranted Hreply Hsync Hcall answered.
  split; [|split].
  - unfold answered, handled, request_at_invoke. now rewrite Hsync.
  - unfold answered, handled. cbn [trace].
    rewrite !invocations_app.
    destruct (privilege_calls_quiet (operation_id:=operation_id) properties)
      as [-> _].
    destruct (invoke_calls_count env user_request alen properties user_reply
                olen) as [-> _].
    unfold reply_calls. destruct (0 <? minimum_reply_size properties);
      cbn; lia.
  - rewrite <- Hsync in Hcall.
    rewrite (dispatch_from_body env _ _ _ _ _ _ _
               (body_handled out_len _ _ _ _ _ _ _ _ w
                  Hdesc Hgranted Hreply Hcall)).
    rewrite Hsync.
    destruct (Z.eqb_spec (ebpf_result_to_ntstatus env result) STATUS_PENDING)
      as [->|Hpending].
    + apply done_pending.
    + now apply done_not_acquired.
Qed.

(** X6. An async command whose handler answers STATUS_PENDING leaves
    the dispatcher uncompleted, with one reference more and a cancel
    routine registered.  The completion callback then gives the
    reference back, unregisters the cancel routine and completes the
    request once, with its own result and its own length as
    information. *)
Theorem pending_command_is_completed_by_the_callback out_len in_len
    user_request alen properties user_reply olen result core' w
    reply_length final_result :
  has_descriptor env in_len user_request alen properties ->
  privilege_granted env properties ->
  reply_accepted env out_len properties user_reply olen ->
  async properties = true ->
  ebpf_core_invoke_protocol_handler env (header_id env user_request)
    user_request (to_uint16 alen) user_reply (to_uint16 olen) true (core w)
    = (result, core') ->
  ebpf_result_to_ntstatus env result = STATUS_PENDING ->
  exists pending completed_request,
    _ebpf_driver_io_device_control env out_len in_len
      IOCTL_EBPF_CTL_METHOD_BUFFERED w = Returned tt pending /\
    request pending
      = mk_request (reference_count (request w) + 1) true
          (completions (request w)) /\
    _ebpf_driver_io_device_control_complete env reply_length final_result
      pending = Returned tt completed_request /\
    reference_count (request completed_request)
      = reference_count (request w) /\
    cancelable (request completed_request) = false /\
    completions (request completed_request)
      = completions (request w)
        ++ [(ebpf_result_to_ntstatus env final_result, reply_length)] /\
    core completed_request = core'.
Proof.
  intros Hdesc Hgranted Hreply Hasync Hcall Hpending.
  rewrite <- Hasync in Hcall.
  pose proof (body_handled out_len _ _ _ _ _ _ _ _ w
                Hdesc Hgranted Hreply Hcall) as Hbody.
  rewrite Hpending in Hbody.
  eexists _, _. split.
  - rewrite (dispatch_from_body env _ _ _ _ _ _ _ Hbody). apply done_pending.
  - split.
    + unfold handled, request_at_invoke. cbn [request]. now rewrite Hasync.
    + split; [apply complete_callback|].
      unfold handled, request_at_invoke.
      cbn [request core reference_count cancelable completions].
      rewrite Hasync. cbn [reference_count completions].
      repeat split. lia.
Qed.

(** Up to the label [Done]: nothing is completed, the handler is
    called once at most, and the request is touched only to take the
    reference and the cancel routine of an async command. *)
Lemma body_accounting out_len in_len code w :
  match io_device_control_body env out_len in_len code w with
  | Returned (status, acquired) w1 =>
      (handler_invocations (trace w1)
       <= S (handler_invocations (trace w)))%nat /\
      if acquired
      then request w1
           = mk_request (reference_count (request w) + 1) true
               (completions (request w))
      else request w1 = request w
  | AssertionFailed _ => False
  end.
Proof.
  unfold io_device_control_body, handle_operation, retrieve_reply,
    invoke_operation.
  run.
  unfold handler_invocations.
  repeat (case_match; run; simplify_eq);
    cbn; rewrite ?List.filter_app, ?length_app; cbn; (split; [lia|]);
    try reflexivity; try congruence.
Qed.

(** X7. Whatever the request and whatever the kernel and the execution
    context answer, one run of the dispatcher calls the handler once at
    most and ends in one of three ways.  Either it completed the
    request once, with a status other than STATUS_PENDING and the
    output buffer length as information, and holds no reference of its
    own; or it completed nothing and left the request as it was; or it
    completed nothing and left one reference and a cancel routine
    behind.  It stops at its assertion only in the last of these
    states. *)
Theorem dispatcher_accounting out_len in_len code w :
  match _ebpf_driver_io_device_control env out_len in_len code w with
  | Returned _ w' =>
      (handler_invocations (trace w')
       <= S (handler_invocations (trace w)))%nat /\
      ((exists status,
          status <> STATUS_PENDING /\
          completions (request w')
            = completions (request w) ++ [(status, out_len)] /\
          reference_count (request w') = reference_count (request w)) \/
       request w' = request w \/
       request w'
         = mk_request (reference_count (request w) + 1) true
             (completions (request w)))
  | AssertionFailed w' =>
      request w'
        = mk_request (reference_count (request w) + 1) true
            (completions (request w))
  end.
Proof.
  unfold _ebpf_driver_io_device_control, bind.
  pose proof (body_accounting out_len in_len code w) as Hbody.
  destruct (io_device_control_body env out_len in_len code w)
    as [[status acquired] w1|w1]; [|contradiction].
  destruct Hbody as [Hcalls Hrequest]. cbn [fst snd].
  unfold io_device_control_done.
  destruct (Z.eqb_spec status STATUS_PENDING) as [->|Hpending]; cbn [negb].
  - cbn [ret]. split; [exact Hcalls|].
    destruct acquired; [right; right|right; left]; exact Hrequest.
  - destruct acquired.
    + run. destruct (Z.eqb_spec status STATUS_SUCCESS) as [->|Hfailure];
        cbn [negb]; [exact Hrequest|].
      cbn [trace request reference_count cancelable completions]. split.
      * rewrite !invocations_app. cbn. lia.
      * left. exists status. rewrite Hrequest. cbn.
        repeat split; [assumption|lia].
    + run. cbn [trace request reference_count cancelable completions].
      split.
      * rewrite !invocations_app. cbn. lia.
      * left. exists status. rewrite Hrequest. now repeat split.
Qed.

Lemma done_keeps_trace out_len status acquired w (c : call operation_id) :
  In c (trace w) ->
  In c (trace (outcome_world (io_device_control_done out_len status acquired w))).
Proof.
  intros Hin. unfold io_device_control_done.
  destruct (negb (status =? STATUS_PENDING)); [|exact Hin].
  destruct acquired; run.
  - destruct (negb (status =? STATUS_SUCCESS)); cbn [outcome_world trace];
      [|exact Hin].
    rewrite !in_app_iff. tauto.
  - cbn [outcome_world trace]. rewrite !in_app_iff. tauto.
Qed.

(** X8. The lengths that the handler is told are the buffer lengths
    cut to 16 bits, while the checks before the call compare the whole
    lengths.  A command whose input buffer holds 64 KiB or more passes
    the header check and reaches its handler with a length that is
    below 64 KiB and below the length of the buffer. *)
Theorem handler_is_told_lengths_modulo_65536 out_len in_len user_request alen
    properties user_reply olen w :
  has_descriptor env in_len user_request alen properties ->
  privilege_granted env properties ->
  reply_accepted env out_len properties user_reply olen ->
  65536 <= alen ->
  exists told,
    told = alen mod 65536 /\ 0 <= told < 65536 /\ told < alen /\
    In (InvokeHandler (header_id env user_request) told (olen mod 65536)
          (bool_decide (is_Some user_reply)) (async properties))
       (trace (outcome_world
                 (_ebpf_driver_io_device_control env out_len in_len
                    IOCTL_EBPF_CTL_METHOD_BUFFERED w))).
Proof.
  intros Hdesc Hgranted Hreply Hlong.
  exists (alen mod 65536).
  pose proof (Z.mod_pos_bound alen 65536 ltac:(lia)) as Hbound.
  split; [reflexivity|]. split; [exact Hbound|]. split; [lia|].
  destruct (ebpf_core_invoke_protocol_handler env (header_id env user_request)
              user_request (to_uint16 alen) user_reply (to_uint16 olen)
              (async properties) (core w)) as [result core'] eqn:Hcall.
  rewrite (dispatch_from_body env _ _ _ _ _ _ _
             (body_handled out_len _ _ _ _ _ _ _ _ w
                Hdesc Hgranted Hreply Hcall)).
  apply done_keeps_trace. unfold handled, invoke_calls. cbn [trace].
  rewrite !in_app_iff. do 4 right. right. left. reflexivity.
Qed.

End DispatchEdges.

(** ** The control code *)

Section ControlCode.

Lemma bits_above x k n : 0 <= x < 2 ^ k -> k <= n -> Z.testbit x n = false.
Proof.
  intros [Hlow Hhigh] Hn.
  destruct (Z.eq_dec x 0) as [->|Hx]; [apply Z.bits_0|].
  apply Z.bits_above_log2; [lia|].
  assert (0 <= k).
  { destruct (Z.lt_ge_cases k 0); [|lia].
    rewrite Z.pow_neg_r in Hhigh by lia. lia. }
  apply Z.lt_le_trans with k; [|lia]. apply Z.log2_lt_pow2; lia.
Qed.

Lemma CTL_CODE_bits d f m a n :
  0 <= n ->
  Z.testbit (CTL_CODE d f m a) n
    = Z.testbit d (n - 16) || Z.testbit a (n - 14) || Z.testbit f (n - 2)
      || Z.testbit m n.
Proof.
  intros Hn. unfold CTL_CODE.
  now rewrite !Z.lor_spec, !Z.shiftl_spec by lia.
Qed.

Lemma CTL_CODE_fields d f m a :
  0 <= d -> 0 <= a < 4 -> 0 <= f < 4096 -> 0 <= m < 4 ->
  Z.shiftr (CTL_CODE d f m a) 16 = d /\
  Z.land (Z.shiftr (CTL_CODE d f m a) 14) 3 = a /\
  Z.land (Z.shiftr (CTL_CODE d f m a) 2) 4095 = f /\
  Z.land (CTL_CODE d f m a) 3 = m.
Proof.
  intros Hd Ha Hf Hm.
  change 4 with (2 ^ 2) in Ha, Hm. change 4096 with (2 ^ 12) in Hf.
  change 3 with (Z.ones 2). change 4095 with (Z.ones 12).
  repeat split; apply Z.bits_inj'; intros n Hn;
    rewrite ?Z.land_spec, ?Z.shiftr_spec, ?CTL_CODE_bits by lia.
  - replace (n + 16 - 16) with n by lia.
    rewrite (bits_above a 2), (bits_above f 12), (bits_above m 2)
      by (try assumption; lia).
    now rewrite !orb_false_r.
  - destruct (Z.ltb_spec n 2).
    + rewrite Z.ones_spec_low by lia.
      rewrite (Z.testbit_neg_r d), (bits_above f 12), (bits_above m 2)
        by (try assumption; lia).
      replace (n + 14 - 14) with n by lia.
      now rewrite andb_true_r, !orb_false_r.
    + rewrite Z.ones_spec_high by lia.
      rewrite (bits_above a 2 n) by (try assumption; lia).
      apply andb_false_r.
  - destruct (Z.ltb_spec n 12).
    + rewrite Z.ones_spec_low by lia.
      rewrite (Z.testbit_neg_r d), (Z.testbit_neg_r a), (bits_above m 2)
        by (try assumption; lia).
      replace (n + 2 - 2) with n by lia.
      now rewrite andb_true_r, !orb_false_r.
    + rewrite Z.ones_spec_high by lia.
      rewrite (bits_above f 12 n) by (try assumption; lia).
      apply andb_false_r.
  - destruct (Z.ltb_spec n 2).
    + rewrite Z.ones_spec_low by lia.
      rewrite (Z.testbit_neg_r d), (Z.testbit_neg_r a), (Z.testbit_neg_r f)
        by lia.
      now rewrite andb_true_r.
    + rewrite Z.ones_spec_high by lia.
      rewrite (bits_above m 2 n) by (try assumption; lia).
      apply andb_false_r.
Qed.

(** X9. [CTL_CODE] packs its four fields without loss: for a device
    type of fifteen bits, an access and a method of two bits and a
    function of twelve bits, the code is a positive 32-bit integer,
    and each field is read back from it by the shift and the mask of
    its place. *)
Theorem CTL_CODE_fields_are_read_back d f m a :
  0 <= d < 32768 -> 0 <= a < 4 -> 0 <= f < 4096 -> 0 <= m < 4 ->
  0 <= CTL_CODE d f m a < 2 ^ 31 /\
  Z.shiftr (CTL_CODE d f m a) 16 = d /\
  Z.land (Z.shiftr (CTL_CODE d f m a) 14) 3 = a /\
  Z.land (Z.shiftr (CTL_CODE d f m a) 2) 4095 = f /\
  Z.land (CTL_CODE d f m a) 3 = m.
Proof.
  intros Hd Ha Hf Hm.
  pose proof (CTL_CODE_fields d f m a ltac:(lia) Ha Hf Hm) as Hfields.
  split; [|exact Hfields]. destruct Hfields as (Htype & _).
  assert (0 <= CTL_CODE d f m a) as Hpositive
    by (apply (Z.shiftr_nonneg _ 16); lia).
  split; [exact Hpositive|].
  rewrite Z.shiftr_div_pow2 in Htype by lia.
  change (2 ^ 16) with 65536 in Htype. change (2 ^ 31) with 2147483648.
  revert Htype. generalize (CTL_CODE d f m a). intros code Htype.
  Z.to_euclidean_division_equations. lia.
Qed.

End ControlCode.

(** ** The descriptor build, step by step *)

Section Build.

Import Security Entry.

(** X10. The descriptor build is all or nothing.  When every
    allocation yields memory, every Rtl call succeeds and the size
    query answers STATUS_BUFFER_TOO_SMALL, the global holds the new
    descriptor in one pool block and the build reports success.  In
    every other case the global is what it was and every block that
    the build allocated is freed again.  The build then reports a
    failure, except when the size query itself answered with a success
    status: that status is returned, and no descriptor is built. *)
Theorem build_is_all_or_nothing k d :
  let status := fst (_ebpf_driver_build_privileged_security_descriptor k d) in
  let d' := snd (_ebpf_driver_build_privileged_security_descriptor k d) in
  _ebpf_driver_unloading_flag d' = _ebpf_driver_unloading_flag d /\
  core_running d' = core_running d /\
  if build_answers_well k
  then status = RtlAbsoluteToSelfRelativeSD_status k /\
       NT_SUCCESS status = true /\
       ebpf_execution_context_privileged_security_descriptor d'
         = Some privileged_descriptor /\
       pool_blocks d' = pool_blocks d + 1
  else ebpf_execution_context_privileged_security_descriptor d'
         = ebpf_execution_context_privileged_security_descriptor d /\
       pool_blocks d' = pool_blocks d /\
       (NT_SUCCESS status = true -> status = size_query_status k).
Proof. exact (build_outcome k d). Qed.

End Build.

(** ** The start of the driver *)

Section EntryFacts.

Import Security Entry.

(** X11. [_ebpf_driver_initialize_device] never keeps the device
    initialization structure: on every path the structure it allocated
    is freed by the driver or taken by the framework, once.  The out
    parameter holds a device exactly when [WdfDeviceCreate] succeeded,
    a success of the function means that there is a device, and the
    function fails with a device in place exactly when the symbolic
    link could not be made. *)
Theorem device_init_is_freed_or_taken a m :
  let status := fst (fst (_ebpf_driver_initialize_device a m)) in
  let device := snd (fst (_ebpf_driver_initialize_device a m)) in
  let m' := snd (_ebpf_driver_initialize_device a m) in
  device_inits m' = device_inits m /\
  globals m' = globals m /\
  tracing m' = tracing m /\
  (count_calls DeviceInitAllocate m' + count_calls DeviceInitFree m
   = count_calls DeviceInitAllocate m + count_calls DeviceInitFree m'
     + match device with Some _ => 1 | None => 0 end)%nat /\
  match device with
  | Some device =>
      device = created_device a /\ devices m' = device :: devices m
  | None => devices m' = devices m /\ NT_SUCCESS status = false
  end /\
  (link_failed a = true <-> device <> None /\ NT_SUCCESS status = false).
Proof.
  unfold _ebpf_driver_initialize_device, link_failed, count_calls.
  destruct (device_init_allocated a); cbn [negb andb];
    [destruct (NT_SUCCESS (WdfDeviceInitAssignName_status a)) eqn:H1;
       cbn [negb andb];
       [destruct (NT_SUCCESS
                    (WdfDeviceInitAssignWdmIrpPreprocessCallback_status a))
          eqn:H2; cbn [negb andb];
          [destruct (NT_SUCCESS (WdfDeviceCreate_status a)) eqn:H3;
             cbn [negb andb]| ]| ]| ];
    cbn; rewrite ?List.filter_app, ?length_app; cbn;
    rewrite ?negb_true_iff; intuition (try lia; try congruence).
Qed.

Lemma deleted_again (device : handle) (others : list handle) :
  ~ In device others ->
  List.filter (fun d => negb (Pos.eqb d device)) (device :: others) = others.
Proof.
  intros Hfresh. cbn. rewrite Pos.eqb_refl. cbn.
  induction others as [|d others IH]; [reflexivity|].
  cbn. destruct (Pos.eqb_spec d device) as [->|_].
  - contradiction Hfresh. now left.
  - cbn. f_equal. apply IH. intros Hin. apply Hfresh. now right.
Qed.

Lemma insufficient_resources_is_a_failure :
  NT_SUCCESS STATUS_INSUFFICIENT_RESOURCES = false.
Proof. reflexivity. Qed.

Ltac entry_step :=
  cbn;
  repeat (first
            [ match goal with
              | H : NT_SUCCESS ?x = _ |- context [NT_SUCCESS ?x] => rewrite H
              end
            | rewrite insufficient_resources_is_a_failure ];
          cbn);
  rewrite ?List.filter_app, ?length_app; cbn;
  rewrite ?negb_true_iff, ?andb_false_r;
  intuition (try lia; try congruence).

Lemma initialize_objects_outcome a m :
  core_running (globals m) = false ->
  ~ In (created_device (device_calls a)) (devices m) ->
  let status := fst (fst (_ebpf_driver_initialize_objects a m)) in
  let device := snd (fst (_ebpf_driver_initialize_objects a m)) in
  let m' := snd (_ebpf_driver_initialize_objects a m) in
  tracing m' = tracing m /\
  _ebpf_driver_device_object m' = _ebpf_driver_device_object m /\
  device_inits m' = device_inits m /\
  count_calls TraceTerminate m' = count_calls TraceTerminate m /\
  _ebpf_driver_unloading_flag (globals m')
    = _ebpf_driver_unloading_flag (globals m) /\
  if NT_SUCCESS status
  then device = Some (created_device (device_calls a)) /\
       devices m' = created_device (device_calls a) :: devices m /\
       core_running (globals m') = true /\
       (if build_answers_well (descriptor_calls a)
        then ebpf_execution_context_privileged_security_descriptor
               (globals m') = Some privileged_descriptor /\
             pool_blocks (globals m') = pool_blocks (globals m) + 1
        else ebpf_execution_context_privileged_security_descriptor
               (globals m')
             = ebpf_execution_context_privileged_security_descriptor
                 (globals m) /\
             pool_blocks (globals m') = pool_blocks (globals m))
  else core_running (globals m') = false /\
       ebpf_execution_context_privileged_security_descriptor (globals m')
         = ebpf_execution_context_privileged_security_descriptor (globals m) /\
       pool_blocks (globals m') = pool_blocks (globals m) /\
       devices m'
         = if device_left_behind a
           then created_device (device_calls a) :: devices m
           else devices m.
Proof.
  intros Hcold Hfresh.
  pose proof (deleted_again _ _ Hfresh) as Hdeleted. cbn in Hdeleted.
  unfold _ebpf_driver_initialize_objects, _ebpf_driver_initialize_device,
    device_left_behind, link_failed, count_calls, initialize_objects_exit.
  destruct (NT_SUCCESS (WdfDriverCreate_status a)) eqn:H0; cbn [negb andb];
    [|entry_step].
  destruct (device_init_allocated (device_calls a)); cbn [negb andb];
    [|entry_step].
  destruct (NT_SUCCESS (WdfDeviceInitAssignName_status (device_calls a)))
    eqn:H1; cbn [negb andb fst snd]; [|entry_step].
  destruct (NT_SUCCESS
              (WdfDeviceInitAssignWdmIrpPreprocessCallback_status
                 (device_calls a))) eqn:H2;
    cbn [negb andb fst snd]; [|entry_step].
  destruct (NT_SUCCESS (WdfDeviceCreate_status (device_calls a))) eqn:H3;
    cbn [negb andb fst snd]; [|entry_step].
  destruct (NT_SUCCESS (WdfDeviceCreateSymbolicLink_status (device_calls a)))
    eqn:H4; cbn [negb andb fst snd]; [|entry_step].
  destruct (NT_SUCCESS (WdfIoQueueCreate_status a)) eqn:H5;
    cbn [negb andb fst snd]; [|cbn; rewrite ?H5; cbn; rewrite Hdeleted; entry_step].
  destruct (NT_SUCCESS (ebpf_core_initiate_status a)) eqn:H6;
    cbn [negb andb fst snd]; [|cbn; rewrite ?H6; cbn; rewrite Hdeleted; entry_step].
  cbn [globals called set_globals init_allocated device_created].
  pose proof (build_outcome (descriptor_calls a)
                (set_core_running true (globals m))) as Hbuild.
  destruct (_ebpf_driver_build_privileged_security_descriptor
              (descriptor_calls a) (set_core_running true (globals m)))
    as [status g].
  cbn [fst snd] in Hbuild.
  destruct Hbuild as (Hflag & Hcore & Hbuild).
  destruct (NT_SUCCESS status) eqn:H7; cbn [negb fst snd]; rewrite ?H7.
  - destruct (build_answers_well (descriptor_calls a));
      cbn in *; rewrite ?H7; cbn; rewrite ?List.filter_app, ?length_app; cbn;
      intuition (try lia; try congruence).
  - destruct (build_answers_well (descriptor_calls a));
      cbn in *; rewrite ?H7; cbn; rewrite ?Hdeleted;
      rewrite ?List.filter_app, ?length_app; cbn;
      intuition (try lia; try congruence).
Qed.

(** X12. [DriverEntry] on a machine without tracing and without a
    running execution context.  When it succeeds, tracing is on, the
    execution context runs, the control device exists and
    [ebpf_driver_get_device_object] returns its device object.  When it
    fails, tracing is off and [ebpf_trace_terminate] was called once
    (also when tracing could not be started), the execution context
    does not run, the global device object, the privileged descriptor
    and the pool are what they were, and no device initialization
    structure is held.  A device that was created is deleted again on
    failure, except when the failure is the symbolic link: that
    device stays. *)
Theorem driver_entry_succeeds_or_cleans_up a m :
  tracing m = false ->
  core_running (globals m) = false ->
  ~ In (created_device (device_calls a)) (devices m) ->
  let status := fst (DriverEntry a m) in
  let m' := snd (DriverEntry a m) in
  device_inits m' = device_inits m /\
  if NT_SUCCESS status
  then tracing m' = true /\
       core_running (globals m') = true /\
       ebpf_driver_get_device_object m'
         = Some (WdfDeviceWdmGetDeviceObject a
                   (created_device (device_calls a))) /\
       devices m' = created_device (device_calls a) :: devices m /\
       count_calls TraceTerminate m' = count_calls TraceTerminate m
  else tracing m' = false /\
       count_calls TraceTerminate m' = S (count_calls TraceTerminate m) /\
       core_running (globals m') = false /\
       ebpf_driver_get_device_object m' = ebpf_driver_get_device_object m /\
       ebpf_execution_context_privileged_security_descriptor (globals m')
         = ebpf_execution_context_privileged_security_descriptor (globals m) /\
       pool_blocks (globals m') = pool_blocks (globals m) /\
       devices m'
         = if NT_SUCCESS (ebpf_trace_initiate_status a)
              && device_left_behind a
           then created_device (device_calls a) :: devices m
           else devices m.
Proof.
  intros Hquiet Hcold Hfresh. unfold DriverEntry, ebpf_driver_get_device_object.
  destruct (NT_SUCCESS (ebpf_trace_initiate_status a)) eqn:H0;
    cbn [negb andb fst snd].
  - pose proof (initialize_objects_outcome a
                  (called [TraceInitiate] (set_tracing true m))
                  Hcold Hfresh) as Hobjects.
    destruct (_ebpf_driver_initialize_objects a
                (called [TraceInitiate] (set_tracing true m)))
      as [[status device] m1].
    cbn [fst snd] in Hobjects.
    destruct Hobjects as (Htrace & Hobject & Hinits & Hcount & _ & Hrest).
    unfold count_calls in *. cbn [calls called set_tracing] in Hcount.
    rewrite List.filter_app, length_app in Hcount. cbn in Hcount.
    destruct (NT_SUCCESS status) eqn:H1; cbn [negb fst snd]; rewrite ?H1.
    + destruct Hrest as (-> & Hdevices & Hcore & _).
      cbn in *. intuition (try lia; try congruence).
    + destruct Hrest as (Hcore & Hdescriptor & Hpool & Hdevices).
      cbn in *. rewrite List.filter_app, length_app. cbn.
      intuition (try lia; try congruence).
  - unfold count_calls. cbn. rewrite ?H0. cbn.
    rewrite List.filter_app, length_app. cbn.
    intuition (try lia; try congruence).
Qed.

(** X13. Loading and unloading leaves no pool block behind.  When
    [DriverEntry] succeeds on a machine that has no privileged
    descriptor and no running execution context, [_ebpf_driver_unload]
    brings the number of pool blocks back to what it was before the
    load: the one block that the load may have left is the descriptor,
    and the unload frees it.  After the unload there is no descriptor,
    the execution context does not run and the unloading flag is set. *)
Theorem load_then_unload_leaves_no_pool_block a m :
  tracing m = false ->
  core_running (globals m) = false ->
  ebpf_execution_context_privileged_security_descriptor (globals m) = None ->
  ~ In (created_device (device_calls a)) (devices m) ->
  NT_SUCCESS (fst (DriverEntry a m)) = true ->
  let loaded := globals (snd (DriverEntry a m)) in
  pool_blocks loaded
    = pool_blocks (globals m)
      + match ebpf_execution_context_privileged_security_descriptor loaded
        with Some _ => 1 | None => 0 end /\
  pool_blocks (_ebpf_driver_unload loaded) = pool_blocks (globals m) /\
  ebpf_execution_context_privileged_security_descriptor
    (_ebpf_driver_unload loaded) = None /\
  core_running (_ebpf_driver_unload loaded) = false /\
  _ebpf_driver_unloading_flag (_ebpf_driver_unload loaded) = true.
Proof.
  intros Hquiet Hcold Hnone Hfresh. unfold DriverEntry.
  destruct (NT_SUCCESS (ebpf_trace_initiate_status a)) eqn:H0;
    cbn [negb andb fst snd]; [|congruence].
  pose proof (initialize_objects_outcome a
                (called [TraceInitiate] (set_tracing true m))
                Hcold Hfresh) as Hobjects.
  destruct (_ebpf_driver_initialize_objects a
              (called [TraceInitiate] (set_tracing true m)))
    as [[status device] m1].
  cbn [fst snd] in Hobjects.
  destruct Hobjects as (_ & _ & _ & _ & _ & Hrest).
  destruct (NT_SUCCESS status) eqn:H1; cbn [negb fst snd]; [|congruence].
  intros _. destruct Hrest as (_ & _ & _ & Hbuilt).
  cbn [globals called set_tracing] in *. unfold _ebpf_driver_unload.
  destruct (build_answers_well (descriptor_calls a));
    destruct Hbuilt as [Hdescriptor Hpool]; cbn; rewrite Hdescriptor;
    rewrite ?Hnone; cbn; repeat split; lia.
Qed.

(** X18. What [_ebpf_driver_initialize_objects] returns and what it
    does to the driver's globals depends on the machine through the
    globals only, and on the calls through their statuses: the status
    is that of the first call that fails, or of the descriptor build
    when none does, and the globals are those of the run on the
    globals alone, in which the device initialization counts as one
    call with the status of [_ebpf_driver_initialize_device]. *)
Theorem initialize_objects_on_the_globals a m :
  let full := Entry._ebpf_driver_initialize_objects a m in
  let brief :=
    Security._ebpf_driver_initialize_objects (startup_of a) (globals m) in
  fst (fst full) = fst brief /\ globals (snd full) = snd brief.
Proof.
  unfold Entry._ebpf_driver_initialize_objects,
    Security._ebpf_driver_initialize_objects, startup_of,
    _ebpf_driver_initialize_device, initialize_objects_exit.
  cbn [Security.WdfDriverCreate_status
       Security._ebpf_driver_initialize_device_status
       Security.WdfIoQueueCreate_status Security.ebpf_core_initiate_status
       Security.descriptor_answers].
  destruct (NT_SUCCESS (WdfDriverCreate_status a)) eqn:H0; cbn [negb andb];
    [|entry_step].
  destruct (device_init_allocated (device_calls a)); cbn [negb andb];
    [|entry_step].
  destruct (NT_SUCCESS (WdfDeviceInitAssignName_status (device_calls a)))
    eqn:H1; cbn [negb andb fst snd]; [|entry_step].
  destruct (NT_SUCCESS
              (WdfDeviceInitAssignWdmIrpPreprocessCallback_status
                 (device_calls a))) eqn:H2;
    cbn [negb andb fst snd]; [|entry_step].
  destruct (NT_SUCCESS (WdfDeviceCreate_status (device_calls a))) eqn:H3;
    cbn [negb andb fst snd]; [|entry_step].
  destruct (NT_SUCCESS (WdfDeviceCreateSymbolicLink_status (device_calls a)))
    eqn:H4; cbn [negb andb fst snd]; [|entry_step].
  destruct (NT_SUCCESS (WdfIoQueueCreate_status a)) eqn:H5;
    cbn [negb andb fst snd]; [|entry_step].
  destruct (NT_SUCCESS (ebpf_core_initiate_status a)) eqn:H6;
    cbn [negb andb fst snd]; [|entry_step].
  cbn [globals called set_globals init_allocated device_created].
  destruct (_ebpf_driver_build_privileged_security_descriptor
              (descriptor_calls a) (set_core_running true (globals m)))
    as [status g].
  destruct (NT_SUCCESS status) eqn:H7; cbn [negb fst snd]; rewrite ?H7;
    cbn; split; reflexivity.
Qed.

End EntryFacts.

(** ** The volume information query *)

Section VolumeQuery.

Import Volume.

(** X14. [_ebpf_driver_query_volume_information] completes the IRP
    once, with the status that it returns and stores in the status
    block.  It succeeds exactly for the class FileFsDeviceInformation
    with an output buffer of at least the size of
    FILE_FS_DEVICE_INFORMATION, and then the buffer holds the device
    type FILE_DEVICE_NULL and no characteristics.  In every other case
    the system buffer is not written: a buffer that is too short gives
    STATUS_BUFFER_TOO_SMALL, another class STATUS_NOT_SUPPORTED. *)
Theorem volume_query_writes_a_large_enough_buffer_only irp :
  let status := fst (_ebpf_driver_query_volume_information irp) in
  let irp' := snd (_ebpf_driver_query_volume_information irp) in
  completed irp' = S (completed irp) /\
  IoStatus_Status irp' = status /\
  (NT_SUCCESS status = true <->
   FsInformationClass irp = FileFsDeviceInformation /\
   sizeof_FILE_FS_DEVICE_INFORMATION <= OutputBufferLength irp) /\
  (NT_SUCCESS status = true ->
   status = STATUS_SUCCESS /\
   SystemBuffer irp' = mk_device_information FILE_DEVICE_NULL 0) /\
  (NT_SUCCESS status = false ->
   SystemBuffer irp' = SystemBuffer irp /\
   status = if FsInformationClass irp =? FileFsDeviceInformation
            then STATUS_BUFFER_TOO_SMALL
            else STATUS_NOT_SUPPORTED).
Proof.
  unfold _ebpf_driver_query_volume_information.
  destruct (Z.eqb_spec (FsInformationClass irp) FileFsDeviceInformation)
    as [Hclass|Hclass];
    [destruct (Z.ltb_spec (OutputBufferLength irp)
                 sizeof_FILE_FS_DEVICE_INFORMATION) as [Hlen|Hlen]|];
    cbn [fst snd completed IoStatus_Status SystemBuffer];
    repeat split; try reflexivity; try discriminate; try lia;
    try (intros [? ?]; first [lia|contradiction]).
Qed.

End VolumeQuery.

(** ** Byte order *)

Section NetworkOrder.

Import ByteOrder.

Lemma byte_at_values x :
  byte_at 0 x = x mod 256 /\
  byte_at 1 x = (x / 256) mod 256 /\
  byte_at 2 x = (x / 65536) mod 256 /\
  byte_at 3 x = (x / 16777216) mod 256.
Proof.
  unfold byte_at. cbn. now rewrite Z.div_1_r.
Qed.

Lemma _byteswap_ulong_twice x :
  _byteswap_ulong (_byteswap_ulong x) = x mod 2 ^ 32 /\
  0 <= _byteswap_ulong x < 2 ^ 32.
Proof.
  unfold _byteswap_ulong.
  destruct (byte_at_values x) as (-> & -> & -> & ->).
  match goal with
  | |- context [byte_at 0 ?y] =>
      destruct (byte_at_values y) as (-> & -> & -> & ->)
  end.
  change (2 ^ 32) with 4294967296. change (2 ^ 24) with 16777216.
  change (2 ^ 16) with 65536. change (2 ^ 8) with 256.
  Z.to_euclidean_division_equations. lia.
Qed.

Lemma _byteswap_ushort_twice x :
  _byteswap_ushort (_byteswap_ushort x) = x mod 2 ^ 16 /\
  0 <= _byteswap_ushort x < 2 ^ 16.
Proof.
  unfold _byteswap_ushort.
  destruct (byte_at_values x) as (-> & -> & _ & _).
  match goal with
  | |- context [byte_at 0 ?y] =>
      destruct (byte_at_values y) as (-> & -> & _ & _)
  end.
  change (2 ^ 16) with 65536. change (2 ^ 8) with 256.
  Z.to_euclidean_division_equations. lia.
Qed.

(** X15. The conversions between host and network byte order undo
    each other on the 32 bits, and on the 16 bits, that they read:
    [ntohl (htonl x)] and [htonl (ntohl x)] are [x] cut to 32 bits,
    [ntohs (htons x)] and [htons (ntohs x)] are [x] cut to 16 bits,
    and the results are 32-bit and 16-bit values. *)
Theorem network_order_round_trip x :
  ntohl (htonl x) = x mod 2 ^ 32 /\
  htonl (ntohl x) = x mod 2 ^ 32 /\
  0 <= htonl x < 2 ^ 32 /\
  ntohs (htons x) = x mod 2 ^ 16 /\
  htons (ntohs x) = x mod 2 ^ 16 /\
  0 <= htons x < 2 ^ 16.
Proof.
  unfold ntohl, htonl, ntohs, htons.
  pose proof (_byteswap_ulong_twice x) as [Hlong Hlong_range].
  pose proof (_byteswap_ushort_twice x) as [Hshort Hshort_range].
  repeat split; first [assumption|lia].
Qed.

End NetworkOrder.

(** ** The ring buffer event handler *)

Section RingEvents.

Import RingTest.

Variable RING_BUFFER_TEST_EVENT_COUNT : Z.

Abbreviation handler :=
  (ring_buffer_test_event_handler RING_BUFFER_TEST_EVENT_COUNT).
Abbreviation deliver_all := (deliver RING_BUFFER_TEST_EVENT_COUNT).

Lemma deliver_cancelled events ctx :
  cancelled ctx = true -> deliver_all events ctx = ctx.
Proof.
  intros Hcancelled. induction events as [|data events IH]; [reflexivity|].
  unfold deliver in *. cbn [fold_left].
  unfold ring_buffer_test_event_handler at 2. rewrite Hcancelled.
  cbn [orb snd]. exact IH.
Qed.

Lemma matching_cons data events expected :
  matching (data :: events) expected
    = (if found data expected then 1 else 0) + matching events expected.
Proof.
  unfold matching. cbn [List.filter].
  destruct (found data expected); cbn [length]; lia.
Qed.

Lemma matching_nonnegative events expected : 0 <= matching events expected.
Proof. unfold matching. lia. Qed.

Lemma deliver_counts events ctx :
  0 < RING_BUFFER_TEST_EVENT_COUNT ->
  cancelled ctx = false ->
  0 <= matched_entry_count ctx <= RING_BUFFER_TEST_EVENT_COUNT ->
  let ctx' := deliver_all events ctx in
  let total := matched_entry_count ctx + matching events (records ctx) in
  cancelled ctx' = false /\
  records ctx' = records ctx /\
  matched_entry_count ctx' = Z.min RING_BUFFER_TEST_EVENT_COUNT total /\
  promise_values ctx'
    = (promise_values ctx
       + if ((matched_entry_count ctx <? RING_BUFFER_TEST_EVENT_COUNT)
             && (RING_BUFFER_TEST_EVENT_COUNT <=? total))%Z
         then 1 else 0)%nat.
Proof.
  intros Hcount. revert ctx.
  induction events as [|data events IH]; intros ctx Hlive Hrange.
  - cbn. change (matching [] (records ctx)) with 0.
    rewrite Z.add_0_r.
    destruct (Z.ltb_spec (matched_entry_count ctx)
                RING_BUFFER_TEST_EVENT_COUNT);
      destruct (Z.leb_spec RING_BUFFER_TEST_EVENT_COUNT
                  (matched_entry_count ctx));
      cbn [andb]; repeat split; first [assumption|reflexivity|lia].
  - cbn zeta.
    change (deliver_all (data :: events) ctx)
      with (deliver_all events (snd (handler ctx data))).
    rewrite matching_cons.
    pose proof (matching_nonnegative events (records ctx)) as Hsome.
    remember (snd (handler ctx data)) as ctx1 eqn:Hstep.
    unfold ring_buffer_test_event_handler in Hstep.
    rewrite Hlive in Hstep. cbn [orb] in Hstep.
    destruct (Z.eqb_spec (matched_entry_count ctx)
                RING_BUFFER_TEST_EVENT_COUNT) as [Hfull|Hroom];
      cbn [snd] in Hstep; subst ctx1.
    + specialize (IH ctx Hlive Hrange).
      cbn zeta in IH. destruct IH as (Hc & Hr & Hm & Hp).
      rewrite Hc, Hr, Hm, Hp.
      destruct (Z.ltb_spec (matched_entry_count ctx)
                  RING_BUFFER_TEST_EVENT_COUNT); [lia|].
      cbn [andb]. destruct (found data (records ctx));
        repeat split; first [assumption|reflexivity|lia].
    + set (matched := if found data (records ctx)
                      then matched_entry_count ctx + 1
                      else matched_entry_count ctx).
      set (ctx1 := mk_event_context _ _ _ _).
      assert (Hnext : 0 <= matched <= RING_BUFFER_TEST_EVENT_COUNT)
        by (subst matched; destruct (found data (records ctx)); lia).
      specialize (IH ctx1 eq_refl Hnext). cbn zeta in IH.
      destruct IH as (Hc & Hr & Hm & Hp).
      rewrite Hc, Hr, Hm, Hp. subst ctx1 matched.
      cbn [cancelled records matched_entry_count promise_values].
      destruct (Z.ltb_spec (matched_entry_count ctx)
                  RING_BUFFER_TEST_EVENT_COUNT); [|lia].
      cbn [andb].
      destruct (found data (records ctx));
        repeat match goal with
               | |- context [Z.eqb ?a ?b] => destruct (Z.eqb_spec a b)
               | |- context [Z.ltb ?a ?b] => destruct (Z.ltb_spec a b)
               | |- context [Z.leb ?a ?b] => destruct (Z.leb_spec a b)
               end;
        cbn [andb]; repeat split; first [assumption|reflexivity|lia].
Qed.

(** X16. [ring_buffer_test_event_handler] over a run of events, for a
    context that counts from at most RING_BUFFER_TEST_EVENT_COUNT.  A
    cancelled context is left as it is.  Otherwise the handler counts
    the events that are among the expected records and stops counting
    at RING_BUFFER_TEST_EVENT_COUNT, whatever arrives afterwards; the
    promise is given its value once, by the event that brings the count
    to RING_BUFFER_TEST_EVENT_COUNT, and never a second time. *)
Theorem promise_is_fulfilled_once events ctx :
  0 < RING_BUFFER_TEST_EVENT_COUNT ->
  0 <= matched_entry_count ctx <= RING_BUFFER_TEST_EVENT_COUNT ->
  let ctx' := deliver_all events ctx in
  let total := matched_entry_count ctx + matching events (records ctx) in
  if cancelled ctx
  then ctx' = ctx
  else
    cancelled ctx' = false /\
    records ctx' = records ctx /\
    matched_entry_count ctx' = Z.min RING_BUFFER_TEST_EVENT_COUNT total /\
    promise_values ctx'
      = (promise_values ctx
         + if ((matched_entry_count ctx <? RING_BUFFER_TEST_EVENT_COUNT)
               && (RING_BUFFER_TEST_EVENT_COUNT <=? total))%Z
           then 1 else 0)%nat.
Proof.
  intros Hcount Hrange.
  destruct (cancelled ctx) eqn:Hcancelled.
  - now apply deliver_cancelled.
  - now apply deliver_counts.
Qed.

End RingEvents.

(** ** The holders of a filter context, whatever they do *)

Section FilterContextInvariant.

Import NetExt.

Variable remove_from_cleanup_list :
  address -> net_ebpf_extension_wfp_cleanup_state_t ->
  net_ebpf_extension_wfp_cleanup_state_t.
Variable leave_rundown : address -> gmap address Z -> gmap address Z.

Abbreviation DEREFERENCE' :=
  (DEREFERENCE_FILTER_CONTEXT remove_from_cleanup_list leave_rundown).
Abbreviation run_holders' :=
  (holders remove_from_cleanup_list leave_rundown).

Lemma dereference_final p c s :
  pool s !! p = Some c -> to_long (reference_count c - 1) = 0 ->
  DEREFERENCE' (Some p) s
    = Some (mk_system (delete p (pool s))
              (remove_from_cleanup_list p (cleanup s))
              (leave_rundown (provider_context c) (rundown s))
              (effects s ++ LeaveRundown (provider_context c)
                              :: finalization p c)).
Proof.
  intros Hlive Hzero. unfold DEREFERENCE_FILTER_CONTEXT.
  rewrite Hlive. cbn [set_reference_count reference_count provider_context].
  rewrite Hzero. cbn [Z.eqb pool cleanup rundown effects].
  erewrite clean_up_live by (cbn [pool]; apply lookup_insert_eq).
  cbn [pool cleanup rundown effects].
  rewrite delete_insert_eq. unfold finalization.
  cbn [filter_ids client_contexts wfp_engine_handle set_reference_count].
  now rewrite <- app_assoc.
Qed.

Lemma finalization_frees_no_other p q c provider :
  q <> p ->
  List.filter (frees q) (LeaveRundown provider :: finalization p c) = [].
Proof.
  intros Hother. unfold finalization.
  assert (Pos.eqb p q = false) as Hneq by (apply Pos.eqb_neq; congruence).
  destruct (filter_ids c), (client_contexts c), (wfp_engine_handle c);
    cbn; now rewrite Hneq.
Qed.

Lemma set_reference_count_same c :
  set_reference_count (reference_count c) c = c.
Proof. now destruct c. Qed.

Lemma count_after_cons n call calls :
  count_after n (call :: calls) = count_after (count_after n [call]) calls.
Proof. reflexivity. Qed.

(** X17. Whatever the holders of a live filter context do with their
    references, in a run in which no macro is handed freed memory:
    no other filter context is changed or freed, and the context
    itself either is still in the pool, with the count that the calls
    add up to in 32 bits and with nothing else changed, or it is gone
    from the pool and its memory was freed once, by a
    [DEREFERENCE_FILTER_CONTEXT] that brought the count to zero and
    was the last call of the run. *)
Theorem holders_free_at_most_once calls p c s s' :
  pool s !! p = Some c ->
  run_holders' calls p s = Some s' ->
  (forall q, q <> p ->
     pool s' !! q = pool s !! q /\ times_freed q s' = times_freed q s) /\
  ((pool s' !! p
      = Some (set_reference_count
                (count_after (reference_count c) calls) c) /\
    effects s' = effects s /\ cleanup s' = cleanup s /\
    rundown s' = rundown s)
   \/
   (pool s' !! p = None /\
    times_freed p s' = S (times_freed p s) /\
    effects s'
      = effects s ++ LeaveRundown (provider_context c) :: finalization p c /\
    count_after (reference_count c) calls = 0 /\
    exists before, calls = before ++ [Dereference])).
Proof.
  revert c s. induction calls as [|call calls IH]; intros c s Hlive Hrun.
  - cbn in Hrun. injection Hrun as <-. split; [now intros q _|].
    left. cbn [count_after fold_left].
    now rewrite set_reference_count_same.
  - cbn [holders] in Hrun. rewrite count_after_cons.
    set (n := count_after (reference_count c) [call]) in *.
    assert (Hmoved :
      forall s1, s1 = with_count n p c s ->
                 run_holders' calls p s1 = Some s' ->
      (forall q, q <> p ->
         pool s' !! q = pool s !! q /\ times_freed q s' = times_freed q s) /\
      ((pool s' !! p
          = Some (set_reference_count (count_after n calls) c) /\
        effects s' = effects s /\ cleanup s' = cleanup s /\
        rundown s' = rundown s)
       \/
       (pool s' !! p = None /\
        times_freed p s' = S (times_freed p s) /\
        effects s'
          = effects s ++ LeaveRundown (provider_context c)
                         :: finalization p c /\
        count_after n calls = 0 /\
        exists before, call :: calls = before ++ [Dereference]))).
    { intros s1 -> Hrest.
      destruct (IH (set_reference_count n c) (with_count n p c s))
        as [Hframe Hcases];
        [unfold with_count; cbn [pool]; apply lookup_insert_eq
        |exact Hrest|].
      cbn [set_reference_count reference_count provider_context] in Hcases.
      split.
      - intros q Hq. destruct (Hframe q Hq) as [Hpool Hfreed].
        rewrite Hpool, Hfreed. unfold with_count, times_freed.
        cbn [pool effects]. now rewrite lookup_insert_ne by congruence.
      - destruct Hcases as [(Hp & He & Hc & Hr)
                           |(Hp & Hf & He & Hz & before & Hlast)].
        + left. rewrite Hp, He, Hc, Hr. now repeat split.
        + right. rewrite Hp, Hf, He. repeat split; try assumption.
          exists (call :: before). now rewrite Hlast. }
    destruct call.
    + rewrite (reference_live p c s Hlive) in Hrun.
      now apply (Hmoved _ eq_refl).
    + destruct (Z.eq_dec (to_long (reference_count c - 1)) 0) as [Hzero|Hmore].
      * rewrite (dereference_final p c s Hlive Hzero) in Hrun.
        destruct calls as [|call calls].
        -- cbn [holders] in Hrun. injection Hrun as <-.
           cbn [pool effects]. split.
           ++ intros q Hq. rewrite lookup_delete_ne by congruence.
              split; [reflexivity|]. unfold times_freed. cbn [effects].
              rewrite List.filter_app, length_app.
              rewrite finalization_frees_no_other by assumption.
              cbn. lia.
           ++ right. split; [apply lookup_delete_eq|].
              split.
              { unfold times_freed. cbn [effects].
                rewrite List.filter_app, length_app.
                cbn [List.filter frees length].
                rewrite finalization_frees_once. lia. }
              split; [reflexivity|]. split; [exact Hzero|].
              now exists [].
        -- cbn [holders] in Hrun.
           unfold REFERENCE_FILTER_CONTEXT, DEREFERENCE_FILTER_CONTEXT
             in Hrun.
           cbn [pool] in Hrun. rewrite lookup_delete_eq in Hrun.
           now destruct call.
      * rewrite (dereference_held remove_from_cleanup_list leave_rundown
                   p c s Hlive Hmore) in Hrun.
        now apply (Hmoved _ eq_refl).
Qed.

End FilterContextInvariant.

(** ** Concrete runs of the further properties *)

Lemma unknown_control_code_is_refused_witness :
  _ebpf_driver_io_device_control (Sample.channel (Sample.header 1) [] true)
    0 8 0 Sample.idle
  = Returned tt (completed STATUS_INVALID_DEVICE_REQUEST 0 Sample.idle).
Proof.
  apply (unknown_control_code_is_refused
           (Sample.channel (Sample.header 1) [] true) 0 8 0 Sample.idle).
  vm_compute. discriminate.
Defined.

Lemma input_retrieval_failure_is_returned_witness :
  _ebpf_driver_io_device_control (Sample.channel [] [] true)
    0 8 IOCTL_EBPF_CTL_METHOD_BUFFERED Sample.idle
  = Returned tt
      (completed STATUS_BUFFER_TOO_SMALL 0
         (add_trace [RetrieveInputBuffer 8] Sample.idle)).
Proof.
  destruct (input_retrieval_failure_is_returned
              (Sample.channel [] [] true) 0 8 STATUS_BUFFER_TOO_SMALL None 0
              Sample.idle) as [Hfailed _].
  - discriminate.
  - reflexivity.
  - apply Hfailed. reflexivity.
Defined.

Lemma unknown_operation_is_not_dispatched_witness :
  _ebpf_driver_io_device_control (Sample.channel (Sample.header 9) [] true)
    0 8 IOCTL_EBPF_CTL_METHOD_BUFFERED Sample.idle
  = Returned tt
      (completed STATUS_INSUFFICIENT_RESOURCES 0
         (add_trace [RetrieveInputBuffer 8; GetHandlerProperties 9]
            Sample.idle)).
Proof.
  apply (unknown_operation_is_not_dispatched
           (Sample.channel (Sample.header 9) [] true) 0 8 STATUS_SUCCESS
           (Sample.header 9) 8 Sample.NO_MEMORY (mk_properties 0 0 false false)
           Sample.idle).
  - discriminate.
  - reflexivity.
  - reflexivity.
  - vm_compute. discriminate.
  - reflexivity.
  - vm_compute. discriminate.
Defined.

Lemma output_retrieval_failure_is_returned_witness :
  _ebpf_driver_io_device_control (Sample.channel (Sample.header 2) [] true)
    16 8 IOCTL_EBPF_CTL_METHOD_BUFFERED Sample.idle
  = Returned tt
      (completed STATUS_BUFFER_TOO_SMALL 16
         (add_trace
            [RetrieveInputBuffer 8; GetHandlerProperties 2;
             IsCallerPrivileged; RetrieveOutputBuffer 16] Sample.idle)).
Proof.
  apply (output_retrieval_failure_is_returned
           (Sample.channel (Sample.header 2) [] true) 16 8 (Sample.header 2)
           8 (mk_properties 8 16 false true) STATUS_BUFFER_TOO_SMALL None 0
           Sample.idle).
  - split; [discriminate|].
    exists STATUS_SUCCESS, Sample.SUCCESS.
    repeat split; vm_compute; congruence.
  - right. reflexivity.
  - reflexivity.
  - reflexivity.
  - left. reflexivity.
Defined.

Lemma synchronous_result_is_passed_on_witness :
  _ebpf_driver_io_device_control (Sample.channel (Sample.header 1) [] true)
    0 8 IOCTL_EBPF_CTL_METHOD_BUFFERED Sample.idle
  = Returned tt
      (mk_world (mk_request 0 false [(STATUS_SUCCESS, 0)]) 1%nat
         [RetrieveInputBuffer 8; GetHandlerProperties 1;
          InvokeHandler 1 8 0 false false;
          CompleteWithInformation STATUS_SUCCESS 0]).
Proof.
  destruct (synchronous_result_is_passed_on
              (Sample.channel (Sample.header 1) [] true) 0 8
              (Sample.header 1) 8 (mk_properties 8 0 false false) None 0
              Sample.SUCCESS 1%nat Sample.idle) as (_ & _ & Hrun).
  - split; [discriminate|].
    exists STATUS_SUCCESS, Sample.SUCCESS.
    repeat split; vm_compute; congruence.
  - left. reflexivity.
  - left. repeat split. vm_compute. discriminate.
  - reflexivity.
  - reflexivity.
  - exact Hrun.
Defined.

Lemma pending_command_is_completed_by_the_callback_witness :
  exists pending completed_request,
    _ebpf_driver_io_device_control
      (Sample.channel (Sample.header 4) (repeat 0 16) true)
      16 8 IOCTL_EBPF_CTL_METHOD_BUFFERED Sample.idle
    = Returned tt pending /\
    request pending = mk_request 1 true [] /\
    _ebpf_driver_io_device_control_complete
      (Sample.channel (Sample.header 4) (repeat 0 16) true)
      16 Sample.SUCCESS pending = Returned tt completed_request /\
    reference_count (request completed_request) = 0 /\
    cancelable (request completed_request) = false /\
    completions (request completed_request) = [(STATUS_SUCCESS, 16)] /\
    core completed_request = 1%nat.
Proof.
  apply (pending_command_is_completed_by_the_callback
           (Sample.channel (Sample.header 4) (repeat 0 16) true) 16 8
           (Sample.header 4) 8 (mk_properties 8 16 true false)
           (Some (repeat 0 16)) 16 Sample.PENDING 1%nat Sample.idle
           16 Sample.SUCCESS).
  - split; [discriminate|].
    exists STATUS_SUCCESS, Sample.SUCCESS.
    repeat split; vm_compute; congruence.
  - left. reflexivity.
  - right. split; [reflexivity|].
    exists STATUS_SUCCESS, (repeat 0 16).
    repeat split; vm_compute; congruence.
  - reflexivity.
  - reflexivity.
  - reflexivity.
Defined.

Lemma handler_is_told_lengths_modulo_65536_witness :
  In (InvokeHandler 1 4 0 false false)
     (trace (outcome_world
               (_ebpf_driver_io_device_control
                  (Sample.channel Runs.long_command [] true)
                  0 65540 IOCTL_EBPF_CTL_METHOD_BUFFERED Sample.idle))).
Proof.
  destruct (handler_is_told_lengths_modulo_65536
              (Sample.channel Runs.long_command [] true) 0 65540
              Runs.long_command 65540 (mk_properties 8 0 false false) None 0
              Sample.idle) as (told & -> & _ & _ & Hin).
  - split; [discriminate|].
    exists STATUS_SUCCESS, Sample.SUCCESS.
    repeat split; vm_compute; congruence.
  - left. reflexivity.
  - left. repeat split. vm_compute. discriminate.
  - vm_compute. discriminate.
  - exact Hin.
Defined.

Lemma CTL_CODE_fields_are_read_back_witness :
  0 <= IOCTL_EBPF_CTL_METHOD_BUFFERED < 2 ^ 31 /\
  Z.shiftr IOCTL_EBPF_CTL_METHOD_BUFFERED 16 = FILE_DEVICE_NETWORK /\
  Z.land (Z.shiftr IOCTL_EBPF_CTL_METHOD_BUFFERED 14) 3 = FILE_ANY_ACCESS /\
  Z.land (Z.shiftr IOCTL_EBPF_CTL_METHOD_BUFFERED 2) 4095 = 0x900 /\
  Z.land IOCTL_EBPF_CTL_METHOD_BUFFERED 3 = METHOD_BUFFERED.
Proof.
  apply (CTL_CODE_fields_are_read_back EBPF_IOCTL_TYPE 0x900 METHOD_BUFFERED
           FILE_ANY_ACCESS);
    unfold EBPF_IOCTL_TYPE, FILE_DEVICE_NETWORK, METHOD_BUFFERED,
      FILE_ANY_ACCESS; lia.
Defined.

Lemma driver_entry_succeeds_or_cleans_up_witness :
  NT_SUCCESS (fst (Entry.DriverEntry Runs.no_queue Entry.cold)) = false /\
  Entry.tracing (snd (Entry.DriverEntry Runs.no_queue Entry.cold)) = false /\
  Entry.count_calls Entry.TraceTerminate
    (snd (Entry.DriverEntry Runs.no_queue Entry.cold)) = 1%nat /\
  Security.core_running
    (Entry.globals (snd (Entry.DriverEntry Runs.no_queue Entry.cold)))
    = false /\
  Entry.devices (snd (Entry.DriverEntry Runs.no_queue Entry.cold)) = [] /\
  Entry.device_inits (snd (Entry.DriverEntry Runs.no_queue Entry.cold)) = 0.
Proof.
  destruct (driver_entry_succeeds_or_cleans_up Runs.no_queue Entry.cold)
    as (Hinits & Hfailed).
  - reflexivity.
  - reflexivity.
  - cbn. tauto.
  - change (NT_SUCCESS (fst (Entry.DriverEntry Runs.no_queue Entry.cold)))
      with false in Hfailed.
    destruct Hfailed as (Htracing & Hcount & Hcore & _ & _ & _ & Hdevices).
    repeat split; assumption.
Defined.

Lemma load_then_unload_leaves_no_pool_block_witness :
  Security.pool_blocks
    (Entry.globals (snd (Entry.DriverEntry Runs.all_well Entry.cold))) = 1 /\
  Security.pool_blocks
    (Security._ebpf_driver_unload
       (Entry.globals (snd (Entry.DriverEntry Runs.all_well Entry.cold))))
    = 0 /\
  Security.ebpf_execution_context_privileged_security_descriptor
    (Security._ebpf_driver_unload
       (Entry.globals (snd (Entry.DriverEntry Runs.all_well Entry.cold))))
    = None.
Proof.
  destruct (load_then_unload_leaves_no_pool_block Runs.all_well Entry.cold)
    as (Hloaded & Hpool & Hdescriptor & _).
  - reflexivity.
  - reflexivity.
  - reflexivity.
  - cbn. tauto.
  - reflexivity.
  - repeat split; assumption.
Defined.

Lemma promise_is_fulfilled_once_witness :
  RingTest.matched_entry_count
    (RingTest.deliver 2 Runs.arriving Runs.fresh_context) = 2 /\
  RingTest.promise_values
    (RingTest.deliver 2 Runs.arriving Runs.fresh_context) = 1%nat.
Proof.
  destruct (promise_is_fulfilled_once 2 Runs.arriving Runs.fresh_context)
    as (_ & _ & Hcount & Hpromise).
  - lia.
  - cbn. lia.
  - split; [exact Hcount|exact Hpromise].
Defined.

Lemma holders_free_at_most_once_witness :
  (forall q, q <> Hook.context_address ->
     NetExt.pool Runs.released !! q = NetExt.pool Hook.teardown !! q /\
     NetExt.times_freed q Runs.released
       = NetExt.times_freed q Hook.teardown) /\
  ((NetExt.pool Runs.released !! Hook.context_address
      = Some (NetExt.set_reference_count
                (NetExt.count_after
                   (NetExt.reference_count Hook.deleting_context)
                   (Hook.busy ++ [NetExt.Dereference]))
                Hook.deleting_context) /\
    NetExt.effects Runs.released = NetExt.effects Hook.teardown /\
    NetExt.cleanup Runs.released = NetExt.cleanup Hook.teardown /\
    NetExt.rundown Runs.released = NetExt.rundown Hook.teardown)
   \/
   (NetExt.pool Runs.released !! Hook.context_address = None /\
    NetExt.times_freed Hook.context_address Runs.released
      = S (NetExt.times_freed Hook.context_address Hook.teardown) /\
    NetExt.effects Runs.released
      = NetExt.effects Hook.teardown
        ++ NetExt.LeaveRundown
             (NetExt.provider_context Hook.deleting_context)
           :: NetExt.finalization Hook.context_address
                Hook.deleting_context /\
    NetExt.count_after (NetExt.reference_count Hook.deleting_context)
      (Hook.busy ++ [NetExt.Dereference]) = 0 /\
    exists before,
      Hook.busy ++ [NetExt.Dereference] = before ++ [NetExt.Dereference])).
Proof.
  apply (holders_free_at_most_once
           NetExt.net_ebpf_ext_remove_filter_context_from_cleanup_list
           NetExt.net_ebpf_extension_hook_provider_leave_rundown
           (Hook.busy ++ [NetExt.Dereference]) Hook.context_address
           Hook.deleting_context Hook.teardown Runs.released).
  - apply lookup_singleton_eq.
  - vm_compute. reflexivity.
Defined.

